(** * MinimalBotRunner (main.py): a model of the supervisor and its properties

    The model follows main.py method by method.

    - Text is [string], read as characters with code points below 256.
    - Time is a logical clock in ticks of one millisecond.  Waiting for a
      process, sleeping and a read that blocks take time; the rest of the
      code takes none.  Every thread has a clock of its own.
    - What the platform decides is read from a [World]: the file system, what
      [subprocess.Popen] does, when a process ends and with which code, when
      a signal arrives, what psutil measures.
    - What the runner does to the outside (log records, calls on processes,
      threads started, work given to the pool) is appended to the [output] of
      the state, oldest first.
    - The threads of the pool and the signal handler are put in sequence
      where [run] waits for them; the notes at [workers] and [deliver_signal]
      say why that keeps the dictionary of processes right. *)

From Stdlib Require Import List String Ascii Bool Arith NArith ZArith QArith Lia.
Import ListNotations.
Open Scope string_scope.
Open Scope N_scope.
Open Scope nat_scope.

(** ** Text: [str.lower], [str.strip], [in] *)

Module Text.

(** [c.lower()] for a code point below 256: A-Z, and the Latin-1 capitals
    0xC0-0xDE except the multiplication sign 0xD7, move up by 32. *)
Definition lower_char (c : ascii) : ascii :=
  let n := nat_of_ascii c in
  if ((65 <=? n) && (n <=? 90)) || ((192 <=? n) && (n <=? 222) && negb (n =? 215))
  then ascii_of_nat (n + 32)
  else c.

Fixpoint lower (s : string) : string :=
  match s with
  | EmptyString => EmptyString
  | String c s' => String (lower_char c) (lower s')
  end.

(** [k in s] for strings: [k] starts at some position of [s]. *)
Fixpoint contains (k s : string) : bool :=
  prefix k s ||
  match s with
  | EmptyString => false
  | String _ s' => contains k s'
  end.

(** [str.isspace] for one code point below 256. *)
Definition isspace (c : ascii) : bool :=
  let n := nat_of_ascii c in
  ((9 <=? n) && (n <=? 13)) || ((28 <=? n) && (n <=? 32)) || (n =? 133) || (n =? 160).

Fixpoint lstrip (s : string) : string :=
  match s with
  | EmptyString => EmptyString
  | String c s' => if isspace c then lstrip s' else s
  end.

(** Drops the white space at the end: a character is kept when it is not a
    space or when something is kept after it. *)
Fixpoint rstrip (s : string) : string :=
  match s with
  | EmptyString => EmptyString
  | String c s' =>
      match rstrip s' with
      | EmptyString => if isspace c then EmptyString else String c EmptyString
      | r => String c r
      end
  end.

Definition strip (s : string) : string := rstrip (lstrip s).

(** [any(p(x) for x in l)] *)
Definition any {A : Type} (p : A -> bool) (l : list A) : bool := existsb p l.

(** The substring relation [contains] decides. *)
Definition Substring (k s : string) : Prop :=
  exists pre post : string, s = pre ++ k ++ post.

End Text.

(** ** Paths ([pathlib.PurePosixPath])

    A path is its root and its components; the root is empty for a relative
    path, a slash, or the two slashes that POSIX lets a path keep.
    [Path(".")] has no component. *)

Record Path : Type := mkPath { root : string; parts : list string }.

Module PathOps.

Definition name (p : Path) : string := last (parts p) "".

Definition parent (p : Path) : Path :=
  {| root := root p; parts := removelast (parts p) |}.

Fixpoint join (sep : string) (l : list string) : string :=
  match l with
  | [] => ""
  | [x] => x
  | x :: l' => x ++ sep ++ join sep l'
  end.

Definition str (p : Path) : string :=
  match root p, parts p with
  | EmptyString, [] => "."
  | r, l => r ++ join "/" l
  end.

(** [s.rfind(".")]: the position of the last dot. *)
Fixpoint rfind_dot (s : string) : option nat :=
  match s with
  | EmptyString => None
  | String c s' =>
      match rfind_dot s' with
      | Some i => Some (S i)
      | None => if Ascii.eqb c "."%char then Some 0 else None
      end
  end.

(** [stem]: the final component without its last suffix; a dot that starts or
    ends the name does not begin a suffix. *)
Definition stem (p : Path) : string :=
  let n := name p in
  match rfind_dot n with
  | Some i => if (0 <? i) && (i <? String.length n - 1) then substring 0 i n else n
  | None => n
  end.

End PathOps.

(** [Path(s)]: the root of [s], and its components between slashes without
    the empty ones and the single dots. *)

Module PathParse.

(** [s.split(sep)] for a one-character separator. *)
Fixpoint split (sep : ascii) (s : string) : list string :=
  match s with
  | EmptyString => [EmptyString]
  | String c s' =>
      if Ascii.eqb c sep then EmptyString :: split sep s'
      else match split sep s' with
           | x :: l => String c x :: l
           | [] => [String c EmptyString]
           end
  end.

Definition is_component (x : string) : bool :=
  negb (String.eqb x "") && negb (String.eqb x ".").

(** The root of a path: exactly two leading slashes are kept, one or three
    and more are a single slash. *)
Definition splitroot (s : string) : string :=
  if prefix "/" s then
    if prefix "//" s && negb (prefix "///" s) then "//" else "/"
  else "".

Definition Path_of_string (s : string) : Path :=
  {| root := splitroot s;
     parts := filter is_component (split "/"%char s) |}.

End PathParse.

(** ** What the runner emits and what the platform answers *)

Inductive Level : Type := INFO | WARNING | ERROR.

(** The logger a record goes to: [self.logger] or the logger of
    [create_file_logger], which is kept per [file_path.stem]. *)
Inductive Logger : Type :=
| MinimalRunner
| Bot (file_name : string).

(** The log texts of main.py, one constructor per format string. *)
Inductive Message : Type :=
| MsgShuttingDown                    (* Shutting down... *)
| MsgFileNotFound (file_path : Path) (* File {file_path} not found! *)
| MsgStarting                        (* Starting... *)
| MsgStarted (pid : nat)             (* Started with PID: {pid} *)
| MsgStartFailed                     (* Start failed: {e} *)
| MsgLine (line : string)            (* {line}, as read *)
| MsgAlarm (clean_line : string)     (* the alarm sign, then {clean_line} *)
| MsgHighMemory (memory_mb : Q)      (* High memory: {memory_mb}MB, restarting... *)
| MsgEnded (exit_code : Z) (runtime : N) (* Ended: code={exit_code}, time={runtime}s; here in ticks *)
| MsgCompleted                       (* Completed successfully *)
| MsgManualStop                      (* Manual stop *)
| MsgRestart (restart_count delay : nat) (* Restart #{restart_count} in {delay}s... *)
| MsgMaxRestarts                     (* Max restarts reached *)
| MsgStartingAll                     (* Starting all bots... *)
| MsgValid (file_path : Path)        (* {file_path} *)
| MsgNotFound (file_path : Path)     (* {file_path} not found *)
| MsgNoValidFiles                    (* No valid files! *)
| MsgError                           (* Error: {e} *)
| MsgCritical.                       (* Critical error: {e} *)

Inductive Exn : Type := NoSuchProcess | AccessDenied | TimeoutExpired | OSError.

Inductive Target : Type := ReadStdout | ReadStderr | MemoryCheck.

(** Calls that leave the runner, in the order they are made. *)
Inductive Event : Type :=
| Log (logger : Logger) (level : Level) (msg : Message)
| PopenCall (args : list string) (cwd : Path)      (* subprocess.Popen(args, cwd=cwd, ...) *)
| ThreadStart (target : Target) (pid : nat)        (* threading.Thread(target, daemon=True).start() *)
| Wait (pid : nat)                                 (* process.wait() *)
| WaitTimeout (pid : nat) (seconds : nat)          (* process.wait(timeout=seconds) *)
| Terminate (pid : nat)                            (* process.terminate() *)
| Kill (pid : nat)                                 (* process.kill() *)
| Sleep (seconds : nat)                            (* time.sleep(seconds) *)
| MemoryInfo (pid : nat) (rss : Exn + Z)           (* psutil_process.memory_info().rss and its result *)
| Submit (file_path : Path)                        (* self.executor.submit(self.run_single_bot, file_path) *)
| ExecutorShutdown.                                (* self.executor.shutdown(wait=True) *)

(** A [subprocess.Popen] object.  The process runs from [started] for
    [runtime] ticks and then has [returncode]; when and with which code it
    ends is the process's (and the platform's) business, whoever ended it. *)
Record Popen : Type := mkPopen {
  pid : nat;
  started : N;
  runtime : N;
  returncode : Z
}.

Definition TICKS_PER_SECOND : N := 1000.

Definition ends (p : Popen) : N := started p + runtime p.

(** [process.poll()] at time [t] *)
Definition poll (p : Popen) (t : N) : option Z :=
  if (t <? ends p)%N then None else Some (returncode p).

Inductive PopenResult : Type :=
| PopenRaises
| PopenStarts (pid : nat) (runtime : N) (exit_code : Z).

Record World : Type := mkWorld {
  sys_executable : string;
  (** when SIGINT or SIGTERM reaches the runner, if it does *)
  shutdown_at : option N;
  (** [file_path.exists()] at a time: its answer, or the [OSError] it raises
      (a name that is too long, a directory of the path that may not be
      searched; [exists()] answers [False] only where the path or one of its
      directories is not there) *)
  path_exists : Path -> N -> Exn + bool;
  (** what the n-th [subprocess.Popen] call of the i-th worker (the worker
      of the i-th valid file) does, both counted from 0 *)
  subprocess_Popen : nat -> nat -> PopenResult;
  (** [psutil.Process(pid)] at a time: found or not *)
  psutil_Process : nat -> N -> Exn + unit;
  (** [memory_info().rss] of a pid at a time, in bytes *)
  memory_info_rss : nat -> N -> Exn + Z;
  (** whether [process.terminate()] raises for a pid *)
  terminate_raises : nat -> bool;
  (** whether [process.kill()] raises for a pid *)
  kill_raises : nat -> bool
}.

(** [self.shutdown_requested], read at time [t]: the signal handler is its
    only writer and never clears it. *)
Definition shutdown_requested (w : World) (t : N) : bool :=
  match shutdown_at w with
  | Some T => (T <=? t)%N
  | None => false
  end.

(** The attributes [__init__] fixes. *)
Record MinimalBotRunner : Type := mkRunner {
  bot_files : list string;
  MAX_RESTARTS : nat;
  RESTART_DELAY : nat;
  MEMORY_LIMIT_MB : Z
}.

(** [ThreadPoolExecutor(max_workers=0)] raises ValueError. *)
Definition init (files : list string) : option MinimalBotRunner :=
  match files with
  | [] => None
  | _ => Some {| bot_files := files; MAX_RESTARTS := 5; RESTART_DELAY := 10;
                 MEMORY_LIMIT_MB := 400 |}
  end.

(** What a thread of the runner works on: its clock, the dictionary
    [self.current_processes] (in insertion order), everything emitted so far
    (oldest first), and for a worker thread the local [restart_count] of
    [run_single_bot] and the number of [subprocess.Popen] calls it has made. *)
Record State : Type := mkState {
  now : N;
  current_processes : list (string * Popen);
  output : list Event;
  restart_count : nat;
  launches : nat
}.

Definition emit (e : Event) (s : State) : State :=
  mkState (now s) (current_processes s) (output s ++ [e]) (restart_count s) (launches s).

Definition log (l : Logger) (lv : Level) (m : Message) (s : State) : State :=
  emit (Log l lv m) s.

Definition at_time (t : N) (s : State) : State :=
  mkState t (current_processes s) (output s) (restart_count s) (launches s).

(** [time.sleep(seconds)] *)
Definition sleep (seconds : nat) (s : State) : State :=
  at_time (now s + N.of_nat seconds * TICKS_PER_SECOND) (emit (Sleep seconds) s).

(** ** Dictionaries in insertion order *)

Module Dict.
Section Dict.
Context {V : Type}.

Fixpoint get (k : string) (d : list (string * V)) : option V :=
  match d with
  | [] => None
  | (k', v) :: d' => if String.eqb k k' then Some v else get k d'
  end.

(** [d[k] = v]: a key that is present keeps its place. *)
Fixpoint set (k : string) (v : V) (d : list (string * V)) : list (string * V) :=
  match d with
  | [] => [(k, v)]
  | (k', v') :: d' => if String.eqb k k' then (k, v) :: d' else (k', v') :: set k v d'
  end.

(** [if k in d: del d[k]] *)
Fixpoint del (k : string) (d : list (string * V)) : list (string * V) :=
  match d with
  | [] => []
  | (k', v') :: d' => if String.eqb k k' then del k d' else (k', v') :: del k d'
  end.

Definition keys (d : list (string * V)) : list string := map fst d.

End Dict.
End Dict.

(** ** Code that raises: a state and exception monad

    [Done a s]: the code returned [a]; [Raised e s]: it raised [e]; in both
    cases [s] is the state it left.  [OutOfFuel]: a loop was cut off by its
    iteration bound (shown not to happen for the bounds used below). *)

Inductive Outcome (A : Type) : Type :=
| Done (a : A) (s : State)
| Raised (e : Exn) (s : State)
| OutOfFuel.
Arguments Done {A} a s.
Arguments Raised {A} e s.
Arguments OutOfFuel {A}.

Definition M (A : Type) : Type := State -> Outcome A.

Definition ret {A : Type} (a : A) : M A := fun s => Done a s.

Definition bind {A B : Type} (m : M A) (f : A -> M B) : M B :=
  fun s =>
    match m s with
    | Done a s' => f a s'
    | Raised e s' => Raised e s'
    | OutOfFuel => OutOfFuel
    end.

Definition raise {A : Type} (e : Exn) : M A := fun s => Raised e s.

(** [try: m  except: h] (a bare [except] catches everything) *)
Definition try_except {A : Type} (m : M A) (h : M A) : M A :=
  fun s =>
    match m s with
    | Done a s' => Done a s'
    | Raised _ s' => h s'
    | OutOfFuel => OutOfFuel
    end.

(** [try: m  finally: f] *)
Definition try_finally {A : Type} (m : M A) (f : M unit) : M A :=
  fun s =>
    match m s with
    | Done a s' => bind f (fun _ => ret a) s'
    | Raised e s' => bind f (fun _ => raise e) s'
    | OutOfFuel => OutOfFuel
    end.

(** A step that only changes the state. *)
Definition effect (f : State -> State) : M unit := fun s => Done tt (f s).

(** Reading the state. *)
Definition gets {A : Type} (f : State -> A) : M A := fun s => Done (f s) s.

Declare Scope monad_scope.
Delimit Scope monad_scope with monad.
Notation "x <- m ;; k" := (bind m (fun x => k))
  (at level 61, m at next level, right associativity) : monad_scope.
Notation "m ;; k" := (bind m (fun _ => k))
  (at level 61, right associativity) : monad_scope.
Open Scope monad_scope.

Inductive Ctl : Type := Continue | BreakLoop.

(** [while cond: body], cut off after [fuel] tests of the condition. *)
Fixpoint while_ (fuel : nat) (cond : State -> bool) (body : M Ctl) : M unit :=
  fun s =>
    match fuel with
    | 0 => OutOfFuel
    | S fuel' =>
        if cond s then
          match body s with
          | Done Continue s' => while_ fuel' cond body s'
          | Done BreakLoop s' => Done tt s'
          | Raised e s' => Raised e s'
          | OutOfFuel => OutOfFuel
          end
        else Done tt s
    end.

(** [for x in l: body(x)] *)
Fixpoint for_ {A : Type} (l : list A) (body : A -> M unit) : M unit :=
  match l with
  | [] => ret tt
  | x :: l' => body x ;; for_ l' body
  end.

Import PathOps.

(** ** The worker: [start_process], [run_single_bot] *)

Definition create_file_logger (file_path : Path) : Logger := Bot (stem file_path).

(** [start_process] of worker [i].  [None] is returned for a file that is not
    there and for a [Popen] call that raises; an error of [exists()], which
    is called outside the [try], is raised to the caller. *)
Definition start_process (w : World) (i : nat) (file_path : Path) (s : State)
  : (Exn + option Popen) * State :=
  match path_exists w file_path (now s) with
  | inl e => (inl e, s)
  | inr false =>
      (inr None, log MinimalRunner ERROR (MsgFileNotFound file_path) s)
  | inr true =>
      let file_logger := create_file_logger file_path in
      let s := log file_logger INFO MsgStarting s in
      let s := emit (PopenCall [sys_executable w; str file_path] (parent file_path)) s in
      let call := launches s in
      let s := mkState (now s) (current_processes s) (output s) (restart_count s) (S call) in
      match subprocess_Popen w i call with
      | PopenStarts pid runtime exit_code =>
          let process := mkPopen pid (now s) runtime exit_code in
          (inr (Some process), log file_logger INFO (MsgStarted pid) s)
      | PopenRaises =>
          (inr None, log file_logger ERROR MsgStartFailed s)
      end
  end.

(** [monitor_output] and [monitor_memory] only start their threads; what
    the threads do is [read_stdout], [read_stderr] and [memory_check] below. *)
Definition monitor_output (process : Popen) (s : State) : State :=
  emit (ThreadStart ReadStderr (pid process)) (emit (ThreadStart ReadStdout (pid process)) s).

Definition monitor_memory (process : Popen) (s : State) : State :=
  emit (ThreadStart MemoryCheck (pid process)) s.

(** [process.wait()]: the thread sleeps until the process has ended. *)
Definition wait (process : Popen) (s : State) : Z * State :=
  (returncode process, at_time (N.max (now s) (ends process)) (emit (Wait (pid process)) s)).

(** How a piece of a loop body hands control on. *)
Inductive Flow : Type :=
| Next (s : State)                (* falls through to the next iteration *)
| Break (s : State)               (* [break] *)
| Return (s : State)              (* [return] *)
| Raise (e : Exn) (s : State).    (* an exception leaves the function *)

Definition manual_termination : list Z := [130; 143; -15]%Z.

Definition set_restart_count (n : nat) (s : State) : State :=
  mkState (now s) (current_processes s) (output s) n (launches s).

Definition register (key : string) (process : Popen) (s : State) : State :=
  mkState (now s) (Dict.set key process (current_processes s)) (output s)
          (restart_count s) (launches s).

(** [for _ in range(delay): if self.shutdown_requested: return; time.sleep(1)] *)
Fixpoint backoff (w : World) (delay : nat) (s : State) : Flow :=
  match delay with
  | 0 => Next s
  | S delay' =>
      if shutdown_requested w (now s) then Return s
      else backoff w delay' (sleep 1 s)
  end.

(** The condition of the [while] of [run_single_bot]. *)
Definition loop_cond (self : MinimalBotRunner) (w : World) (s : State) : bool :=
  negb (shutdown_requested w (now s)) && (restart_count s <? MAX_RESTARTS self).

(** The body of the [while] of [run_single_bot]. *)
Definition loop_body (self : MinimalBotRunner) (w : World) (i : nat) (file_path : Path)
  (s : State) : Flow :=
  let file_logger := create_file_logger file_path in
  let start_time := now s in
  let '(process, s) := start_process w i file_path s in
  match process with
  | inl e => Raise e s
  | inr None => Break s
  | inr (Some process) =>
      let s := register (str file_path) process s in
      let s := monitor_output process s in
      let s := monitor_memory process s in
      let '(exit_code, s) := wait process s in
      let runtime := (now s - start_time)%N in
      let s := log file_logger INFO (MsgEnded exit_code runtime) s in
      if (exit_code =? 0)%Z then
        Break (log file_logger INFO MsgCompleted s)
      else if existsb (Z.eqb exit_code) manual_termination then
        Break (log file_logger INFO MsgManualStop s)
      else
        let s := set_restart_count (restart_count s + 1) s in
        if restart_count s <? MAX_RESTARTS self then
          let delay := RESTART_DELAY self * restart_count s in
          let s := log file_logger WARNING (MsgRestart (restart_count s) delay) s in
          backoff w delay s
        else
          Next (log file_logger ERROR MsgMaxRestarts s)
  end.

(** The [while] loop, for at most [fuel] tests of its condition. *)
Fixpoint while_loop (fuel : nat) (self : MinimalBotRunner) (w : World) (i : nat)
  (file_path : Path) (s : State) : Outcome unit :=
  match fuel with
  | 0 => OutOfFuel
  | S fuel' =>
      if loop_cond self w s then
        match loop_body self w i file_path s with
        | Next s' => while_loop fuel' self w i file_path s'
        | Break s' => Done tt s'
        | Return s' => Done tt s'
        | Raise e s' => Raised e s'
        end
      else Done tt s
  end.

(** A worker thread starts with [restart_count = 0] and no launch made. *)
Definition worker_start (s : State) : State :=
  mkState (now s) (current_processes s) (output s) 0 0.

(** [run_single_bot] of worker [i]: the condition is tested at most
    [MAX_RESTARTS + 1] times (see [run_single_bot_returns]). *)
Definition run_single_bot (self : MinimalBotRunner) (w : World) (i : nat)
  (file_path : Path) : M unit :=
  fun s => while_loop (S (MAX_RESTARTS self)) self w i file_path (worker_start s).

(** ** The output pump: [is_info_message], [monitor_output] *)

Import Text.

Definition info_keywords : list string :=
  ["info"; "debug"; "successfully"; "started"; "initialized"; "connected"; "polling";
   "running"].

Definition is_info_message (message : string) : bool :=
  any (fun keyword => contains keyword (lower message)) info_keywords.

(** [process.poll() is None] at the time of the state *)
Definition is_running (process : Popen) (s : State) : bool :=
  match poll process (now s) with None => true | Some _ => false end.

(** One [readline()] of a pump: it returns at a time with a line (the empty
    string at end of file) or raises. *)
Inductive ReadResult : Type :=
| ReadLine (line : string)
| ReadRaises.

(** What [read_stdout] does with a line. *)
Definition stdout_line (file_logger : Logger) (line : string) (s : State) : State :=
  if String.eqb line "" then s
  else log file_logger INFO (MsgLine (strip line)) s.

(** What [read_stderr] does with a line. *)
Definition stderr_line (file_logger : Logger) (line : string) (s : State) : State :=
  if String.eqb line "" then s
  else
    let clean_line := strip line in
    if is_info_message clean_line then log file_logger INFO (MsgLine clean_line) s
    else log file_logger ERROR (MsgAlarm clean_line) s.

(** The loop of a pump over the [readline()] calls that return, each with
    the time at which it does. *)
Fixpoint pump (on_line : string -> State -> State) (w : World) (process : Popen)
  (reads : list (N * ReadResult)) (s : State) : State :=
  match reads with
  | [] => s
  | (t, r) :: reads' =>
      if is_running process s && negb (shutdown_requested w (now s)) then
        let s := at_time (N.max (now s) t) s in
        match r with
        | ReadLine line => pump on_line w process reads' (on_line line s)
        | ReadRaises => s
        end
      else s
  end.

Definition read_stdout (w : World) (file_path : Path) :=
  pump (stdout_line (create_file_logger file_path)) w.

Definition read_stderr (w : World) (file_path : Path) :=
  pump (stderr_line (create_file_logger file_path)) w.

(** ** The memory watchdog: [monitor_memory] *)

(** [process.terminate()] *)
Definition terminate (w : World) (process : Popen) : M unit :=
  effect (emit (Terminate (pid process))) ;;
  if terminate_raises w (pid process) then raise OSError else ret tt.

(** [psutil_process.memory_info().rss] *)
Definition memory_info (w : World) (process : Popen) : M Z :=
  t <- gets now ;;
  let result := memory_info_rss w (pid process) t in
  effect (emit (MemoryInfo (pid process) result)) ;;
  match result with
  | inl e => raise e
  | inr rss => ret rss
  end.

Definition Qgtb (a b : Q) : bool := negb (Qle_bool a b).

(** The [try] block inside the [while] of [memory_check].  The quotient
    [rss / 1024 / 1024] is taken exactly. *)
Definition memory_check_body (self : MinimalBotRunner) (w : World) (file_logger : Logger)
  (process : Popen) : M Ctl :=
  rss <- memory_info w process ;;
  let memory_mb := (inject_Z rss / 1024 / 1024)%Q in
  if Qgtb memory_mb (inject_Z (MEMORY_LIMIT_MB self)) then
    effect (log file_logger WARNING (MsgHighMemory memory_mb)) ;;
    terminate w process ;;
    ret BreakLoop
  else
    effect (sleep 30) ;;
    ret Continue.

Definition memory_check_fuel (fuel : nat) (self : MinimalBotRunner) (w : World)
  (file_path : Path) (process : Popen) : M unit :=
  let file_logger := create_file_logger file_path in
  try_except
    (t <- gets now ;;
     match psutil_Process w (pid process) t with
     | inl e => raise e
     | inr _ =>
         while_ fuel
           (fun s => is_running process s && negb (shutdown_requested w (now s)))
           (try_except (memory_check_body self w file_logger process) (ret BreakLoop))
     end)
    (ret tt).

(** [memory_check]: the process ends at [ends process] and every turn of the
    loop that goes on sleeps 30 seconds, which bounds the number of turns. *)
Definition memory_check (self : MinimalBotRunner) (w : World) (file_path : Path)
  (process : Popen) : M unit :=
  fun s =>
    memory_check_fuel
      (S (S (N.to_nat ((ends process - now s) / (30 * TICKS_PER_SECOND)))))
      self w file_path process s.

(** ** The group: [stop_process], [stop_all_processes], [signal_handler], [run] *)

Import PathParse.

(** [process.wait(timeout=seconds)]: returns once the process has ended,
    raises TimeoutExpired when it has not by then. *)
Definition wait_timeout (process : Popen) (seconds : nat) : M unit :=
  effect (emit (WaitTimeout (pid process) seconds)) ;;
  t <- gets now ;;
  if (ends process <=? t + N.of_nat seconds * TICKS_PER_SECOND)%N then
    effect (at_time (N.max t (ends process)))
  else
    effect (at_time (t + N.of_nat seconds * TICKS_PER_SECOND)%N) ;;
    raise TimeoutExpired.

(** [process.kill()] *)
Definition kill (w : World) (process : Popen) : M unit :=
  effect (emit (Kill (pid process))) ;;
  if kill_raises w (pid process) then raise OSError else ret tt.

Definition wait_ (process : Popen) : M unit :=
  fun s => Done tt (snd (wait process s)).

Definition unregister (key : string) (s : State) : State :=
  mkState (now s) (Dict.del key (current_processes s)) (output s)
          (restart_count s) (launches s).

Definition stop_process (w : World) (file_path : Path) : M unit :=
  processes <- gets current_processes ;;
  match Dict.get (str file_path) processes with
  | Some process =>
      running <- gets (is_running process) ;;
      if running then
        try_finally
          (try_except
             (terminate w process ;;
              wait_timeout process 10)
             (try_except
                (kill w process ;;
                 wait_ process)
                (ret tt)))
          (effect (unregister (str file_path)))
      else ret tt
  | None => ret tt
  end.

Definition stop_all_processes (w : World) : M unit :=
  keys <- gets (fun s => Dict.keys (current_processes s)) ;;
  for_ keys (fun file_path => stop_process w (Path_of_string file_path)).

(** [signal_handler]; the flag it sets is [shutdown_requested], true from
    [shutdown_at] on. *)
Definition signal_handler (w : World) : M unit :=
  effect (log MinimalRunner INFO MsgShuttingDown) ;;
  stop_all_processes w.

(** [file_path.exists()] *)
Definition exists_ (w : World) (file_path : Path) : M bool :=
  t <- gets now ;;
  match path_exists w file_path t with
  | inl e => raise e
  | inr found => ret found
  end.

(** The validation loop of [run]; [exists()] is called outside any [try]. *)
Fixpoint validate (w : World) (files : list string) (valid_files : list Path)
  : M (list Path) :=
  match files with
  | [] => ret valid_files
  | file_str :: files' =>
      let file_path := Path_of_string file_str in
      found <- exists_ w file_path ;;
      if found then
        effect (log MinimalRunner INFO (MsgValid file_path)) ;;
        validate w files' (valid_files ++ [file_path])
      else
        effect (log MinimalRunner ERROR (MsgNotFound file_path)) ;;
        validate w files' valid_files
  end.

(** [future.result()] for the future of worker [i], submitted at [t0]: the
    worker thread runs [run_single_bot] on a clock of its own from [t0], and
    the waiting thread resumes when it has ended, if it had not before; an
    exception that ended the worker is raised again here. *)
Definition future_result (self : MinimalBotRunner) (w : World) (i : nat) (t0 : N)
  (file_path : Path) : M unit :=
  fun s =>
    match run_single_bot self w i file_path (at_time t0 s) with
    | Done _ s' => Done tt (at_time (N.max (now s) (now s')) s')
    | Raised e s' => Raised e (at_time (N.max (now s) (now s')) s')
    | OutOfFuel => OutOfFuel
    end.

(** The loop over the futures.  The worker threads share nothing but the
    dictionary, where each writes under the key of its file; they are taken
    here one after the other in the order of submission, so the output holds
    the records of each thread in their order, thread after thread. *)
Fixpoint workers (self : MinimalBotRunner) (w : World) (i : nat) (t0 : N)
  (valid_files : list Path) : M unit :=
  match valid_files with
  | [] => ret tt
  | file_path :: rest =>
      try_except
        (future_result self w i t0 file_path)
        (effect (log MinimalRunner ERROR MsgError)) ;;
      workers self w (S i) t0 rest
  end.

(** The signal, when it arrives while [run] waits for the workers: the
    handler runs in the main thread at [shutdown_at].  No worker registers a
    process after that time, so the dictionary the handler finds is the one
    the workers leave; the handler works on it with its own clock.  (Before
    [run] nothing is registered, and after the workers every process has
    ended: a handler that runs then stops nothing.) *)
Definition deliver_signal (w : World) (t0 : N) : M unit :=
  t <- gets now ;;
  match shutdown_at w with
  | Some T =>
      if (t0 <=? T)%N && (T <=? t)%N then
        effect (at_time T) ;;
        signal_handler w ;;
        effect (fun s => at_time (N.max t (now s)) s)
      else ret tt
  | None => ret tt
  end.

Definition run (self : MinimalBotRunner) (w : World) : M unit :=
  effect (log MinimalRunner INFO MsgStartingAll) ;;
  valid_files <- validate w (bot_files self) [] ;;
  match valid_files with
  | [] => effect (log MinimalRunner ERROR MsgNoValidFiles)
  | _ =>
      try_finally
        (try_except
           (for_ valid_files (fun file_path => effect (emit (Submit file_path))) ;;
            t0 <- gets now ;;
            workers self w 0 t0 valid_files ;;
            deliver_signal w t0)
           (effect (log MinimalRunner ERROR MsgCritical)))
        (stop_all_processes w ;;
         effect (emit ExecutorShutdown))
  end.

(** The state in which [run] is called at time [t]. *)
Definition fresh (t : N) : State := mkState t [] [] 0 0.

(** * What the properties are stated with *)

(** An exit code after which [run_single_bot] goes on to restart: not 0 and
    not one of the codes of a manual stop. *)
Definition restart_eligible (exit_code : Z) : bool :=
  negb (exit_code =? 0)%Z && negb (existsb (Z.eqb exit_code) manual_termination).

(** What a worker emits from [start_process] to the return of
    [process.wait()] when the launch succeeds. *)
Definition launch_events (w : World) (file_path : Path) (pid : nat) : list Event :=
  [Log (create_file_logger file_path) INFO MsgStarting;
   PopenCall [sys_executable w; str file_path] (parent file_path);
   Log (create_file_logger file_path) INFO (MsgStarted pid);
   ThreadStart ReadStdout pid; ThreadStart ReadStderr pid; ThreadStart MemoryCheck pid;
   Wait pid].

(** For every [PopenCall] of a trace, in order: the seconds slept since the
    [PopenCall] before it (since the beginning, for the first). *)
Fixpoint slept_before_launches (slept : nat) (evs : list Event) : list nat :=
  match evs with
  | [] => []
  | Sleep n :: evs' => slept_before_launches (slept + n) evs'
  | PopenCall _ _ :: evs' => slept :: slept_before_launches 0 evs'
  | _ :: evs' => slept_before_launches slept evs'
  end.

(** The number of launches in a trace. *)
Definition launch_count (evs : list Event) : nat :=
  List.length (slept_before_launches 0 evs).

(** The delays before the restarts: every launch but the first is one. *)
Definition restart_delays (evs : list Event) : list nat :=
  tl (slept_before_launches 0 evs).

(** The seconds slept in a trace. *)
Fixpoint seconds_slept (evs : list Event) : nat :=
  match evs with
  | [] => 0
  | Sleep n :: evs' => n + seconds_slept evs'
  | _ :: evs' => seconds_slept evs'
  end.

(** The state after [k] turns of the backoff loop. *)
Definition sleeps (k : nat) (s : State) : State :=
  mkState (now s + N.of_nat k * TICKS_PER_SECOND) (current_processes s)
          (output s ++ repeat (Sleep 1) k) (restart_count s) (launches s).

(** The state when a launched process has ended and its end is logged. *)
Definition ran (w : World) (file_path : Path) (pid : nat) (rt : N) (code : Z) (s : State)
  : State :=
  mkState (now s + rt)
          (Dict.set (str file_path) (mkPopen pid (now s) rt code) (current_processes s))
          (output s ++ launch_events w file_path pid
                    ++ [Log (create_file_logger file_path) INFO (MsgEnded code rt)])
          (restart_count s) (S (launches s)).

(** The worker as a transition system: it is in its loop or has stopped. *)
Inductive Config : Type :=
| Looping (s : State)
| Stopped (s : State)
| Crashed (e : Exn) (s : State).

(** The state of a configuration. *)
Definition state_of (c : Config) : State :=
  match c with Looping s | Stopped s | Crashed _ s => s end.

(** One test of the loop condition and, when it holds, one turn of the body. *)
Definition step (self : MinimalBotRunner) (w : World) (i : nat) (file_path : Path)
  (c : Config) : option Config :=
  match c with
  | Looping s =>
      if loop_cond self w s then
        match loop_body self w i file_path s with
        | Next s' => Some (Looping s')
        | Break s' => Some (Stopped s')
        | Return s' => Some (Stopped s')
        | Raise e s' => Some (Crashed e s')
        end
      else Some (Stopped s)
  | Stopped _ | Crashed _ _ => None
  end.

(** The configurations a worker comes to from a configuration, in any number
    of steps. *)
Inductive reaches (self : MinimalBotRunner) (w : World) (i : nat) (file_path : Path)
  : Config -> Config -> Prop :=
| reaches_refl c : reaches self w i file_path c c
| reaches_step c c' c'' :
    step self w i file_path c = Some c' ->
    reaches self w i file_path c' c'' ->
    reaches self w i file_path c c''.

(** The worker thread ends in [s']: [run_single_bot] has returned, or
    [exists()] raised at the time of [s'] and the error ended the thread. *)
Definition worker_ends (w : World) (file_path : Path) (o : Outcome unit) (s' : State)
  : Prop :=
  o = Done tt s' \/
  exists e, o = Raised e s' /\ path_exists w file_path (now s') = inl e.

(** The state a piece of a loop body leaves, however it hands control on. *)
Definition flow_state (f : Flow) : State :=
  match f with Next s | Break s | Return s | Raise _ s => s end.

(** A record a worker of [file_path] may emit: its launches run the
    interpreter on the file in the directory of the file. *)
Definition worker_event (w : World) (file_path : Path) (e : Event) : Prop :=
  match e with
  | PopenCall args cwd => args = [sys_executable w; str file_path] /\ cwd = parent file_path
  | Log _ _ _ | ThreadStart _ _ | Wait _ | Sleep _ => True
  | _ => False
  end.

(** How a worker of [file_path] changes the state from [s] to [s']: time
    does not go back; a process in the dictionary was there before or is one
    the worker has waited for; no key is lost; the output grows by records of
    the worker. *)
Definition worker_runs (w : World) (file_path : Path) (s s' : State) : Prop :=
  (now s <= now s')%N /\
  (forall k p, Dict.get k (current_processes s') = Some p ->
               Dict.get k (current_processes s) = Some p \/ (ends p <= now s')%N) /\
  (forall k, Dict.get k (current_processes s) <> None ->
             Dict.get k (current_processes s') <> None) /\
  exists evs, output s' = (output s ++ evs)%list /\ Forall (worker_event w file_path) evs.

(** A record the stopping code may emit. *)
Definition stop_event (e : Event) : Prop :=
  match e with
  | Log _ _ _ | Terminate _ | Kill _ | Wait _ | WaitTimeout _ _ => True
  | _ => False
  end.

(** How [stop_process] and its callers change the state: time does not go
    back, processes are only taken out of the dictionary, the output grows by
    stop records. *)
Definition only_stops (s s' : State) : Prop :=
  (now s <= now s')%N /\
  (forall k p, Dict.get k (current_processes s') = Some p ->
               Dict.get k (current_processes s) = Some p) /\
  exists evs, output s' = (output s ++ evs)%list /\ Forall stop_event evs.

(** No registered process is running at the time of the state. *)
Definition all_exited (s : State) : Prop :=
  forall k p, Dict.get k (current_processes s) = Some p -> (ends p <= now s)%N.

(** [exists()] answers [True]. *)
Definition found (w : World) (t : N) (file_path : Path) : bool :=
  match path_exists w file_path t with
  | inr true => true
  | _ => false
  end.

(** The record the validation loop of [run] writes for a configured file
    for which [exists()] answers. *)
Definition validation_record (w : World) (t : N) (file_str : string) : Event :=
  let file_path := PathParse.Path_of_string file_str in
  if found w t file_path then Log MinimalRunner INFO (MsgValid file_path)
  else Log MinimalRunner ERROR (MsgNotFound file_path).

(** The files the validation loop keeps. *)
Definition valid_files (w : World) (t : N) (files : list string) : list Path :=
  filter (found w t) (map PathParse.Path_of_string files).

(** The first configured file for which [exists()] raises, if there is one:
    the files before it and the error. *)
Fixpoint first_error (w : World) (t : N) (files : list string)
  : option (list string * Exn) :=
  match files with
  | [] => None
  | file_str :: files' =>
      match path_exists w (PathParse.Path_of_string file_str) t with
      | inl e => Some ([], e)
      | inr _ =>
          match first_error w t files' with
          | Some (before, e) => Some (file_str :: before, e)
          | None => None
          end
      end
  end.

(** The configured files that the validation loop gets to. *)
Definition validated (w : World) (t : N) (files : list string) : list string :=
  match first_error w t files with
  | Some (before, _) => before
  | None => files
  end.

(** [run] started at [t] ends in [s']: it has returned, every [exists()] of
    the validation having answered, or the first [exists()] that raised has
    ended it. *)
Definition run_ends (self : MinimalBotRunner) (w : World) (t : N) (o : Outcome unit)
  (s' : State) : Prop :=
  o = Done tt s' /\ first_error w t (bot_files self) = None \/
  exists before e,
    o = Raised e s' /\ first_error w t (bot_files self) = Some (before, e).

(** A record [run] may emit once the validation is done: launches and
    submissions are for valid files only. *)
Definition run_event (w : World) (valid : list Path) (e : Event) : Prop :=
  match e with
  | PopenCall args cwd =>
      exists file_path, In file_path valid /\
        args = [sys_executable w; str file_path] /\ cwd = parent file_path
  | Submit file_path => In file_path valid
  | _ => True
  end.

(** The state with more output. *)
Definition with_output (evs : list Event) (s : State) : State :=
  mkState (now s) (current_processes s) (output s ++ evs) (restart_count s) (launches s).

(** The separator does not occur in [x]. *)
Fixpoint no_sep (sep : ascii) (x : string) : Prop :=
  match x with
  | EmptyString => True
  | String c x' => Ascii.eqb c sep = false /\ no_sep sep x'
  end.

(** The sample is over the ceiling. *)
Definition over_limit (self : MinimalBotRunner) (rss : Z) : bool :=
  Qgtb (inject_Z rss / 1024 / 1024)%Q (inject_Z (MEMORY_LIMIT_MB self)).

(** The number of [process.terminate()] calls in a trace. *)
Fixpoint terminations (evs : list Event) : nat :=
  match evs with
  | [] => 0
  | Terminate _ :: evs' => S (terminations evs')
  | _ :: evs' => terminations evs'
  end.

(** The traces of a watchdog: samples under the ceiling, each followed by a
    sleep of 30 seconds, and then the end of the loop, a sample that fails, or
    a sample over the ceiling with its warning and the termination. *)
Inductive watched (self : MinimalBotRunner) (file_logger : Logger) (pid : nat)
  : list Event -> Prop :=
| watched_end : watched self file_logger pid []
| watched_failure e : watched self file_logger pid [MemoryInfo pid (inl e)]
| watched_over rss :
    over_limit self rss = true ->
    watched self file_logger pid
      [MemoryInfo pid (inr rss);
       Log file_logger WARNING (MsgHighMemory (inject_Z rss / 1024 / 1024)%Q);
       Terminate pid]
| watched_quiet rss evs :
    over_limit self rss = false ->
    watched self file_logger pid evs ->
    watched self file_logger pid (MemoryInfo pid (inr rss) :: Sleep 30 :: evs).

(** Concrete runs used to exercise the statements. *)
Module Scenario.

Definition enze : Path := PathParse.Path_of_string "enze.py".

(** The runner [main()] builds. *)
Definition runner : MinimalBotRunner := mkRunner ["enze.py"] 5 10 400.

Definition quiet_platform (popen : nat -> nat -> PopenResult) (signal : option N) : World :=
  {| sys_executable := "/usr/bin/python3";
     shutdown_at := signal;
     path_exists := fun p _ => inr (negb (String.eqb (str p) "missing.py"));
     subprocess_Popen := popen;
     psutil_Process := fun _ _ => inr tt;
     memory_info_rss := fun _ _ => inr 1048576%Z;
     terminate_raises := fun _ => false;
     kill_raises := fun _ => false |}.

(** Every process is killed (exit code 137) after 2.5 seconds. *)
Definition killed : World :=
  quiet_platform (fun _ n => PopenStarts (100 + n) 2500 137) None.

(** Every process exits with 0 after 2.5 seconds. *)
Definition clean : World :=
  quiet_platform (fun _ n => PopenStarts (100 + n) 2500 0) None.

(** As [killed], with a signal 17.3 seconds after the start: in the backoff
    before the second restart. *)
Definition interrupted : World :=
  quiet_platform (fun _ n => PopenStarts (100 + n) 2500 137) (Some 17300%N).

(** The operating system refuses the launch. *)
Definition refused : World := quiet_platform (fun _ _ => PopenRaises) None.

(** Three files, the second of them missing; the first worker's process
    exits with 0 after 2.5 seconds, the other one is still running when a
    signal arrives after 3 seconds and ends, terminated, 0.1 second later. *)
Definition three_files : MinimalBotRunner :=
  mkRunner ["enze.py"; "missing.py"; "bots/echo.py"] 5 10 400.

Definition signalled : World :=
  quiet_platform
    (fun i _ => match i with
                | 0 => PopenStarts 100 2500 0
                | _ => PopenStarts 200 3100 (-15)
                end)
    (Some 3000%N).

(** A process whose resident memory is 100 MB for a minute and 500 MB
    afterwards. *)
Definition leaking : World :=
  {| sys_executable := "/usr/bin/python3";
     shutdown_at := None;
     path_exists := fun _ _ => inr true;
     subprocess_Popen := fun _ _ => PopenRaises;
     psutil_Process := fun _ _ => inr tt;
     memory_info_rss :=
       fun _ t => inr (if (t <? 60000)%N then 104857600 else 524288000)%Z;
     terminate_raises := fun _ => false;
     kill_raises := fun _ => false |}.




(** Signals cannot be sent to the processes (permission denied):
    [terminate()] and [kill()] raise. *)
Definition untouchable : World :=
  {| sys_executable := "/usr/bin/python3";
     shutdown_at := None;
     path_exists := fun _ _ => inr true;
     subprocess_Popen := fun _ n => PopenStarts (100 + n) 50000 0;
     psutil_Process := fun _ _ => inr tt;
     memory_info_rss := fun _ _ => inr 1048576%Z;
     terminate_raises := fun _ => true;
     kill_raises := fun _ => true |}.

(** A worker that has already restarted three times. *)
Definition third_restart : State := mkState 70000 [] [] 3 3.

End Scenario.

Module ScenarioRuns.

(** The state in which the worker of [Scenario.killed] leaves its loop. *)
Definition given_up : State :=
  Eval vm_compute in
    match run_single_bot Scenario.runner Scenario.killed 0 Scenario.enze (fresh 0) with
    | Done _ s | Raised _ s => s
    | OutOfFuel => fresh 0
    end.

End ScenarioRuns.

(** ** More to state properties with *)

(** The state in which a restart backoff begins: the process has ended with
    a code that calls for a restart, the count is raised and the restart is
    announced. *)
Definition backing_off (self : MinimalBotRunner) (w : World) (file_path : Path)
  (pid : nat) (rt : N) (code : Z) (s : State) : State :=
  log (create_file_logger file_path) WARNING
    (MsgRestart (restart_count s + 1) (RESTART_DELAY self * (restart_count s + 1)))
    (set_restart_count (restart_count s + 1) (ran w file_path pid rt code s)).

(** The ways one turn of the body of [run_single_bot] goes from [s], read off
    its branches. *)
Inductive turn (self : MinimalBotRunner) (w : World) (i : nat) (file_path : Path)
  (s : State) : Flow -> Prop :=
| turn_raises e :
    path_exists w file_path (now s) = inl e ->
    turn self w i file_path s (Raise e s)
| turn_missing :
    path_exists w file_path (now s) = inr false ->
    turn self w i file_path s
      (Break (log MinimalRunner ERROR (MsgFileNotFound file_path) s))
| turn_refused :
    path_exists w file_path (now s) = inr true ->
    subprocess_Popen w i (launches s) = PopenRaises ->
    turn self w i file_path s
      (Break
         (mkState (now s) (current_processes s)
            (output s ++ [Log (create_file_logger file_path) INFO MsgStarting;
                          PopenCall [sys_executable w; str file_path] (parent file_path);
                          Log (create_file_logger file_path) ERROR MsgStartFailed])
            (restart_count s) (S (launches s))))
| turn_completed pid rt :
    path_exists w file_path (now s) = inr true ->
    subprocess_Popen w i (launches s) = PopenStarts pid rt 0 ->
    turn self w i file_path s
      (Break (log (create_file_logger file_path) INFO MsgCompleted
                (ran w file_path pid rt 0 s)))
| turn_manual pid rt code :
    path_exists w file_path (now s) = inr true ->
    subprocess_Popen w i (launches s) = PopenStarts pid rt code ->
    In code manual_termination ->
    turn self w i file_path s
      (Break (log (create_file_logger file_path) INFO MsgManualStop
                (ran w file_path pid rt code s)))
| turn_given_up pid rt code :
    path_exists w file_path (now s) = inr true ->
    subprocess_Popen w i (launches s) = PopenStarts pid rt code ->
    restart_eligible code = true ->
    MAX_RESTARTS self <= restart_count s + 1 ->
    turn self w i file_path s
      (Next (log (create_file_logger file_path) ERROR MsgMaxRestarts
               (set_restart_count (restart_count s + 1) (ran w file_path pid rt code s))))
| turn_restart pid rt code :
    path_exists w file_path (now s) = inr true ->
    subprocess_Popen w i (launches s) = PopenStarts pid rt code ->
    restart_eligible code = true ->
    restart_count s + 1 < MAX_RESTARTS self ->
    (forall j, j < RESTART_DELAY self * (restart_count s + 1) ->
       shutdown_requested w (now s + rt + N.of_nat j * TICKS_PER_SECOND) = false) ->
    turn self w i file_path s
      (Next (sleeps (RESTART_DELAY self * (restart_count s + 1))
               (backing_off self w file_path pid rt code s)))
| turn_interrupted pid rt code k :
    path_exists w file_path (now s) = inr true ->
    subprocess_Popen w i (launches s) = PopenStarts pid rt code ->
    restart_eligible code = true ->
    restart_count s + 1 < MAX_RESTARTS self ->
    k < RESTART_DELAY self * (restart_count s + 1) ->
    shutdown_requested w (now s + rt + N.of_nat k * TICKS_PER_SECOND) = true ->
    turn self w i file_path s
      (Return (sleeps k (backing_off self w file_path pid rt code s))).

(** The lines that the reads of a pump return, in order. *)
Definition lines_read (reads : list (N * ReadResult)) : list string :=
  flat_map (fun r => match snd r with ReadLine line => [line] | ReadRaises => [] end) reads.

(** [if line:] *)
Definition nonempty (line : string) : bool := negb (String.eqb line "").

(** The record [read_stdout] writes for a line that is not empty. *)
Definition stdout_record (file_logger : Logger) (line : string) : Event :=
  Log file_logger INFO (MsgLine (strip line)).

(** The record [read_stderr] writes for a line that is not empty. *)
Definition stderr_record (file_logger : Logger) (line : string) : Event :=
  if is_info_message (strip line) then Log file_logger INFO (MsgLine (strip line))
  else Log file_logger ERROR (MsgAlarm (strip line)).

(** The records for a sequence of lines: one for each line that is not
    empty, in the order of the lines. *)
Definition forwarded (record : string -> Event) (lines : list string) : list Event :=
  map record (filter nonempty lines).

(** A read that returns a line before the process ends and before any
    shutdown request. *)
Definition in_time (w : World) (process : Popen) (r : N * ReadResult) : Prop :=
  (fst r < ends process)%N /\ shutdown_requested w (fst r) = false /\ snd r <> ReadRaises.

(** The condition of the loops that watch a process, at a time: the process
    has not ended and no shutdown is requested. *)
Definition watching (w : World) (process : Popen) (t : N) : bool :=
  match poll process t with None => true | Some _ => false end
  && negb (shutdown_requested w t).

(** The run of a watchdog with its times: from the time of the first test
    of the loop condition, what is emitted, to the time the loop is left.
    Samples are taken 30 seconds apart, each while the process runs and no
    shutdown is requested. *)
Inductive sampled (self : MinimalBotRunner) (w : World) (file_logger : Logger)
  (process : Popen) : N -> list Event -> N -> Prop :=
| sampled_end t :
    watching w process t = false ->
    sampled self w file_logger process t [] t
| sampled_failure t e :
    watching w process t = true ->
    memory_info_rss w (pid process) t = inl e ->
    sampled self w file_logger process t [MemoryInfo (pid process) (inl e)] t
| sampled_over t rss :
    watching w process t = true ->
    memory_info_rss w (pid process) t = inr rss ->
    over_limit self rss = true ->
    sampled self w file_logger process t
      [MemoryInfo (pid process) (inr rss);
       Log file_logger WARNING (MsgHighMemory (inject_Z rss / 1024 / 1024)%Q);
       Terminate (pid process)] t
| sampled_quiet t rss evs t' :
    watching w process t = true ->
    memory_info_rss w (pid process) t = inr rss ->
    over_limit self rss = false ->
    sampled self w file_logger process (t + 30 * TICKS_PER_SECOND) evs t' ->
    sampled self w file_logger process t
      (MemoryInfo (pid process) (inr rss) :: Sleep 30 :: evs) t'.

(** [stop_process], for a process it finds running at [t], goes on to
    [kill()]: the request to terminate raised, or the ten seconds it gives the
    process were not enough. *)
Definition escalates (w : World) (process : Popen) (t : N) : bool :=
  terminate_raises w (pid process)
  || negb (ends process <=? t + 10 * TICKS_PER_SECOND)%N.

(** What [stop_process] does to a process it finds running at [t]: the
    request to terminate and, if that did not raise, ten seconds for it to
    take effect; then, if need be, the kill and, if that did not raise, the
    wait for the end. *)
Definition stop_events (w : World) (process : Popen) (t : N) : list Event :=
  Terminate (pid process)
  :: (if terminate_raises w (pid process) then [] else [WaitTimeout (pid process) 10])
  ++ (if escalates w process t then
        Kill (pid process)
        :: (if kill_raises w (pid process) then [] else [Wait (pid process)])
      else []).

(** The time at which [stop_process] is done with a process it finds running
    at [t]: the end of the process, unless the kill it went on to raised. *)
Definition stopped_at (w : World) (process : Popen) (t : N) : N :=
  if escalates w process t && kill_raises w (pid process) then
    if terminate_raises w (pid process) then t else t + 10 * TICKS_PER_SECOND
  else ends process.

(** The key is the one [Path] gives back: [str(Path(key)) == key]. *)
Definition normalised (key : string) : Prop := str (Path_of_string key) = key.

(** What a watchdog emits for [n] samples under the ceiling, taken from
    [t] on, 30 seconds apart. *)
Fixpoint quiet_samples (w : World) (pid : nat) (t : N) (n : nat) : list Event :=
  match n with
  | 0 => []
  | S n' =>
      MemoryInfo pid (memory_info_rss w pid t) :: Sleep 30
      :: quiet_samples w pid (t + 30 * TICKS_PER_SECOND) n'
  end.

(** The sample taken at [t] is under the ceiling, and the watchdog is
    watching then. *)
Definition quiet_at (self : MinimalBotRunner) (w : World) (process : Popen) (t : N) : Prop :=
  watching w process t = true /\
  exists rss, memory_info_rss w (pid process) t = inr rss /\ over_limit self rss = false.

(** A record that is not a launch. *)
Definition not_launch (e : Event) : Prop :=
  match e with PopenCall _ _ => False | _ => True end.

(** ** The loggers behind [create_file_logger]

    Above, a file logger is the name it logs under.  Here is the state that
    [create_file_logger] works on: the loggers of the [logging] module, which
    [logging.getLogger] keeps by name, and the cache [self.file_loggers]. *)

Module Logging.

(** A [StreamHandler] with the format string of its formatter. *)
Record Handler : Type := mkHandler { format : string }.

Record LoggerObject : Type := mkLoggerObject {
  level : option Level;
  handlers : list Handler;
  propagate : bool
}.

(** A logger as [logging.getLogger] makes it on first use. *)
Definition new_logger : LoggerObject := mkLoggerObject None [] true.

(** [manager]: the loggers of the [logging] module by name.
    [file_loggers]: [self.file_loggers]; a logger object is identified by
    its name, there being one object for each name. *)
Record Loggers : Type := mkLoggers {
  manager : list (string * LoggerObject);
  file_loggers : list (string * string)
}.

Definition getLogger (name : string) (m : list (string * LoggerObject)) : LoggerObject :=
  match Dict.get name m with
  | Some l => l
  | None => new_logger
  end.

Definition formatter (file_name : string) : string :=
  "%(asctime)s - [" ++ file_name ++ "] %(message)s".

Definition logger_name (file_path : Path) : string := "Bot_" ++ stem file_path.

(** [create_file_logger]: the logger returned (by name) and the state left. *)
Definition create_file_logger (file_path : Path) (st : Loggers) : string * Loggers :=
  let file_name := stem file_path in
  let logger_name := "Bot_" ++ file_name in
  match Dict.get logger_name (file_loggers st) with
  | Some file_logger => (file_logger, st)
  | None =>
      let file_logger := getLogger logger_name (manager st) in
      let file_logger :=
        mkLoggerObject (Some INFO) (handlers file_logger) (propagate file_logger) in
      let console_handler := mkHandler (formatter file_name) in
      let file_logger :=
        mkLoggerObject (level file_logger) (handlers file_logger ++ [console_handler])
          (propagate file_logger) in
      let file_logger :=
        mkLoggerObject (level file_logger) (handlers file_logger) false in
      (logger_name,
       mkLoggers (Dict.set logger_name file_logger (manager st))
                 (Dict.set logger_name logger_name (file_loggers st)))
  end.

(** The state after a sequence of calls. *)
Definition after_calls (calls : list Path) (st : Loggers) : Loggers :=
  fold_left (fun st file_path => snd (create_file_logger file_path st)) calls st.

(** The name a logger of the worker model logs under. *)
Definition name_of (l : Logger) : string :=
  match l with
  | MinimalRunner => "MinimalRunner"
  | Bot file_name => "Bot_" ++ file_name
  end.

(** The cache is sound: a cached logger is cached under its own name and has
    the level, the one handler and the flag [create_file_logger] gives it;
    and a logger that is not cached has no handler yet. *)
Definition sound (st : Loggers) : Prop :=
  (forall name l,
     Dict.get name (file_loggers st) = Some l ->
     l = name /\
     exists file_name,
       name = "Bot_" ++ file_name /\
       Dict.get name (manager st)
       = Some (mkLoggerObject (Some INFO) [mkHandler (formatter file_name)] false)) /\
  (forall name,
     Dict.get name (file_loggers st) = None ->
     handlers (getLogger name (manager st)) = []).

End Logging.

(** * Properties *)

(** ** The model at work *)

Example lower_ex : Text.lower "Successfully Connected" = "successfully connected".
Proof. reflexivity. Qed.

Example strip_ex : Text.strip "  a b 	" = "a b".
Proof. reflexivity. Qed.

Example stem_ex :
  map PathOps.stem
    [mkPath "" ["enze.py"]; mkPath "" ["bots"; "a.tar.gz"];
     mkPath "/" [".bashrc"]; mkPath "" ["a."]; mkPath "" []]
  = ["enze"; "a.tar"; ".bashrc"; "a."; ""].
Proof. reflexivity. Qed.

Example str_ex :
  map PathOps.str
    [mkPath "" ["enze.py"]; mkPath "" ["bots"; "a.py"]; mkPath "/" ["x"; "y"];
     PathOps.parent (mkPath "" ["enze.py"]); PathOps.parent (mkPath "/" ["x"]);
     mkPath "//" ["x"; "y"]; PathOps.parent (mkPath "//" ["x"])]
  = ["enze.py"; "bots/a.py"; "/x/y"; "."; "/"; "//x/y"; "//"].
Proof. reflexivity. Qed.

Example init_ex : init ["enze.py"] = Some Scenario.runner /\ init [] = None.
Proof. split; reflexivity. Qed.

Example is_info_message_ex :
  map is_info_message
    ["Successfully connected"; "Traceback (most recent call last):"; "INFO:root:up";
     "KeyError: 'token'"; ""]
  = [true; false; true; false; false].
Proof. reflexivity. Qed.

Example read_stderr_ex :
  output
    (read_stderr Scenario.clean Scenario.enze (mkPopen 7 0 50000 0)
       [(5%N, ReadLine "Successfully connected
");
        (6%N, ReadLine "Traceback (most recent call last):
");
        (7%N, ReadLine "");
        (8%N, ReadRaises);
        (9%N, ReadLine "never read")]
       (fresh 0))
  = [Log (Bot "enze") INFO (MsgLine "Successfully connected");
     Log (Bot "enze") ERROR (MsgAlarm "Traceback (most recent call last):")].
Proof. reflexivity. Qed.

Example memory_check_ex :
  memory_check Scenario.runner Scenario.leaking Scenario.enze (mkPopen 7 0 200000 0)
    (fresh 0)
  = Done tt
      (mkState 60000 []
         [MemoryInfo 7 (inr 104857600%Z); Sleep 30;
          MemoryInfo 7 (inr 104857600%Z); Sleep 30;
          MemoryInfo 7 (inr 524288000%Z);
          Log (Bot "enze") WARNING (MsgHighMemory (524288000 # 1048576));
          Terminate 7]
         0 0).
Proof. vm_compute. reflexivity. Qed.

Example killed_worker_ex :
  flat_map (fun e => match e with
                     | Log _ WARNING m | Log _ ERROR m => [m]
                     | _ => []
                     end)
    (output ScenarioRuns.given_up)
  = [MsgRestart 1 10; MsgRestart 2 20; MsgRestart 3 30; MsgRestart 4 40; MsgMaxRestarts]
  /\ now ScenarioRuns.given_up = 112500%N.
Proof. split; reflexivity. Qed.

Example run_signalled_ex :
  exists s,
    run Scenario.three_files Scenario.signalled (fresh 0) = Done tt s /\
    now s = 3100%N /\
    current_processes s = [("enze.py", mkPopen 100 0 2500 0)] /\
    output s
    = [Log MinimalRunner INFO MsgStartingAll;
       Log MinimalRunner INFO (MsgValid (mkPath "" ["enze.py"]));
       Log MinimalRunner ERROR (MsgNotFound (mkPath "" ["missing.py"]));
       Log MinimalRunner INFO (MsgValid (mkPath "" ["bots"; "echo.py"]));
       Submit (mkPath "" ["enze.py"]);
       Submit (mkPath "" ["bots"; "echo.py"]);
       Log (Bot "enze") INFO MsgStarting;
       PopenCall ["/usr/bin/python3"; "enze.py"] (mkPath "" []);
       Log (Bot "enze") INFO (MsgStarted 100);
       ThreadStart ReadStdout 100; ThreadStart ReadStderr 100;
       ThreadStart MemoryCheck 100; Wait 100;
       Log (Bot "enze") INFO (MsgEnded 0 2500);
       Log (Bot "enze") INFO MsgCompleted;
       Log (Bot "echo") INFO MsgStarting;
       PopenCall ["/usr/bin/python3"; "bots/echo.py"] (mkPath "" ["bots"]);
       Log (Bot "echo") INFO (MsgStarted 200);
       ThreadStart ReadStdout 200; ThreadStart ReadStderr 200;
       ThreadStart MemoryCheck 200; Wait 200;
       Log (Bot "echo") INFO (MsgEnded (-15) 3100);
       Log (Bot "echo") INFO MsgManualStop;
       Log MinimalRunner INFO MsgShuttingDown;
       Terminate 200; WaitTimeout 200 10;
       ExecutorShutdown].
Proof. eexists. split; [vm_compute; reflexivity|]. repeat split. Qed.

Example Path_of_string_ex :
  map PathParse.Path_of_string
    ["enze.py"; "./bots//a.py"; "/x/y/"; "."; ""; "/"; "//x/y"; "///x"; "//"]
  = [mkPath "" ["enze.py"]; mkPath "" ["bots"; "a.py"]; mkPath "/" ["x"; "y"];
     mkPath "" []; mkPath "" []; mkPath "/" [];
     mkPath "//" ["x"; "y"]; mkPath "/" ["x"]; mkPath "//" []].
Proof. reflexivity. Qed.

(** ** Text *)

Module TextFacts.
Import Text.

Lemma prefix_app (k s : string) :
  prefix k s = true <-> exists post, s = k ++ post.
Proof.
  revert s; induction k as [|c k IH]; intros s.
  - split; [intros _; now exists s | intros _; destruct s; reflexivity].
  - destruct s as [|c' s]; simpl.
    + split; [discriminate | intros [post H]; discriminate].
    + destruct (ascii_dec c c') as [->|Hne].
      * rewrite IH. split; intros [post H]; exists post; congruence.
      * split; [discriminate | intros [post H]; congruence].
Qed.

Lemma contains_Substring (k s : string) :
  contains k s = true <-> Substring k s.
Proof.
  split.
  - induction s as [|c s IH]; cbn [contains]; intros H.
    + rewrite orb_false_r in H. apply prefix_app in H as [post H].
      now exists "", post.
    + apply orb_true_iff in H as [H|H].
      * apply prefix_app in H as [post H]. now exists "", post.
      * destruct (IH H) as (pre & post & ->). now exists (String c pre), post.
  - intros (pre & post & ->). induction pre as [|c pre IH].
    + assert (H : prefix k (k ++ post) = true) by (apply prefix_app; now exists post).
      change ("" ++ k ++ post) with (k ++ post).
      destruct (k ++ post); cbn [contains]; rewrite H; reflexivity.
    + change (String c pre ++ k ++ post) with (String c (pre ++ k ++ post)).
      cbn [contains]. rewrite IH. apply orb_true_r.
Qed.

Lemma append_assoc (a b c : string) : (a ++ b) ++ c = a ++ b ++ c.
Proof. induction a; simpl; congruence. Qed.

Lemma append_empty_r (a : string) : a ++ "" = a.
Proof. induction a; simpl; congruence. Qed.

Lemma Substring_trans (a b c : string) : Substring a b -> Substring b c -> Substring a c.
Proof.
  intros (p1 & q1 & ->) (p2 & q2 & ->).
  exists (p2 ++ p1), (q1 ++ q2). now rewrite !append_assoc.
Qed.

Lemma lower_app (a b : string) : lower (a ++ b) = lower a ++ lower b.
Proof. induction a; simpl; congruence. Qed.

Lemma lower_Substring (k s : string) : Substring k s -> Substring (lower k) (lower s).
Proof.
  intros (pre & post & ->). exists (lower pre), (lower post).
  now rewrite !lower_app.
Qed.

(** Stripping takes a piece off each end. *)
Lemma lstrip_suffix (s : string) : exists a, s = a ++ lstrip s.
Proof.
  induction s as [|c s [a IH]]; simpl.
  - now exists "".
  - destruct (isspace c).
    + exists (String c a). simpl. congruence.
    + now exists "".
Qed.

Lemma rstrip_prefix (s : string) : exists b, s = rstrip s ++ b.
Proof.
  induction s as [|c s [b IH]]; simpl.
  - now exists "".
  - destruct (rstrip s) as [|c' r] eqn:E.
    + destruct (isspace c).
      * exists (String c s). reflexivity.
      * exists s. simpl. simpl in IH. congruence.
    + exists b. simpl. simpl in IH. congruence.
Qed.

Lemma strip_Substring (s : string) : Substring (strip s) s.
Proof.
  unfold strip. destruct (lstrip_suffix s) as [a Ha], (rstrip_prefix (lstrip s)) as [b Hb].
  exists a, b. congruence.
Qed.

(** A piece that begins and ends with a character that is not white space
    survives stripping. *)
Lemma lstrip_keeps (pre rest : string) (c : ascii) :
  isspace c = false ->
  exists pre', lstrip (pre ++ String c rest) = pre' ++ String c rest.
Proof.
  intros Hc. induction pre as [|a pre [pre' IH]]; simpl.
  - rewrite Hc. now exists "".
  - destruct (isspace a).
    + now exists pre'.
    + now exists (String a pre).
Qed.

Lemma rstrip_nonspace (c : ascii) (post : string) :
  isspace c = false -> exists post', rstrip (String c post) = String c post'.
Proof.
  intros Hc. simpl. destruct (rstrip post) as [|c' r].
  - rewrite Hc. now exists "".
  - now exists (String c' r).
Qed.

Lemma rstrip_app (x y : string) :
  rstrip y <> "" -> rstrip (x ++ y) = x ++ rstrip y.
Proof.
  intros Hy. induction x as [|a x IH]; simpl; [reflexivity|].
  rewrite IH. destruct (x ++ rstrip y) as [|c' r] eqn:E; [|reflexivity].
  destruct x; simpl in E; [contradiction | discriminate].
Qed.

Lemma rstrip_keeps (x : string) (c : ascii) (post : string) :
  isspace c = false ->
  exists post', rstrip (x ++ String c post) = x ++ String c post'.
Proof.
  intros Hc. destruct (rstrip_nonspace c post Hc) as [post' E].
  exists post'. rewrite rstrip_app; rewrite E; [reflexivity | discriminate].
Qed.

Lemma strip_keeps (a : ascii) (mid : string) (b : ascii) (s : string) :
  isspace a = false -> isspace b = false ->
  Substring (String a (mid ++ String b "")) s ->
  Substring (String a (mid ++ String b "")) (strip s).
Proof.
  intros Ha Hb (pre & post & ->). unfold strip.
  assert (Hmid : (mid ++ String b "") ++ post = mid ++ String b post)
    by (rewrite append_assoc; reflexivity).
  change (pre ++ String a (mid ++ String b "") ++ post)
    with (pre ++ String a ((mid ++ String b "") ++ post)).
  rewrite Hmid.
  destruct (lstrip_keeps pre (mid ++ String b post) a Ha) as [pre' E].
  rewrite E.
  destruct (rstrip_keeps (pre' ++ String a mid) b post Hb) as [post' E'].
  assert (Hre : pre' ++ String a (mid ++ String b post)
                = (pre' ++ String a mid) ++ String b post)
    by (rewrite append_assoc; reflexivity).
  rewrite Hre, E'. exists pre', post'.
  rewrite append_assoc. change (String a mid ++ String b post')
    with (String a (mid ++ String b post')).
  change (String a (mid ++ String b "") ++ post')
    with (String a ((mid ++ String b "") ++ post')).
  rewrite (append_assoc mid). reflexivity.
Qed.

(** Lower case and stripping commute: no letter is or becomes white space. *)
Lemma isspace_lower_char (c : ascii) : isspace (lower_char c) = isspace c.
Proof. destruct c as [[] [] [] [] [] [] [] []]; reflexivity. Qed.

Lemma lower_lstrip (s : string) : lower (lstrip s) = lstrip (lower s).
Proof.
  induction s as [|c s IH]; cbn [lstrip lower]; [reflexivity|].
  rewrite isspace_lower_char. now destruct (isspace c).
Qed.

Lemma lower_rstrip (s : string) : lower (rstrip s) = rstrip (lower s).
Proof.
  induction s as [|c s IH]; cbn [rstrip lower]; [reflexivity|].
  rewrite <- IH, isspace_lower_char.
  destruct (rstrip s); cbn [lower]; [now destruct (isspace c) | reflexivity].
Qed.

Lemma lower_strip (s : string) : lower (strip s) = strip (lower s).
Proof. unfold strip. now rewrite lower_rstrip, lower_lstrip. Qed.

End TextFacts.

(** A keyword found in a line is found in the stripped line as well. *)
Lemma keyword_survives_strip (keyword s : string) :
  In keyword info_keywords ->
  Text.Substring keyword s -> Text.Substring keyword (Text.strip s).
Proof.
  intros Hk H. cbn in Hk.
  destruct Hk as [<-|[<-|[<-|[<-|[<-|[<-|[<-|[<-|[]]]]]]]]].
  - now apply (TextFacts.strip_keeps "i" "nf" "o").
  - now apply (TextFacts.strip_keeps "d" "ebu" "g").
  - now apply (TextFacts.strip_keeps "s" "uccessfull" "y").
  - now apply (TextFacts.strip_keeps "s" "tarte" "d").
  - now apply (TextFacts.strip_keeps "i" "nitialize" "d").
  - now apply (TextFacts.strip_keeps "c" "onnecte" "d").
  - now apply (TextFacts.strip_keeps "p" "ollin" "g").
  - now apply (TextFacts.strip_keeps "r" "unnin" "g").
Qed.

Lemma is_info_message_iff (message : string) :
  is_info_message message = true <->
  exists keyword, In keyword info_keywords /\ Text.Substring keyword (Text.lower message).
Proof.
  unfold is_info_message, Text.any. rewrite existsb_exists.
  split; intros (k & Hk & H); exists k; split; trivial;
    now apply TextFacts.contains_Substring.
Qed.

(** ** The worker *)

Section Worker.
Variables (self : MinimalBotRunner) (w : World) (i : nat) (file_path : Path).

Lemma start_process_missing (s : State) :
  path_exists w file_path (now s) = inr false ->
  start_process w i file_path s
  = (inr None, log MinimalRunner ERROR (MsgFileNotFound file_path) s).
Proof. intros H. unfold start_process. now rewrite H. Qed.

Lemma start_process_raises (s : State) :
  path_exists w file_path (now s) = inr true ->
  subprocess_Popen w i (launches s) = PopenRaises ->
  start_process w i file_path s
  = (inr None,
     mkState (now s) (current_processes s)
       (output s ++ [Log (create_file_logger file_path) INFO MsgStarting;
                     PopenCall [sys_executable w; str file_path] (parent file_path);
                     Log (create_file_logger file_path) ERROR MsgStartFailed])
       (restart_count s) (S (launches s))).
Proof.
  intros He Hp. unfold start_process. rewrite He. cbn. rewrite Hp.
  unfold log, emit. cbn. now rewrite <- !app_assoc.
Qed.

Lemma start_process_fails (s : State) (e : Exn) :
  path_exists w file_path (now s) = inl e ->
  start_process w i file_path s = (inl e, s).
Proof. intros H. unfold start_process. now rewrite H. Qed.

Lemma start_process_starts (s : State) (pid : nat) (rt : N) (code : Z) :
  path_exists w file_path (now s) = inr true ->
  subprocess_Popen w i (launches s) = PopenStarts pid rt code ->
  start_process w i file_path s
  = (inr (Some (mkPopen pid (now s) rt code)),
     mkState (now s) (current_processes s)
       (output s ++ [Log (create_file_logger file_path) INFO MsgStarting;
                     PopenCall [sys_executable w; str file_path] (parent file_path);
                     Log (create_file_logger file_path) INFO (MsgStarted pid)])
       (restart_count s) (S (launches s))).
Proof.
  intros He Hp. unfold start_process. rewrite He. cbn. rewrite Hp.
  unfold log, emit. cbn. now rewrite <- !app_assoc.
Qed.

(** The body after a successful launch: the exit code decides. *)
Lemma loop_body_launched (s : State) (pid : nat) (rt : N) (code : Z) :
  path_exists w file_path (now s) = inr true ->
  subprocess_Popen w i (launches s) = PopenStarts pid rt code ->
  loop_body self w i file_path s
  = let s1 := ran w file_path pid rt code s in
    let file_logger := create_file_logger file_path in
    if (code =? 0)%Z then Break (log file_logger INFO MsgCompleted s1)
    else if existsb (Z.eqb code) manual_termination
         then Break (log file_logger INFO MsgManualStop s1)
         else
           let s2 := set_restart_count (restart_count s + 1) s1 in
           if restart_count s + 1 <? MAX_RESTARTS self then
             backoff w (RESTART_DELAY self * (restart_count s + 1))
               (log file_logger WARNING
                  (MsgRestart (restart_count s + 1)
                     (RESTART_DELAY self * (restart_count s + 1))) s2)
           else Next (log file_logger ERROR MsgMaxRestarts s2).
Proof.
  intros He Hp. unfold loop_body. rewrite (start_process_starts s pid rt code He Hp).
  cbn -[manual_termination Z.eqb existsb Nat.ltb Nat.mul backoff].
  set (process := mkPopen pid (now s) rt code).
  assert (Hmax : N.max (now s) (ends process) = (now s + rt)%N)
    by (unfold ends; cbn; lia).
  assert (Hrt : (now s + rt - now s)%N = rt) by lia.
  rewrite Hmax, Hrt.
  match goal with
  | |- context [log _ INFO (MsgEnded code rt) ?x] =>
      assert (Hran : log (create_file_logger file_path) INFO (MsgEnded code rt) x
                     = ran w file_path pid rt code s)
  end.
  { unfold ran, log, emit, at_time, monitor_memory, monitor_output, register, emit,
      launch_events. cbn. f_equal. now rewrite <- !app_assoc. }
  rewrite Hran. reflexivity.
Qed.

End Worker.

Section Backoff.
Variable (w : World).

Lemma sleeps_0 (s : State) : sleeps 0 s = s.
Proof.
  destruct s. unfold sleeps. cbn. f_equal; [lia | apply app_nil_r].
Qed.

Lemma sleeps_S (k : nat) (s : State) : sleeps k (sleep 1 s) = sleeps (S k) s.
Proof.
  unfold sleeps, sleep, at_time, emit, TICKS_PER_SECOND. cbn [now current_processes output restart_count launches].
  f_equal; [lia|]. now rewrite <- app_assoc.
Qed.

Lemma backoff_runs (d : nat) (s : State) :
  (forall j, j < d ->
     shutdown_requested w (now s + N.of_nat j * TICKS_PER_SECOND) = false) ->
  backoff w d s = Next (sleeps d s).
Proof.
  revert s. induction d as [|d IH]; intros s H; cbn [backoff].
  - now rewrite sleeps_0.
  - assert (H0 : shutdown_requested w (now s) = false).
    { specialize (H 0 ltac:(lia)). now replace (now s + N.of_nat 0 * TICKS_PER_SECOND)%N
        with (now s) in H by lia. }
    rewrite H0, IH, sleeps_S; [reflexivity|].
    intros j Hj. specialize (H (S j) ltac:(lia)).
    replace (now (sleep 1 s) + N.of_nat j * TICKS_PER_SECOND)%N
      with (now s + N.of_nat (S j) * TICKS_PER_SECOND)%N; [assumption|].
    unfold sleep, at_time, TICKS_PER_SECOND. cbn [now]. lia.
Qed.

Lemma backoff_interrupted (d k : nat) (s : State) :
  k < d ->
  (forall j, j < k ->
     shutdown_requested w (now s + N.of_nat j * TICKS_PER_SECOND) = false) ->
  shutdown_requested w (now s + N.of_nat k * TICKS_PER_SECOND) = true ->
  backoff w d s = Return (sleeps k s).
Proof.
  revert k s. induction d as [|d IH]; intros k s Hk Hbefore Hat; [lia|].
  cbn [backoff]. destruct k as [|k].
  - replace (now s + N.of_nat 0 * TICKS_PER_SECOND)%N with (now s) in Hat by lia.
    now rewrite Hat, sleeps_0.
  - assert (H0 : shutdown_requested w (now s) = false).
    { specialize (Hbefore 0 ltac:(lia)).
      now replace (now s + N.of_nat 0 * TICKS_PER_SECOND)%N with (now s) in Hbefore by lia. }
    assert (Hnow : forall j, (now (sleep 1 s) + N.of_nat j * TICKS_PER_SECOND
                              = now s + N.of_nat (S j) * TICKS_PER_SECOND)%N).
    { intros j. unfold sleep, at_time, TICKS_PER_SECOND. cbn [now]. lia. }
    rewrite H0, (IH k), sleeps_S; [reflexivity | lia | |].
    + intros j Hj. rewrite Hnow. apply Hbefore. lia.
    + now rewrite Hnow.
Qed.

(** Whatever happens, the backoff only sleeps: it leaves the state after
    some number of one-second sleeps, at most [d]. *)
Lemma backoff_sleeps (d : nat) (s : State) :
  exists k, k <= d /\ flow_state (backoff w d s) = sleeps k s.
Proof.
  revert s. induction d as [|d IH]; intros s; cbn [backoff].
  - exists 0. rewrite sleeps_0. split; [lia | reflexivity].
  - destruct (shutdown_requested w (now s)).
    + exists 0. rewrite sleeps_0. split; [lia | reflexivity].
    + destruct (IH (sleep 1 s)) as (k & Hk & E). exists (S k).
      rewrite E, sleeps_S. split; [lia | reflexivity].
Qed.

Lemma backoff_no_raise (d : nat) (s s' : State) (e : Exn) : backoff w d s <> Raise e s'.
Proof.
  revert s. induction d as [|d IH]; intros s; cbn [backoff]; [discriminate|].
  destruct (shutdown_requested w (now s)); [discriminate | apply IH].
Qed.

Lemma no_shutdown_requested (t : N) : shutdown_at w = None -> shutdown_requested w t = false.
Proof. unfold shutdown_requested. now intros ->. Qed.

End Backoff.

Section Loop.
Variables (self : MinimalBotRunner) (w : World) (i : nat) (file_path : Path).

Lemma while_loop_step (fuel : nat) (s : State) :
  while_loop (S fuel) self w i file_path s
  = match step self w i file_path (Looping s) with
    | Some (Looping s') => while_loop fuel self w i file_path s'
    | Some (Stopped s') => Done tt s'
    | Some (Crashed e s') => Raised e s'
    | None => OutOfFuel
    end.
Proof.
  cbn [while_loop step]. destruct (loop_cond self w s); [|reflexivity].
  now destruct (loop_body self w i file_path s).
Qed.

Lemma loop_cond_true (s : State) :
  loop_cond self w s = true <->
  shutdown_requested w (now s) = false /\ restart_count s < MAX_RESTARTS self.
Proof.
  unfold loop_cond. rewrite andb_true_iff, negb_true_iff, Nat.ltb_lt. tauto.
Qed.

(** The loop goes through the steps of the transition system. *)
Lemma while_loop_reaches (fuel : nat) :
  forall s s',
    while_loop fuel self w i file_path s = Done tt s' ->
    reaches self w i file_path (Looping s) (Stopped s').
Proof.
  induction fuel as [|fuel IH]; intros s s'; [discriminate|].
  rewrite while_loop_step.
  destruct (step self w i file_path (Looping s)) as [[s1|s1|e s1]|] eqn:E;
    [| |discriminate|discriminate].
  - intros H. apply (reaches_step _ _ _ _ _ _ _ E). now apply IH.
  - intros [= <-]. apply (reaches_step _ _ _ _ _ _ _ E). apply reaches_refl.
Qed.

Lemma while_loop_crashes (fuel : nat) :
  forall s s' e,
    while_loop fuel self w i file_path s = Raised e s' ->
    reaches self w i file_path (Looping s) (Crashed e s').
Proof.
  induction fuel as [|fuel IH]; intros s s' e; [discriminate|].
  rewrite while_loop_step.
  destruct (step self w i file_path (Looping s)) as [[s1|s1|e1 s1]|] eqn:E;
    [|discriminate| |discriminate].
  - intros H. apply (reaches_step _ _ _ _ _ _ _ E). now apply IH.
  - intros [= <- <-]. apply (reaches_step _ _ _ _ _ _ _ E). apply reaches_refl.
Qed.

End Loop.

Section RestartCount.
Variables (self : MinimalBotRunner) (w : World) (i : nat) (file_path : Path).

(** A turn of the body leaves [restart_count] as it is or adds one. *)
Lemma loop_body_restart_count (s : State) :
  restart_count (flow_state (loop_body self w i file_path s)) = restart_count s \/
  restart_count (flow_state (loop_body self w i file_path s)) = restart_count s + 1.
Proof.
  destruct (path_exists w file_path (now s)) as [e|[|]] eqn:He.
  - unfold loop_body. rewrite (start_process_fails w i file_path s e He). now left.
  - destruct (subprocess_Popen w i (launches s)) as [|pid rt code] eqn:Hp.
    + unfold loop_body. rewrite (start_process_raises w i file_path s He Hp). now left.
    + rewrite (loop_body_launched self w i file_path s pid rt code He Hp). cbn zeta.
      destruct (code =? 0)%Z; [now left|].
      destruct (existsb (Z.eqb code) manual_termination); [now left|].
      destruct (restart_count s + 1 <? MAX_RESTARTS self); [|now right].
      match goal with |- context [backoff w ?d ?x] =>
        destruct (backoff_sleeps w d x) as (k & _ & E) end.
      rewrite E. now right.
  - unfold loop_body. rewrite (start_process_missing w i file_path s He). now left.
Qed.

Lemma step_restart_count (c c' : Config) :
  restart_count (state_of c) <= MAX_RESTARTS self ->
  step self w i file_path c = Some c' ->
  restart_count (state_of c') <= MAX_RESTARTS self.
Proof.
  destruct c as [s|s|e s]; cbn [step state_of]; [|discriminate|discriminate].
  intros Hle. destruct (loop_cond self w s) eqn:Hc.
  - apply loop_cond_true in Hc as [_ Hlt].
    pose proof (loop_body_restart_count s) as Hb.
    destruct (loop_body self w i file_path s) as [s1|s1|s1|e s1]; cbn [flow_state] in Hb;
      intros [= <-]; cbn [state_of]; lia.
  - intros [= <-]. exact Hle.
Qed.

Lemma reaches_restart_count (c c' : Config) :
  reaches self w i file_path c c' ->
  restart_count (state_of c) <= MAX_RESTARTS self ->
  restart_count (state_of c') <= MAX_RESTARTS self.
Proof.
  induction 1 as [c|c c' c'' Hstep _ IH]; intros Hle; [exact Hle|].
  apply IH. exact (step_restart_count c c' Hle Hstep).
Qed.

Lemma reaches_stopped (s : State) (c : Config) :
  reaches self w i file_path (Stopped s) c -> c = Stopped s.
Proof. inversion 1; [reflexivity | discriminate]. Qed.

Lemma reaches_exhausted (c c' : Config) :
  restart_count (state_of c) = MAX_RESTARTS self ->
  reaches self w i file_path c c' ->
  c' = c \/ c' = Stopped (state_of c).
Proof.
  intros Hmax Hr. inversion Hr as [|c0 c1 c2 Hstep Hrest]; subst; [now left|].
  destruct c as [s|s|e s]; cbn [step state_of] in *; [|discriminate|discriminate].
  assert (Hc : loop_cond self w s = false).
  { unfold loop_cond. rewrite Hmax, Nat.ltb_irrefl. apply andb_false_r. }
  rewrite Hc in Hstep. injection Hstep as <-.
  right. now apply reaches_stopped.
Qed.

End RestartCount.

Lemma slept_before_launches_sleeps (a k : nat) (evs : list Event) :
  slept_before_launches a (repeat (Sleep 1) k ++ evs) = slept_before_launches (a + k) evs.
Proof.
  revert a. induction k as [|k IH]; intros a; cbn.
  - now rewrite Nat.add_0_r.
  - rewrite IH. f_equal. lia.
Qed.

Section FailingWorker.
Variables (self : MinimalBotRunner) (w : World) (i : nat) (file_path : Path).
Hypothesis no_signal : shutdown_at w = None.
Hypothesis file_there : forall t, path_exists w file_path t = inr true.
Hypothesis always_fails :
  forall n, exists pid rt code,
    subprocess_Popen w i n = PopenStarts pid rt code /\ restart_eligible code = true.

(** From a state with [m] restart counts left, the worker launches [m] times,
    sleeps [RESTART_DELAY * k] seconds before the launch that follows the k-th
    failure, and gives up at the failure that makes the count full. *)
Lemma failing_worker (m : nat) :
  forall s,
    0 < m -> restart_count s + m = MAX_RESTARTS self ->
    exists s' evs,
      while_loop (S m) self w i file_path s = Done tt s' /\
      output s' = (output s ++ evs)%list /\
      restart_count s' = MAX_RESTARTS self /\
      launches s' = launches s + m /\
      (forall a, slept_before_launches a evs
                 = a :: map (fun k => RESTART_DELAY self * k)
                            (seq (restart_count s + 1) (m - 1))) /\
      exists evs0,
        evs = (evs0 ++ [Log (create_file_logger file_path) ERROR MsgMaxRestarts])%list.
Proof.
  induction m as [|m IH]; intros s Hm Hsum; [lia|].
  assert (Hc : loop_cond self w s = true).
  { apply loop_cond_true. split; [now apply no_shutdown_requested | lia]. }
  destruct (always_fails (launches s)) as (pid & rt & code & Hp & Hcode).
  pose proof (loop_body_launched self w i file_path s pid rt code (file_there _) Hp) as Hb.
  unfold restart_eligible in Hcode. apply andb_true_iff in Hcode as [Hz Hman].
  apply negb_true_iff in Hz, Hman. cbn zeta in Hb. rewrite Hz, Hman in Hb.
  cbn [while_loop]. rewrite Hc.
  destruct m as [|m].
  - assert (Hlt : (restart_count s + 1 <? MAX_RESTARTS self) = false)
      by (apply Nat.ltb_ge; lia).
    rewrite Hlt in Hb. rewrite Hb. cbn [while_loop].
    match goal with |- context [loop_cond self w ?x] =>
      assert (Hc' : loop_cond self w x = false) end.
    { unfold loop_cond. cbn [restart_count log emit set_restart_count].
      rewrite Hlt. apply andb_false_r. }
    rewrite Hc'. eexists. eexists. split; [reflexivity|].
    split; [|split; [|split; [|split]]].
    + cbn. rewrite <- !app_assoc. reflexivity.
    + cbn. lia.
    + cbn. lia.
    + intros a. reflexivity.
    + eexists (launch_events w file_path pid ++ [_])%list.
      rewrite <- app_assoc. reflexivity.
  - assert (Hlt : (restart_count s + 1 <? MAX_RESTARTS self) = true)
      by (apply Nat.ltb_lt; lia).
    rewrite Hlt in Hb. rewrite Hb.
    rewrite backoff_runs by (intros j _; now apply no_shutdown_requested).
    match goal with |- context [sleeps ?d ?x] => set (s3 := sleeps d x) end.
    destruct (IH s3) as (s' & evs & Hrun & Hout & Hcount & Hlaunch & Hdelays & evs0 & Hlast);
      [lia | cbn; lia |].
    exists s'. eexists. split; [exact Hrun|].
    split; [|split; [exact Hcount | split; [|split]]].
    + rewrite Hout. cbn. rewrite <- !app_assoc. reflexivity.
    + rewrite Hlaunch. cbn. lia.
    + intros a. cbn -[slept_before_launches Nat.mul seq].
      cbn [slept_before_launches launch_events app create_file_logger].
      rewrite slept_before_launches_sleeps, Hdelays.
      cbn [restart_count s3 sleeps log emit set_restart_count].
      replace (S (S m) - 1) with (S m) by lia.
      replace (S m - 1) with m by lia.
      cbn [seq map]. rewrite Nat.add_0_l.
      replace (restart_count s + 1 + 1) with (S (restart_count s + 1)) by lia.
      reflexivity.
    + rewrite Hlast.
      exists (launch_events w file_path pid
                ++ [Log (create_file_logger file_path) INFO (MsgEnded code rt);
                    Log (create_file_logger file_path) WARNING
                      (MsgRestart (restart_count s + 1)
                         (RESTART_DELAY self * (restart_count s + 1)))]
                ++ repeat (Sleep 1) (RESTART_DELAY self * (restart_count s + 1))
                ++ evs0)%list.
      rewrite <- !app_assoc. reflexivity.
Qed.

End FailingWorker.

(** ** The dictionary *)

Module DictFacts.
Section DictFacts.
Context {V : Type}.
Implicit Types (d : list (string * V)) (k : string) (v : V).

Lemma get_set k k' v d :
  Dict.get k (Dict.set k' v d) = if String.eqb k k' then Some v else Dict.get k d.
Proof.
  induction d as [|[k0 v0] d IH]; cbn.
  - reflexivity.
  - destruct (String.eqb_spec k' k0) as [->|Hne]; cbn.
    + destruct (String.eqb k k0); reflexivity.
    + rewrite IH. destruct (String.eqb_spec k k0) as [->|Hne'].
      * destruct (String.eqb_spec k0 k') as [->|_]; [contradiction|reflexivity].
      * reflexivity.
Qed.

Lemma get_del k k' d :
  Dict.get k (Dict.del k' d) = if String.eqb k k' then None else Dict.get k d.
Proof.
  induction d as [|[k0 v0] d IH]; cbn.
  - now destruct (String.eqb k k').
  - destruct (String.eqb_spec k' k0) as [->|Hne]; cbn.
    + rewrite IH. destruct (String.eqb k k0); reflexivity.
    + rewrite IH. destruct (String.eqb_spec k k0) as [->|Hne'].
      * destruct (String.eqb_spec k0 k') as [->|_]; [contradiction|reflexivity].
      * reflexivity.
Qed.

Lemma get_del_Some k k' d v :
  Dict.get k (Dict.del k' d) = Some v -> Dict.get k d = Some v.
Proof. rewrite get_del. destruct (String.eqb k k'); [discriminate | trivial]. Qed.

Lemma get_set_Some k k' v v' d :
  Dict.get k (Dict.set k' v' d) = Some v -> v = v' \/ Dict.get k d = Some v.
Proof.
  rewrite get_set. destruct (String.eqb k k'); [intros [= ->]; now left | now right].
Qed.

Lemma get_set_present k k' v d :
  Dict.get k d <> None -> Dict.get k (Dict.set k' v d) <> None.
Proof. rewrite get_set. destruct (String.eqb k k'); [discriminate | trivial]. Qed.

Lemma get_set_same k v d : Dict.get k (Dict.set k v d) = Some v.
Proof. now rewrite get_set, String.eqb_refl. Qed.

End DictFacts.
End DictFacts.

(** ** Every worker returns, and what it leaves *)

Section WorkerRuns.
Variables (self : MinimalBotRunner) (w : World) (i : nat) (file_path : Path).

Lemma worker_runs_refl (s : State) : worker_runs w file_path s s.
Proof.
  repeat split; [lia | now left | trivial |].
  exists []. now rewrite app_nil_r.
Qed.

Lemma worker_runs_trans (s1 s2 s3 : State) :
  worker_runs w file_path s1 s2 -> worker_runs w file_path s2 s3 ->
  worker_runs w file_path s1 s3.
Proof.
  intros (Ht1 & Hp1 & Hk1 & evs1 & Ho1 & Hf1) (Ht2 & Hp2 & Hk2 & evs2 & Ho2 & Hf2).
  repeat split.
  - lia.
  - intros k p H. destruct (Hp2 k p H) as [H'|H']; [|now right].
    destruct (Hp1 k p H') as [H''|H'']; [now left | right; lia].
  - auto.
  - exists (evs1 ++ evs2)%list. split.
    + now rewrite Ho2, Ho1, app_assoc.
    + now apply Forall_app.
Qed.

Lemma worker_runs_sleeps (k : nat) (s : State) : worker_runs w file_path s (sleeps k s).
Proof.
  repeat split; cbn; [lia | now left | trivial |].
  exists (repeat (Sleep 1) k). split; [reflexivity|].
  apply Forall_forall. intros e He. apply repeat_spec in He. now subst.
Qed.

Lemma worker_runs_log (l : Logger) (lv : Level) (m : Message) (s : State) :
  worker_runs w file_path s (log l lv m s).
Proof.
  repeat split; cbn; [lia | now left | trivial |].
  exists [Log l lv m]. split; [reflexivity | now repeat constructor].
Qed.

Lemma worker_runs_ran (pid : nat) (rt : N) (code : Z) (s : State) :
  worker_runs w file_path s (ran w file_path pid rt code s).
Proof.
  repeat split; cbn.
  - lia.
  - intros k p H. apply DictFacts.get_set_Some in H as [->|H]; [right | now left].
    unfold ends. cbn. lia.
  - intros k. apply DictFacts.get_set_present.
  - eexists. split; [reflexivity|]. now repeat constructor.
Qed.

Lemma worker_runs_set_restart_count (n : nat) (s : State) :
  worker_runs w file_path s (set_restart_count n s).
Proof.
  repeat split; cbn; [lia | now left | trivial |].
  exists []. now rewrite app_nil_r.
Qed.

(** One turn of the body. *)
Lemma loop_body_runs (s : State) :
  worker_runs w file_path s (flow_state (loop_body self w i file_path s)).
Proof.
  destruct (path_exists w file_path (now s)) as [e|[|]] eqn:He.
  - unfold loop_body. rewrite (start_process_fails w i file_path s e He).
    apply worker_runs_refl.
  - destruct (subprocess_Popen w i (launches s)) as [|pid rt code] eqn:Hp.
    + unfold loop_body. rewrite (start_process_raises w i file_path s He Hp).
      repeat split; cbn; [lia | now left | trivial |].
      eexists. split; [reflexivity | now repeat constructor].
    + rewrite (loop_body_launched self w i file_path s pid rt code He Hp). cbn zeta.
      pose proof (worker_runs_ran pid rt code s) as Hran.
      destruct (code =? 0)%Z;
        [exact (worker_runs_trans _ _ _ Hran (worker_runs_log _ _ _ _))|].
      destruct (existsb (Z.eqb code) manual_termination);
        [exact (worker_runs_trans _ _ _ Hran (worker_runs_log _ _ _ _))|].
      pose proof (worker_runs_trans _ _ _ Hran
                    (worker_runs_set_restart_count (restart_count s + 1) _)) as H2.
      destruct (restart_count s + 1 <? MAX_RESTARTS self).
      * match goal with |- context [backoff w ?d ?x] =>
          destruct (backoff_sleeps w d x) as (k & _ & E) end.
        rewrite E.
        exact (worker_runs_trans _ _ _
                 (worker_runs_trans _ _ _ H2 (worker_runs_log _ _ _ _))
                 (worker_runs_sleeps k _)).
      * exact (worker_runs_trans _ _ _ H2 (worker_runs_log _ _ _ _)).
  - unfold loop_body. rewrite (start_process_missing w i file_path s He).
    apply worker_runs_log.
Qed.

Lemma loop_body_next (s s1 : State) :
  loop_body self w i file_path s = Next s1 -> restart_count s1 = restart_count s + 1.
Proof.
  destruct (path_exists w file_path (now s)) as [e|[|]] eqn:He.
  - unfold loop_body. now rewrite (start_process_fails w i file_path s e He).
  - destruct (subprocess_Popen w i (launches s)) as [|pid rt code] eqn:Hp.
    + unfold loop_body. now rewrite (start_process_raises w i file_path s He Hp).
    + rewrite (loop_body_launched self w i file_path s pid rt code He Hp). cbn zeta.
      destruct (code =? 0)%Z; [discriminate|].
      destruct (existsb (Z.eqb code) manual_termination); [discriminate|].
      destruct (restart_count s + 1 <? MAX_RESTARTS self).
      * match goal with |- context [backoff w ?d ?x] =>
          destruct (backoff_sleeps w d x) as (k & _ & E) end.
        intros H. rewrite H in E. cbn [flow_state] in E. now rewrite E.
      * now intros [= <-].
  - unfold loop_body. now rewrite (start_process_missing w i file_path s He).
Qed.

(** The body raises only what [exists()] raises, and has done nothing then. *)
Lemma loop_body_raise (s s1 : State) (e : Exn) :
  loop_body self w i file_path s = Raise e s1 ->
  s1 = s /\ path_exists w file_path (now s) = inl e.
Proof.
  destruct (path_exists w file_path (now s)) as [e0|[|]] eqn:He.
  - unfold loop_body. rewrite (start_process_fails w i file_path s e0 He).
    now intros [= <- <-].
  - destruct (subprocess_Popen w i (launches s)) as [|pid rt code] eqn:Hp.
    + unfold loop_body. now rewrite (start_process_raises w i file_path s He Hp).
    + rewrite (loop_body_launched self w i file_path s pid rt code He Hp). cbn zeta.
      destruct (code =? 0)%Z; [discriminate|].
      destruct (existsb (Z.eqb code) manual_termination); [discriminate|].
      destruct (restart_count s + 1 <? MAX_RESTARTS self); [|discriminate].
      intros H. now apply backoff_no_raise in H.
  - unfold loop_body. now rewrite (start_process_missing w i file_path s He).
Qed.

(** The loop ends when it may test its condition once more than there
    are restart counts left. *)
Lemma while_loop_returns (fuel : nat) :
  forall s, MAX_RESTARTS self - restart_count s < fuel ->
    exists s', worker_ends w file_path (while_loop fuel self w i file_path s) s' /\
               worker_runs w file_path s s'.
Proof.
  induction fuel as [|fuel IH]; intros s Hfuel; [lia|].
  cbn [while_loop]. destruct (loop_cond self w s) eqn:Hc.
  - apply loop_cond_true in Hc as [_ Hlt].
    pose proof (loop_body_runs s) as Hb.
    destruct (loop_body self w i file_path s) as [s1|s1|s1|e s1] eqn:E;
      cbn [flow_state] in Hb.
    + apply loop_body_next in E.
      destruct (IH s1 ltac:(lia)) as (s' & Hrun & Hw).
      exists s'. split; [exact Hrun | exact (worker_runs_trans _ _ _ Hb Hw)].
    + exists s1. split; [now left | exact Hb].
    + exists s1. split; [now left | exact Hb].
    + apply loop_body_raise in E as [-> He].
      exists s. split; [right; now exists e | exact Hb].
  - exists s. split; [now left | apply worker_runs_refl].
Qed.

Lemma run_single_bot_returns (s : State) :
  exists s', worker_ends w file_path (run_single_bot self w i file_path s) s' /\
             worker_runs w file_path s s'.
Proof.
  destruct (while_loop_returns (S (MAX_RESTARTS self)) (worker_start s)) as (s' & H & Hw).
  - cbn. lia.
  - exists s'. split; [exact H|].
    refine (worker_runs_trans _ _ _ _ Hw).
    repeat split; cbn; [lia | now left | trivial |].
    exists []. now rewrite app_nil_r.
Qed.

End WorkerRuns.

(** ** Stopping processes *)

Lemma bind_Done {A B : Type} (m : M A) (f : A -> M B) (s s' : State) (a : A) :
  m s = Done a s' -> bind m f s = f a s'.
Proof. unfold bind. now intros ->. Qed.

Lemma only_stops_refl (s : State) : only_stops s s.
Proof.
  repeat split; [lia | trivial |]. exists []. now rewrite app_nil_r.
Qed.

Lemma only_stops_trans (s1 s2 s3 : State) :
  only_stops s1 s2 -> only_stops s2 s3 -> only_stops s1 s3.
Proof.
  intros (Ht1 & Hp1 & evs1 & Ho1 & Hf1) (Ht2 & Hp2 & evs2 & Ho2 & Hf2).
  repeat split; [lia | auto |].
  exists (evs1 ++ evs2)%list. split.
  - now rewrite Ho2, Ho1, app_assoc.
  - now apply Forall_app.
Qed.

Lemma is_running_false (p : Popen) (s : State) :
  is_running p s = false <-> (ends p <= now s)%N.
Proof.
  unfold is_running, poll. destruct (N.ltb_spec (now s) (ends p)); split;
    intros; try discriminate; try reflexivity; lia.
Qed.

Section Stopping.
Variable (w : World).

Lemma stop_process_stops (file_path : Path) (s : State) :
  exists s', stop_process w file_path s = Done tt s' /\ only_stops s s'.
Proof.
  unfold stop_process, bind, gets.
  destruct (Dict.get (str file_path) (current_processes s)) as [process|];
    [|exists s; split; [reflexivity | apply only_stops_refl]].
  destruct (is_running process s);
    [|exists s; split; [reflexivity | apply only_stops_refl]].
  unfold try_finally, try_except, terminate, wait_timeout, kill, wait_, wait, bind, effect,
    gets, raise, ret.
  destruct (terminate_raises w (pid process)).
  - destruct (kill_raises w (pid process)).
    + eexists. split; [reflexivity|].
      repeat split; cbn; [lia | intros k p; apply DictFacts.get_del_Some |].
      eexists. split; [now rewrite <- !app_assoc | now repeat constructor].
    + eexists. split; [reflexivity|].
      repeat split; cbn; [lia | intros k p; apply DictFacts.get_del_Some |].
      eexists. split; [now rewrite <- !app_assoc | now repeat constructor].
  - match goal with |- context [N.leb ?a ?b] => destruct (N.leb a b) end.
    + eexists. split; [reflexivity|].
      repeat split; cbn; [lia | intros k p; apply DictFacts.get_del_Some |].
      eexists. split; [now rewrite <- !app_assoc | now repeat constructor].
    + destruct (kill_raises w (pid process)).
      * eexists. split; [reflexivity|].
        repeat split; cbn; [lia | intros k p; apply DictFacts.get_del_Some |].
        eexists. split; [now rewrite <- !app_assoc | now repeat constructor].
      * eexists. split; [reflexivity|].
        repeat split; cbn; [lia | intros k p; apply DictFacts.get_del_Some |].
        eexists. split; [now rewrite <- !app_assoc | now repeat constructor].
Qed.

(** A process that has exited is left where it is. *)
Lemma stop_process_exited (file_path : Path) (s : State) :
  all_exited s -> stop_process w file_path s = Done tt s.
Proof.
  intros Hall. unfold stop_process, bind, gets.
  destruct (Dict.get (str file_path) (current_processes s)) as [process|] eqn:E;
    [|reflexivity].
  apply Hall in E. apply is_running_false in E. now rewrite E.
Qed.

Lemma for_stop_process_stops (keys : list string) :
  forall s, exists s',
    for_ keys (fun file_path => stop_process w (PathParse.Path_of_string file_path)) s
    = Done tt s' /\ only_stops s s'.
Proof.
  induction keys as [|k keys IH]; intros s; cbn [for_].
  - exists s. split; [reflexivity | apply only_stops_refl].
  - destruct (stop_process_stops (PathParse.Path_of_string k) s) as (s1 & H1 & Hs1).
    destruct (IH s1) as (s2 & H2 & Hs2).
    exists s2. split; [|exact (only_stops_trans _ _ _ Hs1 Hs2)].
    rewrite (bind_Done _ _ _ _ _ H1). exact H2.
Qed.

Lemma for_stop_process_exited (keys : list string) (s : State) :
  all_exited s ->
  for_ keys (fun file_path => stop_process w (PathParse.Path_of_string file_path)) s
  = Done tt s.
Proof.
  intros Hall. induction keys as [|k keys IH]; cbn [for_]; [reflexivity|].
  rewrite (bind_Done _ _ _ _ _ (stop_process_exited _ s Hall)). exact IH.
Qed.

Lemma stop_all_processes_stops (s : State) :
  exists s', stop_all_processes w s = Done tt s' /\ only_stops s s'.
Proof. unfold stop_all_processes, bind, gets. apply for_stop_process_stops. Qed.

(** When every registered process has exited, [stop_all_processes] does
    nothing: the dictionary keeps all its entries. *)
Lemma stop_all_processes_exited (s : State) :
  all_exited s -> stop_all_processes w s = Done tt s.
Proof. unfold stop_all_processes, bind, gets. apply for_stop_process_exited. Qed.

End Stopping.

(** ** The group *)

Lemma worker_event_run_event (w : World) (valid : list Path) (file_path : Path) (e : Event) :
  In file_path valid -> worker_event w file_path e -> run_event w valid e.
Proof.
  intros Hin. destruct e; cbn; trivial; try contradiction.
  intros [-> ->]. now exists file_path.
Qed.

Lemma stop_event_run_event (w : World) (valid : list Path) (e : Event) :
  stop_event e -> run_event w valid e.
Proof. destruct e; cbn; trivial; contradiction. Qed.

Section Group.
Variables (self : MinimalBotRunner) (w : World).

Lemma with_output_nil (s : State) : with_output [] s = s.
Proof. unfold with_output. rewrite app_nil_r. now destruct s. Qed.

(** The validation loop: it stops at the first file for which [exists()]
    raises, and keeps the others in two lots. *)
Lemma validate_spec (files : list string) :
  forall (acc : list Path) (s : State),
    validate w files acc s
    = match first_error w (now s) files with
      | None =>
          Done (acc ++ valid_files w (now s) files)%list
               (with_output (map (validation_record w (now s)) files) s)
      | Some (before, e) =>
          Raised e (with_output (map (validation_record w (now s)) before) s)
      end.
Proof.
  induction files as [|f files IH]; intros acc s.
  - cbn. unfold ret. now rewrite with_output_nil, app_nil_r.
  - cbn [validate first_error]. unfold bind at 1, exists_, bind at 1, gets at 1.
    destruct (path_exists w (PathParse.Path_of_string f) (now s)) as [e|[|]] eqn:He.
    + unfold raise. cbn [map]. now rewrite with_output_nil.
    + unfold ret. unfold bind at 1, effect at 1. rewrite IH. cbn [now log emit].
      destruct (first_error w (now s) files) as [[before e]|].
      * unfold with_output, validation_record, found. cbn. rewrite He.
        now rewrite <- !app_assoc.
      * unfold with_output, valid_files, validation_record, found. cbn. rewrite He.
        cbn. now rewrite <- !app_assoc.
    + unfold ret. unfold bind at 1, effect at 1. rewrite IH. cbn [now log emit].
      destruct (first_error w (now s) files) as [[before e]|].
      * unfold with_output, validation_record, found. cbn. rewrite He.
        now rewrite <- !app_assoc.
      * unfold with_output, valid_files, validation_record, found. cbn. rewrite He.
        cbn. now rewrite <- !app_assoc.
Qed.

Lemma for_submit (l : list Path) :
  forall s, for_ l (fun file_path => effect (emit (Submit file_path))) s
            = Done tt (with_output (map Submit l) s).
Proof.
  induction l as [|p l IH]; intros s; cbn [for_ map].
  - unfold ret, with_output. rewrite app_nil_r. now destruct s.
  - unfold bind at 1, effect at 1. rewrite IH. unfold with_output. cbn.
    now rewrite <- app_assoc.
Qed.

(** Waiting for a worker: it has returned, or the error that ended it is
    logged; the main thread goes on in either case. *)
Lemma worker_joined (i : nat) (t0 : N) (file_path : Path) (s : State) :
  exists s1 s2,
    worker_ends w file_path (run_single_bot self w i file_path (at_time t0 s)) s1 /\
    worker_runs w file_path (at_time t0 s) s1 /\
    try_except (future_result self w i t0 file_path)
      (effect (log MinimalRunner ERROR MsgError)) s = Done tt s2 /\
    (s2 = at_time (N.max (now s) (now s1)) s1 \/
     s2 = log MinimalRunner ERROR MsgError (at_time (N.max (now s) (now s1)) s1)).
Proof.
  destruct (run_single_bot_returns self w i file_path (at_time t0 s))
    as (s1 & [Hrun|(e & Hrun & He)] & Hw).
  - exists s1. eexists. split; [now left|]. split; [exact Hw|].
    unfold try_except, future_result. rewrite Hrun. split; [reflexivity | now left].
  - exists s1. eexists. split; [right; now exists e|]. split; [exact Hw|].
    unfold try_except, future_result. rewrite Hrun. split; [reflexivity | now right].
Qed.

Lemma future_joined (i : nat) (t0 : N) (file_path : Path) (s : State) :
  exists s2,
    try_except (future_result self w i t0 file_path)
      (effect (log MinimalRunner ERROR MsgError)) s = Done tt s2 /\
    worker_runs w file_path s s2.
Proof.
  destruct (worker_joined i t0 file_path s)
    as (s1 & s2 & _ & (Hnow & Hreg & Hkeys & evs & Hout & Hev) & Hjoin & Hs2).
  exists s2. split; [exact Hjoin|].
  cbn [now current_processes output at_time] in *.
  destruct Hs2 as [->| ->]; unfold worker_runs;
    cbn [now current_processes output at_time log emit].
  - repeat split; [lia | | exact Hkeys | now exists evs].
    intros k p H. destruct (Hreg k p H) as [H'|H']; [now left | right; lia].
  - repeat split; [lia | | exact Hkeys |].
    + intros k p H. destruct (Hreg k p H) as [H'|H']; [now left | right; lia].
    + exists (evs ++ [Log MinimalRunner ERROR MsgError])%list. split.
      * now rewrite Hout, app_assoc.
      * apply Forall_app. split; [exact Hev | now repeat constructor].
Qed.

(** The workers all end; the processes they leave registered have all
    exited by the time the last worker is back. *)
Lemma workers_return (valid : list Path) (t0 : N) (l : list Path) :
  forall (i : nat) (s : State),
    incl l valid -> all_exited s -> (t0 <= now s)%N ->
    exists s',
      workers self w i t0 l s = Done tt s' /\
      (now s <= now s')%N /\
      all_exited s' /\
      (forall k, Dict.get k (current_processes s) <> None ->
                 Dict.get k (current_processes s') <> None) /\
      exists evs, output s' = (output s ++ evs)%list /\ Forall (run_event w valid) evs.
Proof.
  induction l as [|file_path l IH]; intros i s Hincl Hall Ht0; cbn [workers].
  - exists s. repeat split; [lia | exact Hall | trivial |].
    exists []. now rewrite app_nil_r.
  - destruct (future_joined i t0 file_path s)
      as (s2 & Hjoin & Hnow & Hreg & Hkeys & evs1 & Hout1 & Hev1).
    assert (Hall2 : all_exited s2).
    { intros k p H. destruct (Hreg k p H) as [H'|H']; [apply Hall in H'|]; lia. }
    destruct (IH (S i) s2) as (s' & Hws & Hnow' & Hall' & Hkeys' & evs2 & Hout2 & Hev2).
    { intros x Hx. apply Hincl. now right. }
    { exact Hall2. }
    { lia. }
    exists s'. split.
    + unfold bind at 1. rewrite Hjoin. exact Hws.
    + repeat split.
      * lia.
      * exact Hall'.
      * intros k Hk. apply Hkeys', Hkeys, Hk.
      * exists (evs1 ++ evs2)%list. split.
        -- rewrite Hout2. now rewrite Hout1, app_assoc.
        -- apply Forall_app. split; [|exact Hev2].
           eapply Forall_impl; [|exact Hev1].
           intros e. apply worker_event_run_event. apply Hincl. now left.
Qed.

(** The handler, when it runs, only stops processes. *)
Lemma deliver_signal_stops (valid : list Path) (t0 : N) (s : State) :
  all_exited s ->
  exists s',
    deliver_signal w t0 s = Done tt s' /\
    (now s <= now s')%N /\
    all_exited s' /\
    (shutdown_at w = None -> s' = s) /\
    exists evs, output s' = (output s ++ evs)%list /\ Forall (run_event w valid) evs.
Proof.
  intros Hall. unfold deliver_signal, bind at 1, gets at 1.
  assert (Hsame : exists evs, output s = (output s ++ evs)%list /\
                              Forall (run_event w valid) evs)
    by (exists []; now rewrite app_nil_r).
  assert (Hnothing : exists s', Done tt s = Done tt s' /\ (now s <= now s')%N /\
            all_exited s' /\ (shutdown_at w = None -> s' = s) /\
            exists evs, output s' = (output s ++ evs)%list /\
                        Forall (run_event w valid) evs).
  { exists s. split; [reflexivity|]. split; [lia|]. split; [exact Hall|].
    split; [trivial | exact Hsame]. }
  destruct (shutdown_at w) as [T|]; [|exact Hnothing].
  destruct ((t0 <=? T)%N && (T <=? now s)%N); [|exact Hnothing].
  clear Hnothing.
  unfold bind at 1, effect at 1, signal_handler, bind at 1, bind at 1, effect at 1.
  destruct (stop_all_processes_stops w (log MinimalRunner INFO MsgShuttingDown (at_time T s)))
    as (s1 & Hstop & Ht & Hreg & evs & Hout & Hev).
  rewrite Hstop. unfold effect.
  eexists. split; [reflexivity|]. cbn in Ht, Hreg, Hout |- *.
  repeat split.
  - lia.
  - intros k p H. cbn in H |- *. apply Hreg, Hall in H. lia.
  - discriminate.
  - exists (Log MinimalRunner INFO MsgShuttingDown :: evs). split.
    + now rewrite Hout, <- app_assoc.
    + constructor; [exact I|].
      eapply Forall_impl; [|exact Hev]. intros e. apply stop_event_run_event.
Qed.

End Group.

(** ** Paths: [Path(str(p)) == p] for a path that was parsed *)

Module PathFacts.
Import PathParse.

Lemma split_no_sep (sep : ascii) (s : string) : Forall (no_sep sep) (split sep s).
Proof.
  induction s as [|c s IH]; cbn.
  - now repeat constructor.
  - destruct (Ascii.eqb c sep) eqn:E.
    + constructor; [exact I | exact IH].
    + destruct (split sep s) as [|x l]; [now repeat constructor|].
      inversion IH; subst. constructor; [now split | assumption].
Qed.

Lemma split_piece (sep : ascii) (x rest : string) :
  no_sep sep x ->
  split sep (x ++ String sep rest) = x :: split sep rest.
Proof.
  induction x as [|c x IH]; cbn; intros H.
  - now rewrite Ascii.eqb_refl.
  - destruct H as [Hc Hx]. now rewrite Hc, (IH Hx).
Qed.

Lemma split_whole (sep : ascii) (x : string) : no_sep sep x -> split sep x = [x].
Proof.
  induction x as [|c x IH]; cbn; intros H; [reflexivity|].
  destruct H as [Hc Hx]. now rewrite Hc, (IH Hx).
Qed.

Lemma split_join (l : list string) :
  Forall (no_sep "/"%char) l -> l <> [] ->
  split "/"%char (join "/" l) = l.
Proof.
  induction l as [|x l IH]; intros Hall Hne; [contradiction|].
  inversion Hall as [|? ? Hx Hl]; subst.
  destruct l as [|y l].
  - cbn. now apply split_whole.
  - change (join "/" (x :: y :: l)) with (x ++ String "/"%char (join "/" (y :: l))).
    rewrite (split_piece _ _ _ Hx), IH; [reflexivity | assumption | discriminate].
Qed.

Lemma filter_all {A : Type} (f : A -> bool) (l : list A) :
  Forall (fun x => f x = true) l -> filter f l = l.
Proof.
  induction 1 as [|x l Hx _ IH]; cbn; [reflexivity|]. now rewrite Hx, IH.
Qed.

(** The components of a parsed path: no slash inside, none empty or a dot. *)
Lemma parsed_parts (s : string) :
  Forall (no_sep "/"%char) (parts (Path_of_string s)) /\
  Forall (fun x => is_component x = true) (parts (Path_of_string s)).
Proof.
  unfold Path_of_string. cbn [parts]. split.
  - apply Forall_forall. intros x Hx. apply filter_In in Hx as [Hx _].
    revert x Hx. apply Forall_forall, split_no_sep.
  - apply Forall_forall. intros x Hx. now apply filter_In in Hx.
Qed.

Lemma prefix_slash (x rest : string) :
  no_sep "/"%char x -> is_component x = true -> prefix "/" (x ++ rest) = false.
Proof.
  destruct x as [|c x]; [discriminate|]. intros [Hc _] _.
  destruct (prefix "/" (String c x ++ rest)) eqn:E; [|reflexivity].
  apply TextFacts.prefix_app in E as [post E]. cbn in E. injection E as -> _.
  now rewrite Ascii.eqb_refl in Hc.
Qed.

Lemma prefix_cons (c : ascii) (a b : string) :
  prefix (String c a) (String c b) = prefix a b.
Proof. cbn [prefix]. now destruct (ascii_dec c c). Qed.

Lemma prefix_empty (s : string) : prefix "" s = true.
Proof. now destruct s. Qed.

(** The joined components of a parsed path do not start with a slash. *)
Lemma prefix_slash_join (l : list string) :
  Forall (no_sep "/"%char) l -> Forall (fun x => is_component x = true) l ->
  prefix "/" (join "/" l) = false.
Proof.
  intros Hsep Hcomp. destruct l as [|x l]; [reflexivity|].
  inversion Hsep; inversion Hcomp; subst.
  destruct l as [|y l]; cbn [join].
  - rewrite <- (TextFacts.append_empty_r x). now apply prefix_slash.
  - now apply prefix_slash.
Qed.

Lemma parsed_join (l : list string) :
  Forall (no_sep "/"%char) l -> Forall (fun x => is_component x = true) l ->
  filter is_component (split "/"%char (join "/" l)) = l.
Proof.
  intros Hsep Hcomp. destruct l as [|x l]; [reflexivity|].
  rewrite split_join by (assumption || discriminate). now apply filter_all.
Qed.

Lemma splitroot_cases (s : string) :
  splitroot s = "" \/ splitroot s = "/" \/ splitroot s = "//".
Proof.
  unfold splitroot. destruct (prefix "/" s); [|now left].
  destruct (prefix "//" s && negb (prefix "///" s)); auto.
Qed.

Theorem Path_of_string_str (s : string) :
  Path_of_string (str (Path_of_string s)) = Path_of_string s.
Proof.
  destruct (parsed_parts s) as [Hsep Hcomp].
  assert (Hroot := splitroot_cases s).
  change (splitroot s) with (root (Path_of_string s)) in Hroot.
  destruct (Path_of_string s) as [r l]. cbn [root parts] in *.
  assert (Hjoin := prefix_slash_join l Hsep Hcomp).
  assert (Hparts := parsed_join l Hsep Hcomp).
  unfold str. cbn [root parts].
  destruct Hroot as [-> | [-> | ->]].
  - destruct l as [|x l]; [reflexivity|].
    change ("" ++ join "/" (x :: l)) with (join "/" (x :: l)).
    unfold Path_of_string, splitroot. rewrite Hjoin. now f_equal.
  - change ("/" ++ join "/" l) with (String "/"%char (join "/" l)).
    unfold Path_of_string, splitroot. f_equal.
    + rewrite !prefix_cons, prefix_empty, Hjoin. reflexivity.
    + cbn [split]. rewrite Ascii.eqb_refl.
      cbn [filter is_component String.eqb negb andb]. exact Hparts.
  - change ("//" ++ join "/" l)
      with (String "/"%char (String "/"%char (join "/" l))).
    unfold Path_of_string, splitroot. f_equal.
    + rewrite !prefix_cons, !prefix_empty, Hjoin. reflexivity.
    + cbn [split]. rewrite !Ascii.eqb_refl.
      cbn [filter is_component String.eqb negb andb]. exact Hparts.
Qed.


End PathFacts.

Section Registers.
Variables (self : MinimalBotRunner) (w : World).

(** A launch that succeeds leaves its process under the key of the file. *)
Lemma loop_body_registers (i : nat) (file_path : Path) (s : State) (pid : nat) (rt : N)
  (code : Z) :
  path_exists w file_path (now s) = inr true ->
  subprocess_Popen w i (launches s) = PopenStarts pid rt code ->
  Dict.get (str file_path)
    (current_processes (flow_state (loop_body self w i file_path s))) <> None.
Proof.
  intros He Hp. rewrite (loop_body_launched self w i file_path s pid rt code He Hp).
  cbn zeta.
  assert (Hset : forall d : list (string * Popen),
            Dict.get (str file_path)
              (Dict.set (str file_path) (mkPopen pid (now s) rt code) d) <> None)
    by (intros d; now rewrite DictFacts.get_set_same).
  destruct (code =? 0)%Z; [apply Hset|].
  destruct (existsb (Z.eqb code) manual_termination); [apply Hset|].
  destruct (restart_count s + 1 <? MAX_RESTARTS self); [|apply Hset].
  match goal with |- context [backoff w ?d ?x] =>
    destruct (backoff_sleeps w d x) as (k & _ & E) end.
  rewrite E. apply Hset.
Qed.

Lemma worker_ends_unique (file_path : Path) (o : Outcome unit) (s1 s2 : State) :
  worker_ends w file_path o s1 -> worker_ends w file_path o s2 -> s1 = s2.
Proof.
  intros [->|(e1 & -> & _)] [H|(e2 & H & _)]; try discriminate H; now injection H.
Qed.

Lemma run_single_bot_registers (i : nat) (file_path : Path) (s s' : State) (pid : nat)
  (rt : N) (code : Z) :
  shutdown_requested w (now s) = false ->
  0 < MAX_RESTARTS self ->
  path_exists w file_path (now s) = inr true ->
  subprocess_Popen w i 0 = PopenStarts pid rt code ->
  worker_ends w file_path (run_single_bot self w i file_path s) s' ->
  Dict.get (str file_path) (current_processes s') <> None.
Proof.
  intros Hsd Hmax He Hp. unfold run_single_bot. cbn [while_loop].
  assert (Hc : loop_cond self w (worker_start s) = true)
    by (apply loop_cond_true; split; [exact Hsd | exact Hmax]).
  rewrite Hc.
  pose proof (loop_body_registers i file_path (worker_start s) pid rt code He Hp) as Hreg.
  destruct (loop_body self w i file_path (worker_start s)) as [s1|s1|s1|e s1] eqn:E;
    cbn [flow_state] in Hreg.
  - apply loop_body_next in E. cbn in E.
    destruct (while_loop_returns self w i file_path (MAX_RESTARTS self) s1 ltac:(lia))
      as (s'' & Hrun & _ & _ & Hkeys & _).
    intros Hends. rewrite (worker_ends_unique _ _ _ _ Hends Hrun). now apply Hkeys.
  - intros [[= <-]|(e & [=] & _)]. exact Hreg.
  - intros [[= <-]|(e & [=] & _)]. exact Hreg.
  - intros [[=]|(e' & [= <- <-] & _)]. exact Hreg.
Qed.

Lemma workers_keep_keys (t0 : N) (l : list Path) :
  forall (i : nat) (s s' : State) (k : string),
    workers self w i t0 l s = Done tt s' ->
    Dict.get k (current_processes s) <> None ->
    Dict.get k (current_processes s') <> None.
Proof.
  induction l as [|file_path l IH]; intros i s s' k; cbn [workers].
  - now intros [= <-].
  - destruct (future_joined self w i t0 file_path s) as (s2 & Hjoin & _ & _ & Hkeys & _).
    unfold bind at 1. rewrite Hjoin. intros Hws Hk.
    apply (IH _ _ _ _ Hws). now apply Hkeys.
Qed.

(** Without a signal, the worker of a file that is there and whose first
    launch succeeds leaves a process registered under the key of the file. *)
Lemma workers_register (t0 : N) (l : list Path) :
  shutdown_at w = None ->
  0 < MAX_RESTARTS self ->
  forall (i j : nat) (s s' : State) (file_path : Path) (pid : nat) (rt : N) (code : Z),
    nth_error l j = Some file_path ->
    path_exists w file_path t0 = inr true ->
    subprocess_Popen w (i + j) 0 = PopenStarts pid rt code ->
    workers self w i t0 l s = Done tt s' ->
    Dict.get (str file_path) (current_processes s') <> None.
Proof.
  intros Hsig Hmax.
  induction l as [|p l IH]; intros i j s s' file_path pid rt code Hnth He Hp;
    [now destruct j|].
  cbn [workers].
  destruct (worker_joined self w i t0 p s) as (s1 & s2 & Hends & _ & Hjoin & Hs2).
  unfold bind at 1. rewrite Hjoin. intros Hws.
  destruct j as [|j]; cbn [nth_error] in Hnth.
  - injection Hnth as ->. rewrite Nat.add_0_r in Hp.
    apply (workers_keep_keys _ _ _ _ _ _ Hws).
    assert (Hreg : Dict.get (str file_path) (current_processes s1) <> None).
    { apply (run_single_bot_registers i file_path (at_time t0 s) s1 pid rt code);
        [now apply no_shutdown_requested | exact Hmax | exact He | exact Hp | exact Hends]. }
    destruct Hs2 as [->| ->]; exact Hreg.
  - refine (IH (S i) j _ _ file_path pid rt code Hnth He _ Hws).
    now replace (S i + j) with (i + S j) by lia.
Qed.

(** A turn for a file that is there makes the launch: the record that
    announces it and the call of [subprocess.Popen]. *)
Lemma loop_body_launches (i : nat) (file_path : Path) (s : State) :
  path_exists w file_path (now s) = inr true ->
  exists rest,
    output (flow_state (loop_body self w i file_path s))
    = (output s
       ++ Log (create_file_logger file_path) INFO MsgStarting
          :: PopenCall [sys_executable w; str file_path] (parent file_path)
          :: rest)%list.
Proof.
  intros He.
  destruct (subprocess_Popen w i (launches s)) as [|pid rt code] eqn:Hp.
  - unfold loop_body. rewrite (start_process_raises w i file_path s He Hp).
    now exists [Log (create_file_logger file_path) ERROR MsgStartFailed].
  - rewrite (loop_body_launched self w i file_path s pid rt code He Hp). cbn zeta.
    assert (Hran : forall s2 more,
              output s2 = (output (ran w file_path pid rt code s) ++ more)%list ->
              exists rest,
                output s2
                = (output s
                   ++ Log (create_file_logger file_path) INFO MsgStarting
                      :: PopenCall [sys_executable w; str file_path] (parent file_path)
                      :: rest)%list).
    { intros s2 more ->. cbn [output ran launch_events].
      eexists. rewrite <- !app_assoc. cbn [app]. reflexivity. }
    destruct (code =? 0)%Z;
      [eapply Hran; cbn [flow_state output log emit]; reflexivity|].
    destruct (existsb (Z.eqb code) manual_termination);
      [eapply Hran; cbn [flow_state output log emit]; reflexivity|].
    destruct (restart_count s + 1 <? MAX_RESTARTS self);
      [|eapply Hran; cbn [flow_state output log emit set_restart_count]; reflexivity].
    match goal with |- context [backoff w ?d ?x] =>
      destruct (backoff_sleeps w d x) as (k & _ & E) end.
    rewrite E. eapply Hran. cbn [output sleeps log emit set_restart_count].
    rewrite <- app_assoc. reflexivity.
Qed.

(** A worker that starts with no shutdown requested, on a file that is
    there, makes a launch. *)
Lemma run_single_bot_launches (i : nat) (file_path : Path) (s s' : State) :
  shutdown_requested w (now s) = false ->
  0 < MAX_RESTARTS self ->
  path_exists w file_path (now s) = inr true ->
  worker_ends w file_path (run_single_bot self w i file_path s) s' ->
  exists rest,
    output s'
    = (output s
       ++ Log (create_file_logger file_path) INFO MsgStarting
          :: PopenCall [sys_executable w; str file_path] (parent file_path)
          :: rest)%list.
Proof.
  intros Hsd Hmax He. unfold run_single_bot. cbn [while_loop].
  assert (Hc : loop_cond self w (worker_start s) = true)
    by (apply loop_cond_true; split; [exact Hsd | exact Hmax]).
  rewrite Hc.
  destruct (loop_body_launches i file_path (worker_start s) He) as (rest & Hout).
  destruct (loop_body self w i file_path (worker_start s)) as [s1|s1|s1|e s1] eqn:E;
    cbn [flow_state] in Hout.
  - apply loop_body_next in E. cbn in E.
    destruct (while_loop_returns self w i file_path (MAX_RESTARTS self) s1 ltac:(lia))
      as (s'' & Hrun & _ & _ & _ & evs & Hout' & _).
    intros Hends. rewrite (worker_ends_unique _ _ _ _ Hends Hrun).
    exists (rest ++ evs)%list. rewrite Hout', Hout. cbn [output worker_start].
    now rewrite <- app_assoc.
  - intros [[= <-]|(e & [=] & _)]. now exists rest.
  - intros [[= <-]|(e & [=] & _)]. now exists rest.
  - intros [[=]|(e' & [= <- <-] & _)]. now exists rest.
Qed.

Lemma workers_grow (t0 : N) (l : list Path) :
  forall (i : nat) (s s' : State) (e : Event),
    workers self w i t0 l s = Done tt s' -> In e (output s) -> In e (output s').
Proof.
  induction l as [|file_path l IH]; intros i s s' e; cbn [workers].
  - now intros [= <-].
  - destruct (future_joined self w i t0 file_path s)
      as (s2 & Hjoin & _ & _ & _ & evs & Hout & _).
    unfold bind at 1. rewrite Hjoin. intros Hws He.
    apply (IH _ _ _ _ Hws). rewrite Hout. apply in_or_app. now left.
Qed.

(** Without a signal, the worker of every file that is there when the
    workers start launches the interpreter on it, in its directory. *)
Lemma workers_launch (t0 : N) (l : list Path) :
  shutdown_at w = None ->
  0 < MAX_RESTARTS self ->
  forall (i : nat) (s s' : State) (file_path : Path),
    In file_path l ->
    path_exists w file_path t0 = inr true ->
    workers self w i t0 l s = Done tt s' ->
    In (PopenCall [sys_executable w; str file_path] (parent file_path)) (output s').
Proof.
  intros Hsig Hmax.
  induction l as [|p l IH]; intros i s s' file_path Hin He; [contradiction|].
  cbn [workers].
  destruct (worker_joined self w i t0 p s) as (s1 & s2 & Hends & _ & Hjoin & Hs2).
  unfold bind at 1. rewrite Hjoin. intros Hws.
  destruct Hin as [->|Hin]; [|exact (IH (S i) _ _ file_path Hin He Hws)].
  apply (workers_grow _ _ _ _ _ _ Hws).
  destruct (run_single_bot_launches i file_path (at_time t0 s) s1
              (no_shutdown_requested w _ Hsig) Hmax He Hends) as (rest & Hout).
  assert (Hin1 : In (PopenCall [sys_executable w; str file_path] (parent file_path))
                    (output s1)).
  { rewrite Hout. apply in_or_app. right. right. now left. }
  destruct Hs2 as [->| ->]; cbn [output at_time log emit]; [exact Hin1|].
  apply in_or_app. now left.
Qed.

(** [run] ends.  An [exists()] that raises in the validation ends it
    there, with an exception.  Otherwise it returns: with no valid file it
    only logs; else the workers run, the handler may run, and the closing
    [stop_all_processes] finds every registered process exited and changes
    nothing. *)
Lemma run_returns (t : N) :
  let valid := valid_files w t (bot_files self) in
  let s1 := with_output (map (validation_record w t) (bot_files self))
              (log MinimalRunner INFO MsgStartingAll (fresh t)) in
  (exists before e,
     first_error w t (bot_files self) = Some (before, e) /\
     run self w (fresh t)
     = Raised e (with_output (map (validation_record w t) before)
                   (log MinimalRunner INFO MsgStartingAll (fresh t)))) \/
  (first_error w t (bot_files self) = None /\
   valid = [] /\
   run self w (fresh t) = Done tt (log MinimalRunner ERROR MsgNoValidFiles s1)) \/
  (first_error w t (bot_files self) = None /\
   valid <> [] /\
   exists s2 s3,
     workers self w 0 t valid (with_output (map Submit valid) s1) = Done tt s2 /\
     deliver_signal w t s2 = Done tt s3 /\
     all_exited s3 /\
     (shutdown_at w = None -> s3 = s2) /\
     run self w (fresh t) = Done tt (emit ExecutorShutdown s3) /\
     exists evs, output s3 = (output s1 ++ evs)%list /\ Forall (run_event w valid) evs).
Proof.
  intros valid s1.
  destruct (first_error w t (bot_files self)) as [[before e]|] eqn:Hfe.
  { left. exists before, e. split; [reflexivity|].
    unfold run. unfold bind at 1, effect at 1. unfold bind at 1.
    rewrite validate_spec. cbn [now log emit fresh]. now rewrite Hfe. }
  right.
  assert (Hrun : run self w (fresh t)
    = (match valid with
       | [] => effect (log MinimalRunner ERROR MsgNoValidFiles)
       | _ =>
           try_finally
             (try_except
                (for_ valid (fun file_path => effect (emit (Submit file_path))) ;;
                 t0 <- gets now ;;
                 workers self w 0 t0 valid ;;
                 deliver_signal w t0)
                (effect (log MinimalRunner ERROR MsgCritical)))
             (stop_all_processes w ;;
              effect (emit ExecutorShutdown))
       end) s1).
  { unfold run. unfold bind at 1, effect at 1. unfold bind at 1.
    rewrite validate_spec. cbn [now log emit fresh]. now rewrite Hfe. }
  rewrite Hrun. clear Hrun.
  destruct valid as [|p valid'] eqn:Hvalid; [left; repeat split; reflexivity|].
  right. split; [reflexivity|]. split; [discriminate|].
  rewrite <- Hvalid.
  assert (Hs1 : all_exited (with_output (map Submit valid) s1))
    by (intros k q H; discriminate H).
  destruct (workers_return self w valid t valid 0 (with_output (map Submit valid) s1)
              (incl_refl _) Hs1 ltac:(cbn; lia))
    as (s2 & Hws & Hnow2 & Hall2 & _ & evs2 & Hout2 & Hev2).
  destruct (deliver_signal_stops w valid t s2 Hall2)
    as (s3 & Hsig & Hnow3 & Hall3 & Hnone & evs3 & Hout3 & Hev3).
  exists s2, s3. repeat split; try assumption.
  - rewrite Hvalid at 1. rewrite <- Hvalid. unfold try_finally, try_except.
    rewrite (bind_Done _ _ _ _ _ (for_submit valid s1)).
    unfold bind at 1, gets at 1. cbn [now with_output]. change (now s1) with t.
    rewrite (bind_Done _ _ _ _ _ Hws), Hsig.
    unfold bind at 1, bind at 1.
    rewrite (stop_all_processes_exited w s3 Hall3). reflexivity.
  - exists (map Submit valid ++ evs2 ++ evs3)%list. split.
    + rewrite Hout3, Hout2. cbn. now rewrite <- !app_assoc.
    + apply Forall_app. split; [|now apply Forall_app].
      apply Forall_forall. intros e He. apply in_map_iff in He as (q & <- & Hq). exact Hq.
Qed.

End Registers.

Lemma found_true (w : World) (t : N) (p : Path) :
  found w t p = true <-> path_exists w p t = inr true.
Proof.
  unfold found. destruct (path_exists w p t) as [e|[|]]; split; intros H;
    try discriminate H; reflexivity.
Qed.

Lemma validation_record_is_log (w : World) (t : N) (files : list string) (e : Event) :
  In e (map (validation_record w t) files) ->
  exists file_str, In file_str files /\
    e = if found w t (PathParse.Path_of_string file_str)
        then Log MinimalRunner INFO (MsgValid (PathParse.Path_of_string file_str))
        else Log MinimalRunner ERROR (MsgNotFound (PathParse.Path_of_string file_str)).
Proof. intros H. apply in_map_iff in H as (f & <- & Hf). now exists f. Qed.

Lemma valid_files_In (w : World) (t : N) (files : list string) (p : Path) :
  In p (valid_files w t files) <->
  (exists file_str, In file_str files /\ p = PathParse.Path_of_string file_str) /\
  path_exists w p t = inr true.
Proof.
  unfold valid_files. rewrite filter_In, in_map_iff, found_true.
  split; intros [(f & H1 & H2) H]; (split; [exists f|]); auto.
Qed.

(** Where the validation stops: at the first file for which [exists()]
    raises; for the files before it [exists()] answers. *)
Lemma first_error_spec (w : World) (t : N) (files before : list string) (e : Exn) :
  first_error w t files = Some (before, e) ->
  exists file_str rest,
    files = (before ++ file_str :: rest)%list /\
    path_exists w (PathParse.Path_of_string file_str) t = inl e /\
    forall f, In f before -> exists b, path_exists w (PathParse.Path_of_string f) t = inr b.
Proof.
  revert before. induction files as [|f files IH]; intros before; cbn [first_error];
    [discriminate|].
  destruct (path_exists w (PathParse.Path_of_string f) t) as [e'|b] eqn:He.
  - intros [= <- <-]. exists f, files. repeat split; [exact He | intros f' []].
  - destruct (first_error w t files) as [[before' e']|]; [|discriminate].
    intros [= <- <-]. destruct (IH before' eq_refl) as (f0 & rest & -> & Hf0 & Hb).
    exists f0, rest. repeat split; [exact Hf0|].
    intros f' [<-|Hf']; [now exists b | now apply Hb].
Qed.


Lemma validated_incl (w : World) (t : N) (files : list string) (f : string) :
  In f (validated w t files) -> In f files.
Proof.
  unfold validated. destruct (first_error w t files) as [[before e]|] eqn:E; [|trivial].
  destruct (first_error_spec w t files before e E) as (f0 & rest & -> & _).
  intros H. apply in_or_app. now left.
Qed.

(** What [run] has emitted when it ends: the opening record, one record per
    configured file that the validation got to, then records of the run
    proper. *)
Lemma run_output (self : MinimalBotRunner) (w : World) (t : N) :
  exists o s' evs,
    run self w (fresh t) = o /\
    run_ends self w t o s' /\
    output s' = (Log MinimalRunner INFO MsgStartingAll
                   :: map (validation_record w t) (validated w t (bot_files self))
                   ++ evs)%list /\
    Forall (run_event w (valid_files w t (bot_files self))) evs.
Proof.
  unfold validated.
  destruct (run_returns self w t)
    as [(before & e & Hfe & Hrun)
       |[(Hfe & _ & Hrun)|(Hfe & _ & s2 & s3 & _ & _ & _ & _ & Hrun & evs & Hout & Hev)]];
    rewrite Hfe.
  - eexists. eexists. exists []. split; [exact Hrun|].
    split; [right; now exists before, e|]. split; [|constructor].
    cbn. now rewrite app_nil_r.
  - eexists. eexists. exists [Log MinimalRunner ERROR MsgNoValidFiles].
    split; [exact Hrun|]. split; [now left|].
    split; [reflexivity | now repeat constructor].
  - eexists. eexists. exists (evs ++ [ExecutorShutdown])%list.
    split; [exact Hrun|]. split; [now left|]. split.
    + cbn. rewrite Hout. cbn. now rewrite <- !app_assoc.
    + apply Forall_app. split; [exact Hev | now repeat constructor].
Qed.

(** ** The memory watchdog *)

Lemma over_limit_bytes (self : MinimalBotRunner) (rss : Z) :
  over_limit self rss = true <-> (MEMORY_LIMIT_MB self * 1024 * 1024 < rss)%Z.
Proof.
  unfold over_limit, Qgtb. rewrite negb_true_iff.
  destruct (Qle_bool (inject_Z rss / 1024 / 1024) (inject_Z (MEMORY_LIMIT_MB self))) eqn:E.
  - apply Qle_bool_iff in E. unfold Qle in E. cbn in E. split; [discriminate | lia].
  - split; [intros _ | reflexivity].
    destruct (Z.lt_ge_cases (MEMORY_LIMIT_MB self * 1024 * 1024) rss) as [H|H]; [exact H|].
    exfalso. assert (E' : Qle_bool (inject_Z rss / 1024 / 1024)
                            (inject_Z (MEMORY_LIMIT_MB self)) = true).
    { apply Qle_bool_iff. unfold Qle. cbn. lia. }
    congruence.
Qed.

Section Watched.
Variables (self : MinimalBotRunner) (file_logger : Logger) (pid : nat).

Lemma watched_terminations (evs : list Event) :
  watched self file_logger pid evs -> terminations evs <= 1.
Proof. induction 1; cbn; lia. Qed.

(** A sample over the ceiling is the last one, and is followed by the
    warning and the one termination, with which the trace ends. *)
Lemma watched_over_last (evs : list Event) (rss : Z) :
  watched self file_logger pid evs ->
  In (MemoryInfo pid (inr rss)) evs ->
  over_limit self rss = true ->
  terminations evs = 1 /\
  exists before,
    evs = (before ++
           [MemoryInfo pid (inr rss);
            Log file_logger WARNING (MsgHighMemory (inject_Z rss / 1024 / 1024)%Q);
            Terminate pid])%list /\
    terminations before = 0 /\
    forall rss', In (MemoryInfo pid (inr rss')) before -> over_limit self rss' = false.
Proof.
  induction 1 as [|e|rss0 Hover|rss0 evs Hquiet Hw IH]; intros Hin Hrss.
  - contradiction.
  - destruct Hin as [[=]|[]].
  - destruct Hin as [[= ->]|[[=]|[[=]|[]]]].
    split; [reflexivity|]. exists []. repeat split. intros rss' [].
  - destruct Hin as [[= ->]|[[=]|Hin]]; [congruence|].
    destruct (IH Hin Hrss) as (Ht & before & -> & Hb & Hsamples).
    split; [exact Ht|].
    exists (MemoryInfo pid (inr rss0) :: Sleep 30 :: before). repeat split.
    + exact Hb.
    + intros rss' [[= <-]|[[=]|H']]; [exact Hquiet | now apply Hsamples].
Qed.

(** A sample that fails is the last record: nothing is logged, nothing is
    terminated. *)
Lemma watched_failure_last (evs : list Event) (e : Exn) :
  watched self file_logger pid evs ->
  In (MemoryInfo pid (inl e)) evs ->
  terminations evs = 0 /\
  exists before, evs = (before ++ [MemoryInfo pid (inl e)])%list.
Proof.
  induction 1 as [|e0|rss0 Hover|rss0 evs Hquiet Hw IH]; intros Hin.
  - contradiction.
  - destruct Hin as [[= ->]|[]]. split; [reflexivity | now exists []].
  - destruct Hin as [[=]|[[=]|[[=]|[]]]].
  - destruct Hin as [[=]|[[=]|Hin]].
    destruct (IH Hin) as (Ht & before & ->).
    split; [exact Ht|]. now exists (MemoryInfo pid (inr rss0) :: Sleep 30 :: before).
Qed.

End Watched.

Section Watchdog.
Variables (self : MinimalBotRunner) (w : World) (file_path : Path) (process : Popen).

Let file_logger := create_file_logger file_path.
Let guarded_body : M Ctl :=
  try_except (memory_check_body self w file_logger process) (ret BreakLoop).
Let cond : State -> bool :=
  fun s => is_running process s && negb (shutdown_requested w (now s)).

(** One guarded turn of the loop: whatever the sample and the termination
    do, the turn returns. *)
Lemma guarded_body_cases (s : State) :
  match memory_info_rss w (pid process) (now s) with
  | inl e =>
      guarded_body s = Done BreakLoop (emit (MemoryInfo (pid process) (inl e)) s)
  | inr rss =>
      if over_limit self rss then
        guarded_body s
        = Done BreakLoop
            (with_output
               [MemoryInfo (pid process) (inr rss);
                Log file_logger WARNING (MsgHighMemory (inject_Z rss / 1024 / 1024)%Q);
                Terminate (pid process)] s)
      else
        guarded_body s
        = Done Continue
            (at_time (now s + 30 * TICKS_PER_SECOND)
               (with_output [MemoryInfo (pid process) (inr rss); Sleep 30] s))
  end.
Proof.
  destruct (memory_info_rss w (pid process) (now s)) as [e|rss] eqn:E.
  - unfold guarded_body, try_except, memory_check_body, memory_info, bind, gets, effect.
    cbn [now emit]. now rewrite E.
  - destruct (over_limit self rss) eqn:Hover; unfold over_limit in Hover;
      unfold guarded_body, try_except, memory_check_body, memory_info, bind, gets, effect;
      cbn [now emit]; cbn beta iota zeta; rewrite E; unfold ret; cbn beta iota zeta;
      rewrite Hover.
    + unfold terminate, bind, effect, raise, ret, log, emit, with_output. cbn.
      destruct (terminate_raises w (pid process)); cbn; rewrite <- ?app_assoc; reflexivity.
    + unfold sleep, at_time, emit, with_output, ret. cbn. rewrite <- ?app_assoc. reflexivity.
Qed.

(** The loop returns within [n + 1] tests of its condition when the process
    ends within [n] periods of 30 seconds, and its trace is a watchdog's. *)
Lemma memory_loop_returns (n : nat) :
  forall s,
    (ends process <= now s + N.of_nat n * (30 * TICKS_PER_SECOND))%N ->
    exists s' evs,
      while_ (S n) cond guarded_body s = Done tt s' /\
      output s' = (output s ++ evs)%list /\
      current_processes s' = current_processes s /\
      watched self file_logger (pid process) evs.
Proof.
  assert (Hstop : forall s, exists evs,
            output s = (output s ++ evs)%list /\ current_processes s = current_processes s /\
            watched self file_logger (pid process) evs).
  { intros s. exists []. rewrite app_nil_r. repeat split. constructor. }
  assert (Hunfold : forall fuel s,
            while_ (S fuel) cond guarded_body s
            = if cond s then
                match guarded_body s with
                | Done Continue s' => while_ fuel cond guarded_body s'
                | Done BreakLoop s' => Done tt s'
                | Raised e s' => Raised e s'
                | OutOfFuel => OutOfFuel
                end
              else Done tt s) by reflexivity.
  induction n as [|n IH]; intros s Hends; rewrite Hunfold.
  - assert (Hc : cond s = false).
    { unfold cond. replace (is_running process s) with false; [reflexivity|].
      symmetry. apply is_running_false. lia. }
    rewrite Hc. exists s. destruct (Hstop s) as (evs & H). now exists evs.
  - destruct (cond s) eqn:Hc;
      [|exists s; destruct (Hstop s) as (evs & H); now exists evs].
    pose proof (guarded_body_cases s) as Hb.
    destruct (memory_info_rss w (pid process) (now s)) as [e|rss].
    + rewrite Hb. eexists. exists [MemoryInfo (pid process) (inl e)].
      repeat split. constructor.
    + destruct (over_limit self rss) eqn:Hover.
      * rewrite Hb. eexists. eexists. repeat split. now constructor.
      * rewrite Hb.
        match goal with |- context [while_ (S n) cond guarded_body ?x] =>
          destruct (IH x) as (s' & evs & Hrun & Hout & Hreg & Hw) end.
        { cbn [now at_time]. unfold TICKS_PER_SECOND in *. lia. }
        exists s', (MemoryInfo (pid process) (inr rss) :: Sleep 30 :: evs).
        split; [exact Hrun|]. split; [|split].
        -- rewrite Hout. cbn. now rewrite <- app_assoc.
        -- exact Hreg.
        -- now constructor.
Qed.

Lemma memory_check_returns (s : State) :
  exists s' evs,
    memory_check self w file_path process s = Done tt s' /\
    output s' = (output s ++ evs)%list /\
    current_processes s' = current_processes s /\
    watched self file_logger (pid process) evs /\
    (forall e, psutil_Process w (pid process) (now s) = inl e -> evs = []).
Proof.
  assert (Hcheck : memory_check self w file_path process s
    = match psutil_Process w (pid process) (now s) with
      | inl _ => Done tt s
      | inr _ =>
          match while_ (S (S (N.to_nat ((ends process - now s) / (30 * TICKS_PER_SECOND)))))
                  cond guarded_body s with
          | Done a s' => Done a s'
          | Raised _ s' => Done tt s'
          | OutOfFuel => OutOfFuel
          end
      end).
  { unfold memory_check, memory_check_fuel. unfold try_except at 1.
    unfold bind at 1, gets at 1.
    destruct (psutil_Process w (pid process) (now s)); reflexivity. }
  rewrite Hcheck. clear Hcheck.
  destruct (psutil_Process w (pid process) (now s)) as [e|u].
  - exists s, []. rewrite app_nil_r. repeat split. constructor.
  - set (n := S (N.to_nat ((ends process - now s) / (30 * TICKS_PER_SECOND)))).
    destruct (memory_loop_returns n s) as (s' & evs & Hrun & Hout & Hreg & Hw).
    + subst n. unfold TICKS_PER_SECOND.
      assert (Hq : exists q r, (ends process - now s = 30000 * q + r)%N /\ (r < 30000)%N /\
                   N.to_nat ((ends process - now s) / (30 * 1000)) = N.to_nat q).
      { exists ((ends process - now s) / 30000)%N, ((ends process - now s) mod 30000)%N.
        split; [apply N.div_mod' | split; [apply N.mod_lt; lia | reflexivity]]. }
      destruct Hq as (q & r & Hqr & Hr & ->). lia.
    + rewrite Hrun. exists s', evs. repeat split; trivial. discriminate.
Qed.

End Watchdog.

(** ** The memory watchdog, with its times *)

Section WatchdogTimes.
Variables (self : MinimalBotRunner) (w : World) (file_path : Path) (process : Popen).

Let file_logger := create_file_logger file_path.
Let guarded_body : M Ctl :=
  try_except (memory_check_body self w file_logger process) (ret BreakLoop).
Let cond : State -> bool :=
  fun s => is_running process s && negb (shutdown_requested w (now s)).

Lemma memory_loop_sampled (n : nat) :
  forall s,
    (ends process <= now s + N.of_nat n * (30 * TICKS_PER_SECOND))%N ->
    exists s' evs,
      while_ (S n) cond guarded_body s = Done tt s' /\
      output s' = (output s ++ evs)%list /\
      sampled self w file_logger process (now s) evs (now s').
Proof.
  assert (Hunfold : forall fuel s,
            while_ (S fuel) cond guarded_body s
            = if watching w process (now s) then
                match guarded_body s with
                | Done Continue s' => while_ fuel cond guarded_body s'
                | Done BreakLoop s' => Done tt s'
                | Raised e s' => Raised e s'
                | OutOfFuel => OutOfFuel
                end
              else Done tt s) by reflexivity.
  induction n as [|n IH]; intros s Hends; rewrite Hunfold.
  - assert (Hc : watching w process (now s) = false).
    { unfold watching, poll. destruct (N.ltb_spec (now s) (ends process)); [lia | reflexivity]. }
    rewrite Hc. exists s, []. rewrite app_nil_r. repeat split. now constructor.
  - destruct (watching w process (now s)) eqn:Hc;
      [|exists s, []; rewrite app_nil_r; repeat split; now constructor].
    pose proof (guarded_body_cases self w file_path process s) as Hb.
    fold file_logger in Hb. fold guarded_body in Hb.
    destruct (memory_info_rss w (pid process) (now s)) as [e|rss] eqn:E.
    + rewrite Hb. eexists. exists [MemoryInfo (pid process) (inl e)].
      repeat split. now constructor.
    + destruct (over_limit self rss) eqn:Hover.
      * rewrite Hb. eexists. eexists. repeat split. now constructor.
      * rewrite Hb.
        match goal with |- context [while_ (S n) cond guarded_body ?x] =>
          destruct (IH x) as (s' & evs & Hrun & Hout & Hs) end.
        { cbn [now at_time]. unfold TICKS_PER_SECOND in *. lia. }
        exists s', (MemoryInfo (pid process) (inr rss) :: Sleep 30 :: evs).
        split; [exact Hrun|]. split.
        -- rewrite Hout. cbn. now rewrite <- app_assoc.
        -- now apply (sampled_quiet _ _ _ _ _ rss).
Qed.

(** The watchdog returns; when the process could be looked up, its run is a
    sampled one from the time it began. *)
Lemma memory_check_sampled (s : State) :
  exists s' evs,
    memory_check self w file_path process s = Done tt s' /\
    output s' = (output s ++ evs)%list /\
    ((exists e, psutil_Process w (pid process) (now s) = inl e) /\ s' = s /\ evs = [] \/
     (exists u, psutil_Process w (pid process) (now s) = inr u) /\
     sampled self w file_logger process (now s) evs (now s')).
Proof.
  assert (Hcheck : memory_check self w file_path process s
    = match psutil_Process w (pid process) (now s) with
      | inl _ => Done tt s
      | inr _ =>
          match while_ (S (S (N.to_nat ((ends process - now s) / (30 * TICKS_PER_SECOND)))))
                  cond guarded_body s with
          | Done a s' => Done a s'
          | Raised _ s' => Done tt s'
          | OutOfFuel => OutOfFuel
          end
      end).
  { unfold memory_check, memory_check_fuel. unfold try_except at 1.
    unfold bind at 1, gets at 1.
    destruct (psutil_Process w (pid process) (now s)); reflexivity. }
  rewrite Hcheck. clear Hcheck.
  destruct (psutil_Process w (pid process) (now s)) as [e|u].
  - exists s, []. rewrite app_nil_r. repeat split. left. repeat split. now exists e.
  - set (n := S (N.to_nat ((ends process - now s) / (30 * TICKS_PER_SECOND)))).
    destruct (memory_loop_sampled n s) as (s' & evs & Hrun & Hout & Hs).
    + subst n. unfold TICKS_PER_SECOND.
      assert (Hq : exists q r, (ends process - now s = 30000 * q + r)%N /\ (r < 30000)%N /\
                   N.to_nat ((ends process - now s) / (30 * 1000)) = N.to_nat q).
      { exists ((ends process - now s) / 30000)%N, ((ends process - now s) mod 30000)%N.
        split; [apply N.div_mod' | split; [apply N.mod_lt; lia | reflexivity]]. }
      destruct Hq as (q & r & Hqr & Hr & ->). lia.
    + rewrite Hrun. exists s', evs. repeat split; trivial. right. split; [now exists u | exact Hs].
Qed.

Lemma watching_true (t : N) :
  watching w process t = true <->
  (t < ends process)%N /\ shutdown_requested w t = false.
Proof.
  unfold watching, poll. rewrite andb_true_iff, negb_true_iff.
  destruct (N.ltb_spec t (ends process)); split; intros [H1 H2]; split;
    try assumption; try reflexivity; try discriminate; lia.
Qed.

(** A sampled run ends at its beginning or less than 30 seconds after the
    last time at which the process ran with no shutdown requested. *)
Lemma sampled_ends_soon (t t' : N) (evs : list Event) :
  sampled self w file_logger process t evs t' ->
  (t <= t')%N /\
  (t' = t \/
   (t' < ends process + 30 * TICKS_PER_SECOND)%N /\
   forall T, shutdown_at w = Some T -> (t' < T + 30 * TICKS_PER_SECOND)%N).
Proof.
  induction 1 as [t Hc|t e Hc He|t rss Hc Hr Hover|t rss evs t' Hc Hr Hquiet Hs IH].
  - split; [lia | now left].
  - split; [lia | now left].
  - split; [lia | now left].
  - apply watching_true in Hc as [Hrun Hsd]. destruct IH as [Hle IH].
    unfold TICKS_PER_SECOND in *. split; [lia|]. right.
    assert (HT : forall T, shutdown_at w = Some T -> (t < T)%N).
    { intros T HT. unfold shutdown_requested in Hsd. rewrite HT in Hsd.
      apply N.leb_gt in Hsd. exact Hsd. }
    destruct IH as [->|[Hends Hsig]].
    + split; [lia|]. intros T HT'. specialize (HT T HT'). lia.
    + split; [exact Hends | exact Hsig].
Qed.

(** No sample over the ceiling, no termination and no record in the log. *)
Lemma sampled_quietly (t t' : N) (evs : list Event) :
  sampled self w file_logger process t evs t' ->
  (forall u rss, (t <= u)%N -> memory_info_rss w (pid process) u = inr rss ->
     over_limit self rss = false) ->
  terminations evs = 0 /\ forall l lv m, ~ In (Log l lv m) evs.
Proof.
  induction 1 as [t Hc|t e Hc He|t rss Hc Hr Hover|t rss evs t' Hc Hr Hquiet Hs IH];
    intros Hunder.
  - split; [reflexivity | intros l lv m []].
  - split; [reflexivity | intros l lv m [[=]|[]]].
  - rewrite (Hunder t rss (N.le_refl t) Hr) in Hover. discriminate.
  - destruct IH as [Ht Hlog].
    { intros u rss' Hu. apply Hunder. lia. }
    split; [exact Ht|]. intros l lv m [[=]|[[=]|H]]. exact (Hlog l lv m H).
Qed.

(** A sample over the ceiling at the [n]-th sampling time, after [n]
    samples under it, is answered there and then with the warning and the
    termination, which end the run. *)
Lemma sampled_catches (n : nat) :
  forall (t t' : N) (evs : list Event) (rss : Z),
    sampled self w file_logger process t evs t' ->
    (forall j, j < n ->
       quiet_at self w process (t + N.of_nat j * (30 * TICKS_PER_SECOND))) ->
    watching w process (t + N.of_nat n * (30 * TICKS_PER_SECOND)) = true ->
    memory_info_rss w (pid process) (t + N.of_nat n * (30 * TICKS_PER_SECOND)) = inr rss ->
    over_limit self rss = true ->
    evs = (quiet_samples w (pid process) t n
           ++ [MemoryInfo (pid process) (inr rss);
               Log file_logger WARNING (MsgHighMemory (inject_Z rss / 1024 / 1024)%Q);
               Terminate (pid process)])%list /\
    t' = (t + N.of_nat n * (30 * TICKS_PER_SECOND))%N.
Proof.
  induction n as [|n IH]; intros t t' evs rss Hs Hquiet Hwatch Hmem Hover.
  - replace (t + N.of_nat 0 * (30 * TICKS_PER_SECOND))%N with t in * by lia.
    destruct Hs as [t Hc|t e Hc He|t rss' Hc Hr Hover'|t rss' evs t' Hc Hr Hq Hs];
      try congruence.
    assert (rss' = rss) by congruence. subst rss'. now split.
  - destruct (Hquiet 0 ltac:(lia)) as (Hw0 & r0 & Hr0 & Hq0).
    replace (t + N.of_nat 0 * (30 * TICKS_PER_SECOND))%N with t in * by lia.
    assert (Hshift : forall j,
              (t + 30 * TICKS_PER_SECOND + N.of_nat j * (30 * TICKS_PER_SECOND)
               = t + N.of_nat (S j) * (30 * TICKS_PER_SECOND))%N) by (intros j; lia).
    destruct Hs as [t Hc|t e Hc He|t rss' Hc Hr Hover'|t rss' evs t' Hc Hr Hq Hs];
      try congruence.
    destruct (IH _ _ _ rss Hs) as [-> ->].
    + intros j Hj. rewrite Hshift. apply Hquiet. lia.
    + now rewrite Hshift.
    + now rewrite Hshift.
    + exact Hover.
    + split; [|apply Hshift]. cbn [quiet_samples app]. now rewrite Hr.
Qed.

Section Leak.
Variable (T : N).
Hypothesis no_signal : shutdown_at w = None.
Hypothesis samples_return : forall u, exists rss, memory_info_rss w (pid process) u = inr rss.
Hypothesis over_from_T :
  forall u rss, (T <= u)%N -> memory_info_rss w (pid process) u = inr rss ->
                over_limit self rss = true.

(** A sample taken from [T] on is the last. *)
Lemma sampled_late (t t' : N) (evs : list Event) :
  sampled self w file_logger process t evs t' ->
  (T <= t)%N ->
  t' = t /\ (terminations evs = 1 \/ (ends process <= t')%N).
Proof.
  destruct 1 as [t Hc|t e Hc He|t rss Hc Hr Hover|t rss evs t' Hc Hr Hquiet Hs]; intros HT.
  - split; [reflexivity|]. right.
    unfold watching, poll in Hc. rewrite (no_shutdown_requested w t no_signal) in Hc.
    destruct (N.ltb_spec t (ends process)); [discriminate | assumption].
  - destruct (samples_return t) as [rss Hr]. congruence.
  - split; [reflexivity | now left].
  - rewrite (over_from_T t rss HT Hr) in Hquiet. discriminate.
Qed.

Lemma sampled_detects (t t' : N) (evs : list Event) :
  sampled self w file_logger process t evs t' ->
  (t' < N.max t T + 30 * TICKS_PER_SECOND)%N /\
  (terminations evs = 1 \/ (ends process <= t')%N).
Proof.
  induction 1 as [t Hc|t e Hc He|t rss Hc Hr Hover|t rss evs t' Hc Hr Hquiet Hs IH].
  - unfold TICKS_PER_SECOND. split; [lia|]. right.
    unfold watching, poll in Hc. rewrite (no_shutdown_requested w t no_signal) in Hc.
    destruct (N.ltb_spec t (ends process)); [discriminate | assumption].
  - destruct (samples_return t) as [rss Hr]. congruence.
  - unfold TICKS_PER_SECOND. split; [lia | now left].
  - assert (Ht : (t < T)%N).
    { destruct (N.lt_ge_cases t T) as [H|H]; [exact H|].
      rewrite (over_from_T t rss H Hr) in Hquiet. discriminate. }
    unfold TICKS_PER_SECOND in *.
    destruct (N.lt_ge_cases (t + 30 * 1000) T) as [Hearly|Hlate].
    + destruct IH as [Hb Hend]. split; [lia | exact Hend].
    + destruct (sampled_late _ _ _ Hs Hlate) as [-> Hend]. split; [lia | exact Hend].
Qed.

End Leak.

End WatchdogTimes.

(** * The claims *)

(** C1, as stated, fails: the worker whose process always exits with 137 is
    launched five times, so it is restarted four times, after 10, 20, 30 and
    40 seconds; the fifth failure ends it, and no wait of 50 seconds occurs
    (100 seconds are slept in all). *)
Lemma C1_killed_worker_four_delays :
  exists s',
    run_single_bot Scenario.runner Scenario.killed 0 Scenario.enze (fresh 0) = Done tt s' /\
    launch_count (output s') = 5 /\
    restart_delays (output s') = [10; 20; 30; 40] /\
    seconds_slept (output s') = 100 /\
    restart_delays (output s')
    <> map (fun k => RESTART_DELAY Scenario.runner * k)
           (seq 1 (MAX_RESTARTS Scenario.runner)).
Proof.
  exists ScenarioRuns.given_up.
  split; [vm_compute; reflexivity|].
  split; [vm_compute; reflexivity|].
  split; [vm_compute; reflexivity|].
  split; [vm_compute; reflexivity|].
  vm_compute. discriminate.
Qed.

(** C1 (amended): a worker whose process exits with a restart-eligible code
    on every run, with no shutdown requested, is launched exactly MAX_RESTARTS
    times (5), that is restarted MAX_RESTARTS - 1 times; the backoff before
    restart k is RESTART_DELAY * k seconds for k = 1..MAX_RESTARTS - 1 (10, 20,
    30, 40); the failure that makes the count reach MAX_RESTARTS is answered
    with the terminal error record, and the worker returns with nothing
    launched after it. *)
Theorem C1_failing_worker_restarts (self : MinimalBotRunner) (w : World) (i : nat)
  (file_path : Path) (s0 : State) :
  0 < MAX_RESTARTS self ->
  shutdown_at w = None ->
  (forall t, path_exists w file_path t = inr true) ->
  (forall n, exists pid rt code,
      subprocess_Popen w i n = PopenStarts pid rt code /\ restart_eligible code = true) ->
  exists s' evs,
    run_single_bot self w i file_path s0 = Done tt s' /\
    output s' = (output s0 ++ evs)%list /\
    launch_count evs = MAX_RESTARTS self /\
    restart_delays evs
    = map (fun k => RESTART_DELAY self * k) (seq 1 (MAX_RESTARTS self - 1)) /\
    restart_count s' = MAX_RESTARTS self /\
    exists evs0,
      evs = (evs0 ++ [Log (create_file_logger file_path) ERROR MsgMaxRestarts])%list.
Proof.
  intros Hmax Hsig Hfile Hfail.
  destruct (failing_worker self w i file_path Hsig Hfile Hfail (MAX_RESTARTS self)
              (worker_start s0) Hmax eq_refl)
    as (s' & evs & Hrun & Hout & Hcount & _ & Hdelays & Hlast).
  exists s', evs. unfold run_single_bot, launch_count, restart_delays.
  rewrite (Hdelays 0). cbn [restart_count worker_start Nat.add tl List.length].
  rewrite length_map, length_seq.
  repeat split; try assumption. lia.
Qed.

(** C1 (amended) on the worker of [Scenario.killed]. *)
Lemma C1_failing_worker_restarts_witness :
  exists s' evs,
    run_single_bot Scenario.runner Scenario.killed 0 Scenario.enze (fresh 0) = Done tt s' /\
    output s' = evs /\
    launch_count evs = 5 /\
    restart_delays evs = [10; 20; 30; 40].
Proof.
  destruct (C1_failing_worker_restarts Scenario.runner Scenario.killed 0 Scenario.enze
              (fresh 0))
    as (s' & evs & H1 & H2 & H3 & H4 & _).
  - cbn. lia.
  - reflexivity.
  - intros t. reflexivity.
  - intros n. exists (100 + n), 2500%N, 137%Z. split; reflexivity.
  - exists s', evs. repeat split; assumption.
Defined.

(** C2: [restart_count] never exceeds [MAX_RESTARTS] in any configuration the
    worker reaches, the one in which [run_single_bot] ends included (it
    returns, unless an [exists()] that raises ends it with that error); and
    once it equals [MAX_RESTARTS] nothing more happens: every configuration
    reachable from there has the same state (no launch, no output), the worker
    can only stop, and a stopped worker has no step. *)
Theorem C2_restart_count_bounded (self : MinimalBotRunner) (w : World) (i : nat)
  (file_path : Path) (s0 : State) :
  (exists s',
     (run_single_bot self w i file_path s0 = Done tt s' /\
      reaches self w i file_path (Looping (worker_start s0)) (Stopped s') \/
      exists e,
        run_single_bot self w i file_path s0 = Raised e s' /\
        path_exists w file_path (now s') = inl e /\
        reaches self w i file_path (Looping (worker_start s0)) (Crashed e s')) /\
     ((forall t, exists found, path_exists w file_path t = inr found) ->
      run_single_bot self w i file_path s0 = Done tt s')) /\
  forall c,
    reaches self w i file_path (Looping (worker_start s0)) c ->
    restart_count (state_of c) <= MAX_RESTARTS self /\
    (restart_count (state_of c) = MAX_RESTARTS self ->
     forall c', reaches self w i file_path c c' ->
       (c' = c \/ c' = Stopped (state_of c)) /\
       state_of c' = state_of c /\
       step self w i file_path (Stopped (state_of c)) = None).
Proof.
  split.
  - destruct (run_single_bot_returns self w i file_path s0)
      as (s' & [Hrun|(e & Hrun & He)] & _).
    + exists s'. split; [|intros _; exact Hrun]. left. split; [exact Hrun|].
      exact (while_loop_reaches self w i file_path _ _ _ Hrun).
    + exists s'. split.
      * right. exists e. split; [exact Hrun|]. split; [exact He|].
        exact (while_loop_crashes self w i file_path _ _ _ _ Hrun).
      * intros Hf. destruct (Hf (now s')) as [b Hb]. congruence.
  - intros c Hr. split.
    + apply (reaches_restart_count self w i file_path _ _ Hr). cbn. lia.
    + intros Hmax c' Hr'.
      destruct (reaches_exhausted self w i file_path c c' Hmax Hr') as [->| ->];
        repeat split; auto.
Qed.

(** C2 on the worker of [Scenario.killed], in the configuration where its
    count is full. *)
Lemma C2_restart_count_bounded_witness :
  restart_count ScenarioRuns.given_up = 5 /\
  restart_count ScenarioRuns.given_up <= MAX_RESTARTS Scenario.runner /\
  forall c',
    reaches Scenario.runner Scenario.killed 0 Scenario.enze
      (Looping ScenarioRuns.given_up) c' ->
    state_of c' = ScenarioRuns.given_up.
Proof.
  assert (Hr : reaches Scenario.runner Scenario.killed 0 Scenario.enze
                 (Looping (worker_start (fresh 0))) (Looping ScenarioRuns.given_up)).
  { do 5 (eapply reaches_step; [vm_compute; reflexivity|]). apply reaches_refl. }
  destruct (proj2 (C2_restart_count_bounded Scenario.runner Scenario.killed 0
                     Scenario.enze (fresh 0)) (Looping ScenarioRuns.given_up) Hr)
    as [Hle Hstop].
  split; [reflexivity | split; [exact Hle|]].
  intros c' Hc'. exact (proj1 (proj2 (Hstop eq_refl c' Hc'))).
Defined.

(** C3: when the process exits with code 0 the worker stops: the loop is left
    at once, whatever [restart_count] is, without a further launch and with
    [restart_count] unchanged. *)
Theorem C3_exit_zero_stops (self : MinimalBotRunner) (w : World) (i : nat)
  (file_path : Path) (s : State) (fuel pid : nat) (rt : N) :
  loop_cond self w s = true ->
  path_exists w file_path (now s) = inr true ->
  subprocess_Popen w i (launches s) = PopenStarts pid rt 0 ->
  exists s',
    while_loop (S fuel) self w i file_path s = Done tt s' /\
    step self w i file_path (Looping s) = Some (Stopped s') /\
    step self w i file_path (Stopped s') = None /\
    restart_count s' = restart_count s /\
    launches s' = S (launches s) /\
    output s' = (output s ++ launch_events w file_path pid
                   ++ [Log (create_file_logger file_path) INFO (MsgEnded 0 rt);
                       Log (create_file_logger file_path) INFO MsgCompleted])%list.
Proof.
  intros Hc He Hp.
  pose proof (loop_body_launched self w i file_path s pid rt 0%Z He Hp) as Hb.
  cbn -[ran] in Hb.
  eexists. split; [|split; [|split; [|split; [|split]]]].
  - cbn [while_loop]. rewrite Hc, Hb. reflexivity.
  - cbn [step]. rewrite Hc, Hb. reflexivity.
  - reflexivity.
  - reflexivity.
  - reflexivity.
  - cbn. now rewrite <- !app_assoc.
Qed.

(** C3 on a worker that has restarted three times and whose process now
    exits with 0. *)
Lemma C3_exit_zero_stops_witness :
  exists s',
    while_loop 3 Scenario.runner Scenario.clean 0 Scenario.enze Scenario.third_restart
    = Done tt s' /\ restart_count s' = 3 /\ launches s' = 4.
Proof.
  destruct (C3_exit_zero_stops Scenario.runner Scenario.clean 0 Scenario.enze
              Scenario.third_restart 2 103 2500)
    as (s' & H1 & _ & _ & H2 & H3 & _); [reflexivity | reflexivity | reflexivity |].
  exists s'. repeat split; assumption.
Defined.

(** C4: a shutdown request that arrives while the worker waits out a restart
    backoff ends the wait less than one second (one sleep of the loop) later:
    the worker has then only slept, [k] times, and returns without another
    launch. *)
Theorem C4_shutdown_interrupts_backoff (self : MinimalBotRunner) (w : World) (i : nat)
  (file_path : Path) (s : State) (fuel pid : nat) (rt : N) (code : Z) (T : N) :
  loop_cond self w s = true ->
  path_exists w file_path (now s) = inr true ->
  subprocess_Popen w i (launches s) = PopenStarts pid rt code ->
  restart_eligible code = true ->
  restart_count s + 1 < MAX_RESTARTS self ->
  shutdown_at w = Some T ->
  let delay := RESTART_DELAY self * (restart_count s + 1) in
  (now s + rt <= T)%N ->
  (T <= now s + rt + N.of_nat delay * TICKS_PER_SECOND)%N ->
  exists s' k,
    while_loop (S (S fuel)) self w i file_path s = Done tt s' /\
    k <= delay /\
    s' = sleeps k
           (log (create_file_logger file_path) WARNING
              (MsgRestart (restart_count s + 1) delay)
              (set_restart_count (restart_count s + 1) (ran w file_path pid rt code s))) /\
    launches s' = S (launches s) /\
    (T <= now s')%N /\ (now s' < T + TICKS_PER_SECOND)%N.
Proof.
  intros Hc He Hp Hcode Hr HT delay Hlo Hhi.
  pose proof (loop_body_launched self w i file_path s pid rt code He Hp) as Hb.
  unfold restart_eligible in Hcode. apply andb_true_iff in Hcode as [Hz Hm].
  apply negb_true_iff in Hz, Hm.
  cbn zeta in Hb. rewrite Hz, Hm in Hb.
  apply Nat.ltb_lt in Hr as Hr'. rewrite Hr' in Hb. fold delay in Hb.
  set (s3 := log (create_file_logger file_path) WARNING
               (MsgRestart (restart_count s + 1) delay)
               (set_restart_count (restart_count s + 1) (ran w file_path pid rt code s)))
    in *.
  assert (Hnow3 : now s3 = (now s + rt)%N) by reflexivity.
  assert (Hsd : forall t, shutdown_requested w t = (T <=? t)%N)
    by (intros t; unfold shutdown_requested; now rewrite HT).
  unfold TICKS_PER_SECOND in *.
  set (k := N.to_nat ((T - (now s + rt) + 999) / 1000)).
  assert (Hk : exists q r, (T - (now s + rt) + 999 = 1000 * q + r)%N /\ (r < 1000)%N /\
                           N.of_nat k = q).
  { exists ((T - (now s + rt) + 999) / 1000)%N, ((T - (now s + rt) + 999) mod 1000)%N.
    split; [apply N.div_mod' | split; [apply N.mod_lt; lia | apply N2Nat.id]]. }
  destruct Hk as (q & r & Hqr & Hr1000 & Hkq). clearbody k.
  assert (Hk1 : (T <= now s + rt + N.of_nat k * 1000)%N) by lia.
  assert (Hk2 : (now s + rt + N.of_nat k * 1000 < T + 1000)%N) by lia.
  assert (Hkd : k <= delay) by nia.
  assert (Hbefore : forall j, j < k ->
            shutdown_requested w (now s3 + N.of_nat j * 1000) = false).
  { intros j Hj. rewrite Hsd, Hnow3. apply N.leb_gt. nia. }
  assert (Hat : shutdown_requested w (now s3 + N.of_nat k * 1000) = true).
  { rewrite Hsd, Hnow3. apply N.leb_le. lia. }
  exists (sleeps k s3), k.
  assert (Hnow' : now (sleeps k s3) = (now s + rt + N.of_nat k * 1000)%N) by reflexivity.
  split; [|split; [exact Hkd | split; [reflexivity | split; [reflexivity | split]]]].
  - cbn [while_loop]. rewrite Hc, Hb.
    destruct (Nat.eq_dec k delay) as [Heq|Hne].
    + rewrite (backoff_runs w delay s3) by (intros j Hj; apply Hbefore; lia).
      rewrite <- Heq. cbn [while_loop].
      assert (Hlc : loop_cond self w (sleeps k s3) = false).
      { unfold loop_cond. change (now (sleeps k s3)) with (now s3 + N.of_nat k * 1000)%N.
        now rewrite Hat. }
      now rewrite Hlc.
    + rewrite (backoff_interrupted w delay k s3); [reflexivity | lia | exact Hbefore | exact Hat].
  - rewrite Hnow'. exact Hk1.
  - rewrite Hnow'. exact Hk2.
Qed.

(** C4 on the worker of [Scenario.interrupted]: the second backoff starts at
    15 s, the signal arrives at 17.3 s, the worker returns at 18 s. *)
Lemma C4_shutdown_interrupts_backoff_witness :
  exists s',
    while_loop 2 Scenario.runner Scenario.interrupted 0 Scenario.enze
      (mkState 12500 [] [] 1 1) = Done tt s' /\
    launches s' = 2 /\ (17300 <= now s')%N /\ (now s' < 18300)%N.
Proof.
  destruct (C4_shutdown_interrupts_backoff Scenario.runner Scenario.interrupted 0
              Scenario.enze (mkState 12500 [] [] 1 1) 0 101 2500 137 17300)
    as (s' & k & H1 & _ & _ & H2 & H3 & H4);
    [reflexivity | reflexivity | reflexivity | reflexivity | cbn; lia | reflexivity
    | cbn; lia | cbn; lia |].
  exists s'. repeat split; assumption.
Defined.

(** Stripping a line does not change its class. *)
Lemma is_info_message_strip (line : string) :
  is_info_message (Text.strip line) = is_info_message line.
Proof.
  destruct (is_info_message line) eqn:E.
  - apply is_info_message_iff in E as (k & Hk & H).
    apply is_info_message_iff. exists k. split; [exact Hk|].
    rewrite TextFacts.lower_strip. now apply keyword_survives_strip.
  - destruct (is_info_message (Text.strip line)) eqn:E'; [|reflexivity].
    apply is_info_message_iff in E' as (k & Hk & H).
    assert (E'' : is_info_message line = true).
    { apply is_info_message_iff. exists k. split; [exact Hk|].
      eapply TextFacts.Substring_trans; [exact H|].
      apply TextFacts.lower_Substring, TextFacts.strip_Substring. }
    congruence.
Qed.

(** C5, as stated, fails: a line that contains Traceback and also one of the
    keywords (here polling) is forwarded as informational. *)
Lemma C5_traceback_with_keyword_is_info :
  Text.Substring "Traceback" "Traceback (most recent call last) in polling loop" /\
  stderr_line (Bot "enze") "Traceback (most recent call last) in polling loop" (fresh 0)
  = log (Bot "enze") INFO (MsgLine "Traceback (most recent call last) in polling loop")
        (fresh 0).
Proof.
  split; [|reflexivity].
  now exists "", " (most recent call last) in polling loop".
Qed.

(** C5 (amended): a stderr line is informational exactly when its lowercase
    form contains one of the eight keywords, and error otherwise;
    informational lines are logged at INFO, error lines at ERROR behind the
    alarm marker, both stripped.  A line containing Successfully connected is
    informational; a line containing Traceback is error when it contains none
    of the keywords, and the text forwarded still contains Traceback. *)
Theorem C5_stderr_classification (file_logger : Logger) (line : string) (s : State) :
  line <> "" ->
  let informational :=
    exists keyword, In keyword info_keywords /\
                    Text.Substring keyword (Text.lower line) in
  (informational ->
   stderr_line file_logger line s = log file_logger INFO (MsgLine (Text.strip line)) s) /\
  (~ informational ->
   stderr_line file_logger line s = log file_logger ERROR (MsgAlarm (Text.strip line)) s) /\
  (is_info_message (Text.strip line) = true <-> informational) /\
  (Text.Substring "Successfully connected" line -> informational) /\
  (Text.Substring "Traceback" line -> Text.Substring "Traceback" (Text.strip line)).
Proof.
  intros Hline informational.
  assert (Hclass : is_info_message (Text.strip line) = true <-> informational).
  { rewrite is_info_message_strip. apply is_info_message_iff. }
  assert (Hrun : stderr_line file_logger line s
                 = if is_info_message (Text.strip line)
                   then log file_logger INFO (MsgLine (Text.strip line)) s
                   else log file_logger ERROR (MsgAlarm (Text.strip line)) s).
  { unfold stderr_line. now destruct (String.eqb_spec line ""). }
  split; [|split; [|split; [exact Hclass | split]]].
  - intros Hinfo. apply Hclass in Hinfo. now rewrite Hrun, Hinfo.
  - intros Herr. rewrite Hrun.
    destruct (is_info_message (Text.strip line)); [|reflexivity].
    exfalso. now apply Herr, Hclass.
  - intros H. exists "successfully". split; [cbn; tauto|].
    apply TextFacts.lower_Substring in H.
    eapply TextFacts.Substring_trans; [|exact H].
    now exists "", " connected".
  - apply (TextFacts.strip_keeps "T" "racebac" "k"); reflexivity.
Qed.

(** C5 (amended) on the first line of a Python traceback. *)
Lemma C5_stderr_classification_witness :
  stderr_line (Bot "enze") "Traceback (most recent call last):" (fresh 0)
  = log (Bot "enze") ERROR (MsgAlarm "Traceback (most recent call last):") (fresh 0).
Proof.
  destruct (C5_stderr_classification (Bot "enze") "Traceback (most recent call last):"
              (fresh 0)) as (_ & H & _); [discriminate|].
  apply H. intros (k & Hk & Hs). apply TextFacts.contains_Substring in Hs.
  cbn in Hk.
  destruct Hk as [<-|[<-|[<-|[<-|[<-|[<-|[<-|[<-|[]]]]]]]]]; vm_compute in Hs;
    discriminate Hs.
Defined.

(** C6: when [start_process] fails, because the file is not there or because
    the launch raises, the worker leaves its loop at once: [restart_count],
    the dictionary and the clock are as before, no process is registered and
    nothing is launched afterwards. *)
Theorem C6_spawn_failure_stops (self : MinimalBotRunner) (w : World) (i : nat)
  (file_path : Path) (s : State) (fuel : nat) :
  loop_cond self w s = true ->
  path_exists w file_path (now s) = inr false \/
  path_exists w file_path (now s) = inr true /\
  subprocess_Popen w i (launches s) = PopenRaises ->
  exists s',
    while_loop (S fuel) self w i file_path s = Done tt s' /\
    step self w i file_path (Looping s) = Some (Stopped s') /\
    step self w i file_path (Stopped s') = None /\
    restart_count s' = restart_count s /\
    current_processes s' = current_processes s /\
    now s' = now s /\
    (output s' = (output s ++ [Log MinimalRunner ERROR (MsgFileNotFound file_path)])%list \/
     output s' = (output s ++
                    [Log (create_file_logger file_path) INFO MsgStarting;
                     PopenCall [sys_executable w; str file_path] (parent file_path);
                     Log (create_file_logger file_path) ERROR MsgStartFailed])%list).
Proof.
  intros Hc [He|[He Hp]]; [|rename He into He'].
  2: { pose proof (start_process_raises w i file_path s He' Hp) as Hs.
    eexists. split; [|split; [|split; [|split; [|split; [|split]]]]].
    + cbn [while_loop]. rewrite Hc. unfold loop_body. rewrite Hs. reflexivity.
    + cbn [step]. rewrite Hc. unfold loop_body. rewrite Hs. reflexivity.
    + reflexivity.
    + reflexivity.
    + reflexivity.
    + reflexivity.
    + right. reflexivity. }
  - pose proof (start_process_missing w i file_path s He) as Hs.
    eexists. split; [|split; [|split; [|split; [|split; [|split]]]]].
    + cbn [while_loop]. rewrite Hc. unfold loop_body. rewrite Hs. reflexivity.
    + cbn [step]. rewrite Hc. unfold loop_body. rewrite Hs. reflexivity.
    + reflexivity.
    + reflexivity.
    + reflexivity.
    + reflexivity.
    + left. reflexivity.
Qed.

(** C6 on a worker that has restarted three times and whose launch is now
    refused. *)
Lemma C6_spawn_failure_stops_witness :
  exists s',
    while_loop 3 Scenario.runner Scenario.refused 0 Scenario.enze Scenario.third_restart
    = Done tt s' /\ restart_count s' = 3 /\ current_processes s' = [].
Proof.
  destruct (C6_spawn_failure_stops Scenario.runner Scenario.refused 0 Scenario.enze
              Scenario.third_restart 2)
    as (s' & H1 & _ & _ & H2 & H3 & _); [reflexivity | right; split; reflexivity |].
  exists s'. repeat split; assumption.
Defined.

(** C7: the watchdog of a process instance always returns, without an
    exception.  When the process can be looked up its run is a sampled one:
    from the time it begins it takes a sample every 30 seconds while the
    process runs and no shutdown is requested.  A sample over the ceiling (400
    MB by default) at a sampling time, after samples under it, is answered
    there and then: the watchdog logs the warning, calls [terminate()], exactly
    once, and returns; that sample is the last one taken.  It never calls
    [terminate()] more than once; when a sample fails the watchdog ends there,
    with nothing logged and nothing terminated; when the process cannot be
    looked up the watchdog does nothing at all. *)
Theorem C7_memory_watchdog (self : MinimalBotRunner) (w : World) (file_path : Path)
  (process : Popen) (s : State) :
  exists s' evs,
    memory_check self w file_path process s = Done tt s' /\
    output s' = (output s ++ evs)%list /\
    terminations evs <= 1 /\
    (forall rss,
       In (MemoryInfo (pid process) (inr rss)) evs ->
       (MEMORY_LIMIT_MB self * 1024 * 1024 < rss)%Z ->
       terminations evs = 1 /\
       exists before,
         evs = (before ++
                [MemoryInfo (pid process) (inr rss);
                 Log (create_file_logger file_path) WARNING
                   (MsgHighMemory (inject_Z rss / 1024 / 1024)%Q);
                 Terminate (pid process)])%list /\
         terminations before = 0 /\
         forall rss', In (MemoryInfo (pid process) (inr rss')) before ->
                      (rss' <= MEMORY_LIMIT_MB self * 1024 * 1024)%Z) /\
    (forall e,
       In (MemoryInfo (pid process) (inl e)) evs ->
       terminations evs = 0 /\
       exists before, evs = (before ++ [MemoryInfo (pid process) (inl e)])%list) /\
    (forall e, psutil_Process w (pid process) (now s) = inl e -> evs = []) /\
    ((exists u, psutil_Process w (pid process) (now s) = inr u) ->
     sampled self w (create_file_logger file_path) process (now s) evs (now s') /\
     (watching w process (now s) = true ->
      exists rest,
        evs = MemoryInfo (pid process) (memory_info_rss w (pid process) (now s)) :: rest) /\
     forall n rss,
       (forall j, j < n ->
          quiet_at self w process (now s + N.of_nat j * (30 * TICKS_PER_SECOND))) ->
       watching w process (now s + N.of_nat n * (30 * TICKS_PER_SECOND)) = true ->
       memory_info_rss w (pid process) (now s + N.of_nat n * (30 * TICKS_PER_SECOND))
       = inr rss ->
       (MEMORY_LIMIT_MB self * 1024 * 1024 < rss)%Z ->
       evs = (quiet_samples w (pid process) (now s) n
              ++ [MemoryInfo (pid process) (inr rss);
                  Log (create_file_logger file_path) WARNING
                    (MsgHighMemory (inject_Z rss / 1024 / 1024)%Q);
                  Terminate (pid process)])%list /\
       terminations evs = 1 /\
       now s' = (now s + N.of_nat n * (30 * TICKS_PER_SECOND))%N).
Proof.
  destruct (memory_check_returns self w file_path process s)
    as (s' & evs & Hrun & Hout & _ & Hw & Hlookup).
  exists s', evs. split; [exact Hrun|]. split; [exact Hout|].
  assert (Hover : forall rss,
            In (MemoryInfo (pid process) (inr rss)) evs ->
            (MEMORY_LIMIT_MB self * 1024 * 1024 < rss)%Z ->
            terminations evs = 1 /\
            exists before,
              evs = (before ++
                     [MemoryInfo (pid process) (inr rss);
                      Log (create_file_logger file_path) WARNING
                        (MsgHighMemory (inject_Z rss / 1024 / 1024)%Q);
                      Terminate (pid process)])%list /\
              terminations before = 0 /\
              forall rss', In (MemoryInfo (pid process) (inr rss')) before ->
                           (rss' <= MEMORY_LIMIT_MB self * 1024 * 1024)%Z).
  { intros rss Hin Hrss. apply over_limit_bytes in Hrss.
    destruct (watched_over_last _ _ _ _ _ Hw Hin Hrss) as (Ht & before & E & Hb & Hs).
    split; [exact Ht|]. exists before. repeat split; trivial.
    intros rss' H'. apply Hs in H'.
    destruct (Z.lt_ge_cases (MEMORY_LIMIT_MB self * 1024 * 1024) rss') as [Hlt|Hge];
      [|exact Hge].
    apply over_limit_bytes in Hlt. congruence. }
  split; [exact (watched_terminations _ _ _ _ Hw)|].
  split; [exact Hover|].
  split; [intros e Hin; exact (watched_failure_last _ _ _ _ _ Hw Hin)|].
  split; [exact Hlookup|].
  intros [u Hu].
  destruct (memory_check_sampled self w file_path process s)
    as (s2 & evs2 & Hrun2 & Hout2 & [([e He] & _)|(_ & Hs)]); [congruence|].
  rewrite Hrun in Hrun2. injection Hrun2 as <-.
  rewrite Hout in Hout2. apply app_inv_head in Hout2. subst evs2.
  split; [exact Hs|]. split.
  - intros Hwatch.
    destruct Hs as [t Hc|t e Hc He|t rss Hc Hr Hq|t rss evs t' Hc Hr Hq Hs];
      try congruence; rewrite ?He, ?Hr; eexists; reflexivity.
  - intros n rss Hquiet Hwatch Hmem Hrss.
    assert (Hrss' : over_limit self rss = true) by (now apply over_limit_bytes).
    destruct (sampled_catches self w file_path process n _ _ _ rss Hs Hquiet Hwatch Hmem
                Hrss') as [Hevs Hnow].
    split; [exact Hevs|]. split; [|exact Hnow].
    apply (Hover rss); [|exact Hrss].
    rewrite Hevs. apply in_or_app. right. now left.
Qed.

(** C7 on the process of [Scenario.leaking]: after two samples of 100 MB, the
    sample taken at one minute is of 500 MB; the watchdog calls [terminate()]
    once and returns then. *)
Lemma C7_memory_watchdog_witness :
  exists s' evs,
    memory_check Scenario.runner Scenario.leaking Scenario.enze (mkPopen 7 0 200000 0)
      (fresh 0) = Done tt s' /\
    output s' = evs /\
    terminations evs = 1 /\
    In (Terminate 7) evs /\
    now s' = 60000%N.
Proof.
  destruct (C7_memory_watchdog Scenario.runner Scenario.leaking Scenario.enze
              (mkPopen 7 0 200000 0) (fresh 0))
    as (s' & evs & Hrun & Hout & _ & _ & _ & _ & H).
  destruct H as (_ & _ & H); [now exists tt|].
  destruct (H 2 524288000%Z) as (Hevs & Ht & Hnow).
  - intros [|[|j]] Hj; [| |lia]; (split; [reflexivity|]);
      exists 104857600%Z; split; reflexivity.
  - reflexivity.
  - reflexivity.
  - cbn. lia.
  - exists s', evs. split; [exact Hrun|]. split; [exact Hout|]. split; [exact Ht|].
    split; [|exact Hnow]. rewrite Hevs. apply in_or_app. right. right. right. now left.
Defined.

(** C8, as stated, fails: a single worker whose process exits with 0 leaves
    the handle of that process in the dictionary when [run] returns. *)
Lemma C8_registry_not_emptied :
  exists s',
    run Scenario.runner Scenario.clean (fresh 0) = Done tt s' /\
    current_processes s' = [("enze.py", mkPopen 100 0 2500 0)] /\
    current_processes s' <> [].
Proof.
  eexists. split; [vm_compute; reflexivity|].
  split; [reflexivity | discriminate].
Qed.

(** C8 (amended): when [run] ends (it returns, unless an [exists()] of the
    validation raises, which ends it with that error before anything is
    registered), every handle left in the dictionary is the handle of a
    process that has exited, but the dictionary need not be empty:
    [stop_process] takes out only the handle of a process that is still
    running when it is called, and a worker never takes its handle out.  When
    [run] returns and no signal arrived, the worker of every valid file whose
    first launch succeeded still has a handle registered under the file's
    path. *)
Theorem C8_registry_after_run (self : MinimalBotRunner) (w : World) (t : N) :
  exists o s',
    run self w (fresh t) = o /\
    run_ends self w t o s' /\
    (forall key process,
       Dict.get key (current_processes s') = Some process ->
       poll process (now s') = Some (returncode process)) /\
    (forall s, all_exited s -> stop_all_processes w s = Done tt s) /\
    (shutdown_at w = None ->
     0 < MAX_RESTARTS self ->
     o = Done tt s' ->
     forall i file_path pid rt code,
       nth_error (valid_files w t (bot_files self)) i = Some file_path ->
       subprocess_Popen w i 0 = PopenStarts pid rt code ->
       Dict.get (str file_path) (current_processes s') <> None).
Proof.
  assert (Hpoll : forall s, all_exited s ->
            forall key process, Dict.get key (current_processes s) = Some process ->
              poll process (now s) = Some (returncode process)).
  { intros s Hall key process H. apply Hall in H. unfold poll.
    destruct (N.ltb_spec (now s) (ends process)); [lia | reflexivity]. }
  destruct (run_returns self w t)
    as [(before & e & Hfe & Hrun)
       |[(Hfe & Hvalid & Hrun)
        |(Hfe & Hvalid & s2 & s3 & Hws & _ & Hall3 & Hnone & Hrun & _)]].
  - eexists. eexists. split; [exact Hrun|].
    split; [right; now exists before, e|]. split; [|split].
    + intros key process H. discriminate H.
    + apply stop_all_processes_exited.
    + intros _ _ [=].
  - eexists. eexists. split; [exact Hrun|]. split; [now left|]. split; [|split].
    + intros key process H. discriminate H.
    + apply stop_all_processes_exited.
    + intros _ _ _ i file_path pid rt code Hnth. rewrite Hvalid in Hnth.
      now destruct i.
  - eexists. eexists. split; [exact Hrun|]. split; [now left|]. split; [|split].
    + intros key process H. apply (Hpoll s3 Hall3 key process H).
    + apply stop_all_processes_exited.
    + intros Hsig Hmax _ i file_path pid rt code Hnth Hp.
      cbn [current_processes emit]. rewrite (Hnone Hsig).
      refine (workers_register self w t _ Hsig Hmax 0 i _ s2 file_path pid rt code Hnth
                _ Hp Hws).
      apply nth_error_In in Hnth. now apply valid_files_In in Hnth.
Qed.




(** C10: every process a worker launches is [sys.executable] with the path
    of the worker's file as its only argument, in the directory that contains
    the file, and a worker that starts with no shutdown requested on a file
    that is there does make that launch; this holds for each worker and so for
    a run of the group, where every launch is for one of the configured files
    and, when [run] returns and no signal arrived, every configured file that
    is there is launched so. *)
Theorem C10_launch_command (self : MinimalBotRunner) (w : World) :
  (forall (i : nat) (file_path : Path) (s : State),
     exists o s' evs,
       run_single_bot self w i file_path s = o /\
       worker_ends w file_path o s' /\
       output s' = (output s ++ evs)%list /\
       (forall args cwd, In (PopenCall args cwd) evs ->
          args = [sys_executable w; str file_path] /\ cwd = parent file_path) /\
       (shutdown_requested w (now s) = false ->
        0 < MAX_RESTARTS self ->
        path_exists w file_path (now s) = inr true ->
        exists rest,
          evs = Log (create_file_logger file_path) INFO MsgStarting
                :: PopenCall [sys_executable w; str file_path] (parent file_path)
                :: rest)) /\
  (forall t : N,
     exists o s',
       run self w (fresh t) = o /\
       run_ends self w t o s' /\
       (forall args cwd, In (PopenCall args cwd) (output s') ->
          exists file_str, In file_str (bot_files self) /\
            args = [sys_executable w; str (PathParse.Path_of_string file_str)] /\
            cwd = parent (PathParse.Path_of_string file_str)) /\
       (shutdown_at w = None ->
        0 < MAX_RESTARTS self ->
        o = Done tt s' ->
        forall file_str,
          In file_str (bot_files self) ->
          path_exists w (PathParse.Path_of_string file_str) t = inr true ->
          In (PopenCall [sys_executable w; str (PathParse.Path_of_string file_str)]
                (parent (PathParse.Path_of_string file_str)))
             (output s'))).
Proof.
  split.
  - intros i file_path s.
    destruct (run_single_bot_returns self w i file_path s)
      as (s' & Hends & _ & _ & _ & evs & Hout & Hev).
    eexists. exists s', evs. split; [reflexivity|]. split; [exact Hends|].
    split; [exact Hout|]. split.
    + intros args cwd H. rewrite Forall_forall in Hev. exact (Hev _ H).
    + intros Hsd Hmax He.
      destruct (run_single_bot_launches self w i file_path s s' Hsd Hmax He Hends)
        as (rest & Hout').
      exists rest. rewrite Hout in Hout'. now apply app_inv_head in Hout'.
  - intros t. destruct (run_output self w t) as (o & s' & evs & Hrun & Hends & Hout & Hev).
    exists o, s'. split; [exact Hrun|]. split; [exact Hends|]. split.
    + intros args cwd Hin.
      rewrite Hout in Hin. destruct Hin as [Hin|Hin]; [discriminate|].
      apply in_app_or in Hin as [Hin|Hin].
      * apply validation_record_is_log in Hin as (f & _ & Hf).
        destruct (found w t (PathParse.Path_of_string f)); discriminate.
      * rewrite Forall_forall in Hev. apply Hev in Hin as (p & Hp & -> & ->).
        apply valid_files_In in Hp as [(f & Hf & ->) _]. now exists f.
    + intros Hsig Hmax Hdone f Hf He.
      assert (Hvalid : In (PathParse.Path_of_string f) (valid_files w t (bot_files self)))
        by (apply valid_files_In; split; [now exists f | exact He]).
      destruct (run_returns self w t)
        as [(before & e & _ & Hrun')
           |[(_ & Hnil & _)
            |(_ & _ & s2 & s3 & Hws & _ & _ & Hnone & Hrun' & _)]].
      * rewrite Hrun, Hdone in Hrun'. discriminate Hrun'.
      * now rewrite Hnil in Hvalid.
      * rewrite Hrun, Hdone in Hrun'. injection Hrun' as ->.
        cbn [output emit]. apply in_or_app. left. rewrite (Hnone Hsig).
        exact (workers_launch self w t _ Hsig Hmax 0 _ _ _ Hvalid He Hws).
Qed.

(** C10 on the worker of [Scenario.clean] and on the run of its group. *)
Lemma C10_launch_command_witness :
  (exists o s',
     run_single_bot Scenario.runner Scenario.clean 0 Scenario.enze (fresh 0) = o /\
     worker_ends Scenario.clean Scenario.enze o s' /\
     In (PopenCall ["/usr/bin/python3"; "enze.py"] (mkPath "" [])) (output s')) /\
  (exists s',
     run Scenario.runner Scenario.clean (fresh 0) = Done tt s' /\
     In (PopenCall ["/usr/bin/python3"; "enze.py"] (mkPath "" [])) (output s')).
Proof.
  destruct (C10_launch_command Scenario.runner Scenario.clean) as [Hworker Hrun].
  split.
  - destruct (Hworker 0 Scenario.enze (fresh 0)) as (o & s' & evs & Ho & Hends & Hout & _ & H).
    destruct H as (rest & ->); [reflexivity | cbn; lia | reflexivity |].
    exists o, s'. split; [exact Ho|]. split; [exact Hends|].
    rewrite Hout. right. now left.
  - destruct (Hrun 0%N) as (o & s' & Ho & Hends & _ & H).
    assert (Hdone : o = Done tt s').
    { destruct Hends as [[Hd _]|(before & e & _ & Hfe)]; [exact Hd|].
      vm_compute in Hfe. discriminate Hfe. }
    exists s'. split; [now rewrite Ho|].
    apply (H eq_refl ltac:(cbn; lia) Hdone "enze.py"); [now left | reflexivity].
Defined.

(** * Further properties *)

(** ** The worker, turn by turn *)

Section Turns.
Variables (self : MinimalBotRunner) (w : World) (i : nat) (file_path : Path).

Lemma manual_termination_In (code : Z) :
  existsb (Z.eqb code) manual_termination = true <-> In code manual_termination.
Proof.
  rewrite existsb_exists. split.
  - intros (x & Hx & E). apply Z.eqb_eq in E. now subst.
  - intros H. exists code. split; [exact H | apply Z.eqb_refl].
Qed.

(** The backoff runs to its end or is cut at the first second at whose
    beginning the shutdown flag is up. *)
Lemma backoff_cases (d : nat) (s : State) :
  (backoff w d s = Next (sleeps d s) /\
   forall j, j < d ->
     shutdown_requested w (now s + N.of_nat j * TICKS_PER_SECOND) = false) \/
  (exists k, k < d /\ backoff w d s = Return (sleeps k s) /\
     shutdown_requested w (now s + N.of_nat k * TICKS_PER_SECOND) = true).
Proof.
  revert s. induction d as [|d IH]; intros s.
  - left. cbn [backoff]. rewrite sleeps_0. split; [reflexivity | intros j Hj; lia].
  - cbn [backoff]. destruct (shutdown_requested w (now s)) eqn:E.
    + right. exists 0. rewrite sleeps_0. split; [lia|]. split; [reflexivity|].
      now replace (now s + N.of_nat 0 * TICKS_PER_SECOND)%N with (now s) by lia.
    + assert (Hnow : forall j, (now (sleep 1 s) + N.of_nat j * TICKS_PER_SECOND
                                = now s + N.of_nat (S j) * TICKS_PER_SECOND)%N).
      { intros j. unfold sleep, at_time, TICKS_PER_SECOND. cbn [now]. lia. }
      destruct (IH (sleep 1 s)) as [[Hrun Hno]|(k & Hk & Hret & Hat)].
      * left. rewrite Hrun, sleeps_S. split; [reflexivity|].
        intros [|j] Hj.
        -- now replace (now s + N.of_nat 0 * TICKS_PER_SECOND)%N with (now s) by lia.
        -- rewrite <- Hnow. apply Hno. lia.
      * right. exists (S k). rewrite Hret, sleeps_S. split; [lia|].
        split; [reflexivity|]. now rewrite <- Hnow.
Qed.

(** Every turn of the body is one of the turns of [turn]. *)
Lemma loop_body_turn (s : State) :
  turn self w i file_path s (loop_body self w i file_path s).
Proof.
  destruct (path_exists w file_path (now s)) as [e|[|]] eqn:He.
  - unfold loop_body. rewrite (start_process_fails w i file_path s e He).
    now apply turn_raises.
  - destruct (subprocess_Popen w i (launches s)) as [|pid rt code] eqn:Hp.
    + unfold loop_body. rewrite (start_process_raises w i file_path s He Hp).
      now apply turn_refused.
    + rewrite (loop_body_launched self w i file_path s pid rt code He Hp). cbn zeta.
      destruct (code =? 0)%Z eqn:Hz.
      { apply Z.eqb_eq in Hz. subst code. now apply turn_completed. }
      destruct (existsb (Z.eqb code) manual_termination) eqn:Hm.
      { apply manual_termination_In in Hm. now apply turn_manual. }
      assert (Hcode : restart_eligible code = true)
        by (unfold restart_eligible; now rewrite Hz, Hm).
      destruct (restart_count s + 1 <? MAX_RESTARTS self) eqn:Hlt.
      * apply Nat.ltb_lt in Hlt. fold (backing_off self w file_path pid rt code s).
        destruct (backoff_cases (RESTART_DELAY self * (restart_count s + 1))
                    (backing_off self w file_path pid rt code s))
          as [[-> Hno]|(k & Hk & -> & Hat)].
        -- now apply turn_restart.
        -- now apply (turn_interrupted _ _ _ _ _ pid rt code k).
      * apply Nat.ltb_ge in Hlt. now apply turn_given_up.
  - unfold loop_body. rewrite (start_process_missing w i file_path s He).
    now apply turn_missing.
Qed.

(** Induction over the loop: [P] holds where the condition is tested, [Q]
    where the worker returns. *)
Lemma while_loop_rule (P Q : State -> Prop) :
  (forall s, P s -> loop_cond self w s = false -> Q s) ->
  (forall s f, P s -> loop_cond self w s = true -> turn self w i file_path s f ->
     match f with
     | Next s' => P s'
     | Break s' => Q s'
     | Return s' => Q s'
     | Raise _ s' => Q s'
     end) ->
  forall fuel s s',
    P s -> worker_ends w file_path (while_loop fuel self w i file_path s) s' -> Q s'.
Proof.
  intros Hexit Hturn. induction fuel as [|fuel IH]; intros s s' HP;
    [intros [H|(e & H & _)]; discriminate H|].
  cbn [while_loop]. destruct (loop_cond self w s) eqn:Hc.
  - pose proof (Hturn s _ HP Hc (loop_body_turn s)) as H.
    destruct (loop_body self w i file_path s) as [s1|s1|s1|e s1].
    + now apply IH.
    + now intros [[= <-]|(e & [=] & _)].
    + now intros [[= <-]|(e & [=] & _)].
    + now intros [[=]|(e' & [= <- <-] & _)].
  - intros [[= <-]|(e & [=] & _)]. now apply Hexit.
Qed.

End Turns.

(** ** Counting in traces *)

Lemma slept_before_launches_length (a b : nat) (evs : list Event) :
  List.length (slept_before_launches a evs) = List.length (slept_before_launches b evs).
Proof.
  revert a b. induction evs as [|e evs IH]; intros a b; [reflexivity|].
  destruct e; cbn; auto.
Qed.

Lemma slept_before_launches_app (evs1 evs2 : list Event) :
  forall a b c,
    List.length (slept_before_launches a (evs1 ++ evs2))
    = List.length (slept_before_launches b evs1)
      + List.length (slept_before_launches c evs2).
Proof.
  induction evs1 as [|e evs1 IH]; intros a b c.
  - apply slept_before_launches_length.
  - destruct e; cbn; now erewrite IH.
Qed.

Lemma launch_count_app (evs1 evs2 : list Event) :
  launch_count (evs1 ++ evs2) = launch_count evs1 + launch_count evs2.
Proof. apply slept_before_launches_app. Qed.

Lemma seconds_slept_app (evs1 evs2 : list Event) :
  seconds_slept (evs1 ++ evs2) = seconds_slept evs1 + seconds_slept evs2.
Proof.
  induction evs1 as [|e evs1 IH]; [reflexivity|].
  destruct e; cbn; rewrite ?IH; lia.
Qed.

Lemma launch_count_sleeps (k : nat) : launch_count (repeat (Sleep 1) k) = 0.
Proof.
  unfold launch_count.
  assert (H : forall a, slept_before_launches a (repeat (Sleep 1) k) = []).
  { induction k as [|k IH]; intros a; [reflexivity | apply IH]. }
  now rewrite H.
Qed.

Lemma seconds_slept_sleeps (k : nat) : seconds_slept (repeat (Sleep 1) k) = k.
Proof. induction k as [|k IH]; cbn; [reflexivity | now rewrite IH]. Qed.

(** ** What a worker does in any world *)

Section Tally.
Variables (self : MinimalBotRunner) (w : World) (i : nat) (file_path : Path).

(** What holds of a worker that started in [s0] each time it tests the
    condition of its loop. *)
Let at_head (s0 s : State) : Prop :=
  exists evs,
    output s = (output s0 ++ evs)%list /\
    launch_count evs = launches s /\
    restart_count s = launches s /\
    restart_count s <= MAX_RESTARTS self /\
    2 * seconds_slept evs <= RESTART_DELAY self * (restart_count s * (restart_count s + 1)) /\
    2 * seconds_slept evs
    <= RESTART_DELAY self * ((MAX_RESTARTS self - 1) * MAX_RESTARTS self) /\
    (forall k, k <> str file_path ->
       Dict.get k (current_processes s) = Dict.get k (current_processes s0)) /\
    (now s0 <= now s)%N.

(** What holds when it returns. *)
Let at_return (s0 s' : State) : Prop :=
  exists evs,
    output s' = (output s0 ++ evs)%list /\
    launch_count evs = launches s' /\
    restart_count s' <= launches s' /\
    launches s' <= MAX_RESTARTS self /\
    2 * seconds_slept evs
    <= RESTART_DELAY self * ((MAX_RESTARTS self - 1) * MAX_RESTARTS self) /\
    (forall k, k <> str file_path ->
       Dict.get k (current_processes s') = Dict.get k (current_processes s0)) /\
    (now s0 <= now s')%N.

Lemma get_other_key (k : string) (p : Popen) (d : list (string * Popen)) :
  k <> str file_path -> Dict.get k (Dict.set (str file_path) p d) = Dict.get k d.
Proof.
  intros Hk. rewrite DictFacts.get_set.
  destruct (String.eqb_spec k (str file_path)); [contradiction | reflexivity].
Qed.

(** The backoffs of a worker whose count stays under the bound add up to at
    most the sum of the delays the bound allows. *)
Lemma ceiling (slack slept extra rc : nat) :
  2 * slept <= RESTART_DELAY self * (rc * (rc + 1)) ->
  rc + 1 < MAX_RESTARTS self ->
  extra + slack = RESTART_DELAY self * (rc + 1) ->
  2 * (slept + (0 + (0 + extra)))
  <= RESTART_DELAY self * ((MAX_RESTARTS self - 1) * MAX_RESTARTS self).
Proof.
  intros Hsl Hlt Hextra.
  destruct (MAX_RESTARTS self) as [|m]; [lia|]. cbn [Nat.sub]. rewrite Nat.sub_0_r.
  assert (H1 : (rc + 1) * (rc + 2) <= m * S m) by nia.
  apply (Nat.mul_le_mono_l _ _ (RESTART_DELAY self)) in H1. lia.
Qed.

Lemma worker_tally (s0 : State) :
  exists s',
    worker_ends w file_path (run_single_bot self w i file_path s0) s' /\ at_return s0 s'.
Proof.
  destruct (run_single_bot_returns self w i file_path s0) as (s' & Hrun & _).
  exists s'. split; [exact Hrun|].
  unfold run_single_bot in Hrun.
  refine (while_loop_rule self w i file_path (at_head s0) (at_return s0) _ _ _ _ _ _ Hrun).
  - (* the condition fails *)
    intros s (evs & Hout & Hl & Hrc & Hmax & _ & Hsl & Hreg & Hnow) _.
    exists evs. repeat split; try assumption; lia.
  - (* one turn *)
    intros s f (evs & Hout & Hl & Hrc & Hmax & Hsl1 & Hsl2 & Hreg & Hnow) Hc Hturn.
    apply loop_cond_true in Hc as [_ Hlt].
    destruct Hturn as [e He|He|He Hp|pid rt He Hp|pid rt code He Hp Hm
                      |pid rt code He Hp Hcode Hge
                      |pid rt code He Hp Hcode Hlt' Hno|pid rt code k He Hp Hcode Hlt' Hk Hat].
    + exists evs. repeat split; try assumption; lia.
    + exists (evs ++ [Log MinimalRunner ERROR (MsgFileNotFound file_path)])%list.
      cbn [log emit output launches restart_count current_processes now].
      rewrite Hout, launch_count_app, seconds_slept_app, <- app_assoc. cbn.
      repeat split; try assumption; lia.
    + exists (evs ++ [Log (create_file_logger file_path) INFO MsgStarting;
                      PopenCall [sys_executable w; str file_path] (parent file_path);
                      Log (create_file_logger file_path) ERROR MsgStartFailed])%list.
      cbn [output launches restart_count current_processes now].
      rewrite Hout, launch_count_app, seconds_slept_app, <- app_assoc. cbn.
      repeat split; try assumption; lia.
    + exists (evs ++ launch_events w file_path pid
                  ++ [Log (create_file_logger file_path) INFO (MsgEnded 0 rt);
                      Log (create_file_logger file_path) INFO MsgCompleted])%list.
      cbn [log emit ran output launches restart_count current_processes now].
      rewrite Hout, !launch_count_app, !seconds_slept_app, <- !app_assoc. cbn.
      repeat split; try lia.
      intros k Hk. rewrite get_other_key; auto.
    + exists (evs ++ launch_events w file_path pid
                  ++ [Log (create_file_logger file_path) INFO (MsgEnded code rt);
                      Log (create_file_logger file_path) INFO MsgManualStop])%list.
      cbn [log emit ran output launches restart_count current_processes now].
      rewrite Hout, !launch_count_app, !seconds_slept_app, <- !app_assoc. cbn.
      repeat split; try lia.
      intros k Hk. rewrite get_other_key; auto.
    + exists (evs ++ launch_events w file_path pid
                  ++ [Log (create_file_logger file_path) INFO (MsgEnded code rt);
                      Log (create_file_logger file_path) ERROR MsgMaxRestarts])%list.
      cbn [log emit ran set_restart_count output launches restart_count current_processes now].
      rewrite Hout, !launch_count_app, !seconds_slept_app, <- !app_assoc. cbn.
      repeat split; try lia.
      intros k Hk. rewrite get_other_key; auto.
    + exists (evs ++ launch_events w file_path pid
                  ++ [Log (create_file_logger file_path) INFO (MsgEnded code rt);
                      Log (create_file_logger file_path) WARNING
                        (MsgRestart (restart_count s + 1)
                           (RESTART_DELAY self * (restart_count s + 1)))]
                  ++ repeat (Sleep 1) (RESTART_DELAY self * (restart_count s + 1)))%list.
      unfold backing_off.
      cbn [sleeps log emit ran set_restart_count output launches restart_count
           current_processes now].
      rewrite Hout, !launch_count_app, !seconds_slept_app, launch_count_sleeps,
        seconds_slept_sleeps, <- !app_assoc.
      cbn [launch_count launch_events slept_before_launches seconds_slept List.length app].
      repeat split; try lia.
      * apply (ceiling 0 _ _ (restart_count s)); lia.
      * intros k Hk. rewrite get_other_key; auto.
    + exists (evs ++ launch_events w file_path pid
                  ++ [Log (create_file_logger file_path) INFO (MsgEnded code rt);
                      Log (create_file_logger file_path) WARNING
                        (MsgRestart (restart_count s + 1)
                           (RESTART_DELAY self * (restart_count s + 1)))]
                  ++ repeat (Sleep 1) k)%list.
      unfold backing_off.
      cbn [sleeps log emit ran set_restart_count output launches restart_count
           current_processes now].
      rewrite Hout, !launch_count_app, !seconds_slept_app, launch_count_sleeps,
        seconds_slept_sleeps, <- !app_assoc.
      cbn [launch_count launch_events slept_before_launches seconds_slept List.length app].
      repeat split; try lia.
      * apply (ceiling (RESTART_DELAY self * (restart_count s + 1) - k) _ _ (restart_count s)); lia.
      * intros k' Hk'. rewrite get_other_key; auto.
  - (* the start *)
    exists []. unfold worker_start.
    cbn [output launches restart_count current_processes now launch_count seconds_slept
         slept_before_launches List.length].
    rewrite app_nil_r. repeat split; try reflexivity; try apply Nat.le_0_l; lia.
Qed.

End Tally.

(** ** The worker: exit codes, bounds, the dictionary *)

(** X1: the exit code of a launched process decides whether the failure is
    counted.  After 0 and after the codes of a manual stop (130, 143, -15) the
    worker breaks out of its loop with [restart_count] as it was; after any
    other code [restart_count] grows by one and the turn does not end in a
    [break]. *)
Theorem exit_code_decides_restart (self : MinimalBotRunner) (w : World) (i : nat)
  (file_path : Path) (s : State) (pid : nat) (rt : N) (code : Z) :
  path_exists w file_path (now s) = inr true ->
  subprocess_Popen w i (launches s) = PopenStarts pid rt code ->
  (In code (0%Z :: manual_termination) ->
   exists m,
     (m = MsgCompleted \/ m = MsgManualStop) /\
     loop_body self w i file_path s
     = Break (log (create_file_logger file_path) INFO m (ran w file_path pid rt code s)) /\
     restart_count (flow_state (loop_body self w i file_path s)) = restart_count s) /\
  (~ In code (0%Z :: manual_termination) ->
   restart_count (flow_state (loop_body self w i file_path s)) = restart_count s + 1 /\
   forall s', loop_body self w i file_path s <> Break s').
Proof.
  intros He Hp. rewrite (loop_body_launched self w i file_path s pid rt code He Hp).
  cbn zeta.
  destruct (Z.eqb_spec code 0) as [->|Hz].
  - split.
    + intros _. exists MsgCompleted. split; [now left|]. split; reflexivity.
    + intros H. exfalso. apply H. now left.
  - destruct (existsb (Z.eqb code) manual_termination) eqn:Hm.
    + apply manual_termination_In in Hm. split.
      * intros _. exists MsgManualStop. split; [now right|]. split; reflexivity.
      * intros H. exfalso. apply H. now right.
    + split.
      * intros [H|H]; [now symmetry in H|].
        apply manual_termination_In in H. congruence.
      * intros _. destruct (restart_count s + 1 <? MAX_RESTARTS self).
        -- match goal with |- context [backoff w ?d ?x] =>
             destruct (backoff_cases w d x) as [[-> _]|(k & _ & -> & _)] end;
             (split; [reflexivity | discriminate]).
        -- split; [reflexivity | discriminate].
Qed.

(** X1 on the first launch of the worker of [Scenario.killed], whose process
    exits with 137. *)
Lemma exit_code_decides_restart_witness :
  restart_count
    (flow_state (loop_body Scenario.runner Scenario.killed 0 Scenario.enze (fresh 0))) = 1.
Proof.
  destruct (exit_code_decides_restart Scenario.runner Scenario.killed 0 Scenario.enze
              (fresh 0) 100 2500 137) as [_ H]; [reflexivity | reflexivity |].
  apply H. cbn. intros [H'|[H'|[H'|[H'|[]]]]]; discriminate H'.
Defined.

(** X2: in any world, whatever the processes and the platform do, a worker
    ends (it returns, unless an [exists()] that raises ends it) having called
    [subprocess.Popen] at most [MAX_RESTARTS] times (5 for the runner
    [__init__] builds). *)
Theorem worker_launches_bounded (self : MinimalBotRunner) (w : World) (i : nat)
  (file_path : Path) (s : State) :
  exists o s' evs,
    run_single_bot self w i file_path s = o /\
    worker_ends w file_path o s' /\
    output s' = (output s ++ evs)%list /\
    launch_count evs = launches s' /\
    launch_count evs <= MAX_RESTARTS self /\
    restart_count s' <= launch_count evs /\
    (forall files, init files = Some self -> launch_count evs <= 5).
Proof.
  destruct (worker_tally self w i file_path s)
    as (s' & Hrun & evs & Hout & Hl & Hrc & Hmax & _).
  eexists. exists s', evs. split; [reflexivity|]. split; [exact Hrun|].
  repeat split; try assumption; try lia.
  intros [|f files]; [discriminate|]. intros [= <-]. cbn in Hmax. lia.
Qed.

(** X3: in any world, the seconds a worker sleeps between its launches add
    up to at most [RESTART_DELAY * (1 + ... + (MAX_RESTARTS - 1))] (100 for
    the runner [__init__] builds), however the worker ends. *)
Theorem worker_backoff_bounded (self : MinimalBotRunner) (w : World) (i : nat)
  (file_path : Path) (s : State) :
  exists o s' evs,
    run_single_bot self w i file_path s = o /\
    worker_ends w file_path o s' /\
    output s' = (output s ++ evs)%list /\
    2 * seconds_slept evs
    <= RESTART_DELAY self * ((MAX_RESTARTS self - 1) * MAX_RESTARTS self) /\
    (forall files, init files = Some self -> seconds_slept evs <= 100).
Proof.
  destruct (worker_tally self w i file_path s)
    as (s' & Hrun & evs & Hout & _ & _ & _ & Hsl & _).
  eexists. exists s', evs. split; [reflexivity|]. split; [exact Hrun|].
  repeat split; try assumption.
  intros [|f files]; [discriminate|]. intros [= <-]. cbn in Hsl. lia.
Qed.

(** X4: a worker writes the dictionary only under the key of its own file:
    whatever is registered under another key is there, unchanged, when the
    worker ends; and its clock does not go back. *)
Theorem worker_writes_own_key (self : MinimalBotRunner) (w : World) (i : nat)
  (file_path : Path) (s : State) :
  exists o s',
    run_single_bot self w i file_path s = o /\
    worker_ends w file_path o s' /\
    (now s <= now s')%N /\
    forall k, k <> str file_path ->
      Dict.get k (current_processes s') = Dict.get k (current_processes s).
Proof.
  destruct (worker_tally self w i file_path s)
    as (s' & Hrun & evs & _ & _ & _ & _ & _ & Hreg & Hnow).
  eexists. exists s'. split; [reflexivity|]. split; [exact Hrun|].
  split; assumption.
Qed.

(** X5: a shutdown request that arrives while the process runs ends the
    worker as soon as the process has ended, whatever the exit code: the
    worker returns at that time with one more record in its log (which may
    announce a restart that never takes place), without sleeping and without
    another launch. *)
Theorem shutdown_during_run_stops_worker (self : MinimalBotRunner) (w : World) (i : nat)
  (file_path : Path) (s : State) (fuel pid : nat) (rt : N) (code : Z) :
  loop_cond self w s = true ->
  path_exists w file_path (now s) = inr true ->
  subprocess_Popen w i (launches s) = PopenStarts pid rt code ->
  shutdown_requested w (now s + rt) = true ->
  exists s' lv m,
    while_loop (S (S fuel)) self w i file_path s = Done tt s' /\
    output s' = (output (ran w file_path pid rt code s)
                 ++ [Log (create_file_logger file_path) lv m])%list /\
    now s' = (now s + rt)%N /\
    launches s' = S (launches s) /\
    current_processes s' = current_processes (ran w file_path pid rt code s).
Proof.
  intros Hc He Hp Hsd.
  assert (Hunfold : forall fuel s,
            while_loop (S fuel) self w i file_path s
            = if loop_cond self w s then
                match loop_body self w i file_path s with
                | Next s' => while_loop fuel self w i file_path s'
                | Break s' => Done tt s'
                | Return s' => Done tt s'
                | Raise e s' => Raised e s'
                end
              else Done tt s) by reflexivity.
  assert (Hstop : forall s1, now s1 = (now s + rt)%N ->
            while_loop (S fuel) self w i file_path s1 = Done tt s1).
  { intros s1 Hnow. rewrite Hunfold. unfold loop_cond. now rewrite Hnow, Hsd. }
  rewrite Hunfold, Hc, (loop_body_launched self w i file_path s pid rt code He Hp).
  cbn zeta.
  destruct (code =? 0)%Z; [eexists; exists INFO, MsgCompleted; repeat split|].
  destruct (existsb (Z.eqb code) manual_termination);
    [eexists; exists INFO, MsgManualStop; repeat split|].
  destruct (restart_count s + 1 <? MAX_RESTARTS self).
  - destruct (RESTART_DELAY self * (restart_count s + 1)) as [|d]; cbn [backoff].
    + eexists. exists WARNING, (MsgRestart (restart_count s + 1) 0).
      rewrite Hstop by reflexivity. repeat split.
    + eexists. exists WARNING, (MsgRestart (restart_count s + 1) (S d)).
      cbn [now log emit set_restart_count ran]. rewrite Hsd. repeat split.
  - eexists. exists ERROR, MsgMaxRestarts.
    rewrite Hstop by reflexivity. repeat split.
Qed.

(** X5 on a worker whose process is killed after 2.5 seconds, with a signal
    one second after the launch. *)
Lemma shutdown_during_run_stops_worker_witness :
  exists s',
    while_loop 2 Scenario.runner
      (Scenario.quiet_platform (fun _ n => PopenStarts (100 + n) 2500 137) (Some 1000%N))
      0 Scenario.enze (fresh 0) = Done tt s' /\
    now s' = 2500%N /\ launches s' = 1.
Proof.
  destruct (shutdown_during_run_stops_worker Scenario.runner
              (Scenario.quiet_platform (fun _ n => PopenStarts (100 + n) 2500 137)
                 (Some 1000%N))
              0 Scenario.enze (fresh 0) 0 100 2500 137)
    as (s' & lv & m & H1 & _ & H2 & H3 & _);
    [reflexivity | reflexivity | reflexivity | reflexivity |].
  exists s'. repeat split; assumption.
Defined.

(** ** The output pumps *)

Section Pump.
Variables (w : World) (process : Popen).
Variables (on_line : string -> State -> State) (record : string -> Event).
Hypothesis on_line_record :
  forall line s, on_line line s = if String.eqb line "" then s else emit (record line) s.

Lemma on_line_output (line : string) (s : State) :
  output (on_line line s) = (output s ++ forwarded record [line])%list /\
  now (on_line line s) = now s /\
  current_processes (on_line line s) = current_processes s.
Proof.
  rewrite on_line_record. unfold forwarded, nonempty. cbn [filter].
  destruct (String.eqb line ""); cbn; [now rewrite app_nil_r | auto].
Qed.

Lemma forwarded_cons (line : string) (lines : list string) :
  forwarded record (line :: lines) = (forwarded record [line] ++ forwarded record lines)%list.
Proof. unfold forwarded. cbn [filter]. now destruct (nonempty line). Qed.

(** What a pump has logged is what it had to log for the first lines read,
    however it came to its end. *)
Lemma pump_prefix (reads : list (N * ReadResult)) :
  forall s, exists taken rest,
    lines_read reads = (taken ++ rest)%list /\
    output (pump on_line w process reads s) = (output s ++ forwarded record taken)%list /\
    current_processes (pump on_line w process reads s) = current_processes s /\
    (now s <= now (pump on_line w process reads s))%N.
Proof.
  induction reads as [|[t r] reads IH]; intros s; cbn [pump].
  - exists [], []. cbn. rewrite app_nil_r. repeat split. lia.
  - destruct (is_running process s && negb (shutdown_requested w (now s))).
    + destruct r as [line|]; cbn zeta.
      * destruct (IH (on_line line (at_time (N.max (now s) t) s)))
          as (taken & rest & Hl & Hout & Hreg & Hnow).
        destruct (on_line_output line (at_time (N.max (now s) t) s)) as (Ho & Hn & Hr).
        exists (line :: taken), rest.
        split; [change (lines_read ((t, ReadLine line) :: reads))
                  with (line :: lines_read reads); now rewrite Hl|].
        rewrite Hout, Hreg, Ho, Hr, (forwarded_cons line taken), <- app_assoc.
        rewrite Hn in Hnow. cbn [at_time now output current_processes] in *.
        repeat split. lia.
      * exists [], (lines_read reads). cbn. rewrite app_nil_r. repeat split. lia.
    + exists [], (lines_read ((t, r) :: reads)). cbn [app forwarded filter map].
      rewrite app_nil_r. repeat split. lia.
Qed.

(** While the process runs and no shutdown is requested, no line is lost. *)
Lemma pump_complete (reads : list (N * ReadResult)) :
  forall s,
    is_running process s = true ->
    shutdown_requested w (now s) = false ->
    Forall (in_time w process) reads ->
    output (pump on_line w process reads s)
    = (output s ++ forwarded record (lines_read reads))%list.
Proof.
  induction reads as [|[t r] reads IH]; intros s Hrun Hsd Hall; cbn [pump].
  - cbn. now rewrite app_nil_r.
  - rewrite Hrun, Hsd. cbn [andb negb].
    inversion Hall as [|x l (Ht & Hsdt & Hr) Hrest]; subst. cbn [fst snd] in *.
    destruct r as [line|]; [|contradiction]. cbn zeta.
    destruct (on_line_output line (at_time (N.max (now s) t) s)) as (Ho & Hn & _).
    rewrite IH; [| | |exact Hrest].
    + rewrite Ho. cbn [at_time output].
      change (lines_read ((t, ReadLine line) :: reads)) with (line :: lines_read reads).
      now rewrite (forwarded_cons line (lines_read reads)), <- app_assoc.
    + unfold is_running, poll in *. rewrite Hn. cbn [at_time now].
      destruct (N.ltb_spec (now s) (ends process)); [|discriminate].
      destruct (N.ltb_spec (N.max (now s) t) (ends process)); [reflexivity | lia].
    + rewrite Hn. cbn [at_time now].
      destruct (N.max_spec (now s) t) as [[_ ->]|[_ ->]]; assumption.
Qed.

End Pump.

Lemma stdout_line_record (file_logger : Logger) (line : string) (s : State) :
  stdout_line file_logger line s
  = if String.eqb line "" then s else emit (stdout_record file_logger line) s.
Proof. reflexivity. Qed.

Lemma stderr_line_record (file_logger : Logger) (line : string) (s : State) :
  stderr_line file_logger line s
  = if String.eqb line "" then s else emit (stderr_record file_logger line) s.
Proof.
  unfold stderr_line, stderr_record. destruct (String.eqb line ""); [reflexivity|].
  cbn zeta. now destruct (is_info_message (Text.strip line)).
Qed.

(** X6: a pump ends for good.  After a read that raises no further read is
    made; and once the process is found ended, or the shutdown flag up, the
    lines still to be read are never logged.  This holds of [read_stdout] and
    [read_stderr] alike. *)
Theorem pump_stops (on_line : string -> State -> State) (w : World) (process : Popen) :
  (forall pre t post s,
     pump on_line w process (pre ++ (t, ReadRaises) :: post) s
     = pump on_line w process (pre ++ [(t, ReadRaises)]) s) /\
  (forall pre post s,
     is_running process (pump on_line w process pre s)
     && negb (shutdown_requested w (now (pump on_line w process pre s))) = false ->
     pump on_line w process (pre ++ post) s = pump on_line w process pre s).
Proof.
  split.
  - induction pre as [|[t0 r] pre IH]; intros t post s; cbn [pump app].
    + reflexivity.
    + destruct (is_running process s && negb (shutdown_requested w (now s)));
        [|reflexivity].
      destruct r; [apply IH | reflexivity].
  - induction pre as [|[t0 r] pre IH]; intros post s; cbn [pump app].
    + intros H. destruct post as [|[t r] post]; [reflexivity|]. cbn [pump]. now rewrite H.
    + destruct (is_running process s && negb (shutdown_requested w (now s)));
        [|reflexivity].
      destruct r; [apply IH | reflexivity].
Qed.

(** X7: what the pumps log is in the order of the lines read, with no line
    skipped before the last one logged: the records are those of the first
    lines read, one for each line that is not empty.  A line of stdout is
    logged at INFO whatever it says; a line of stderr is logged at INFO when
    it is informational and as an alarm at ERROR otherwise.  The pumps leave
    the dictionary alone. *)
Theorem pumps_forward_in_order (w : World) (file_path : Path) (process : Popen)
  (reads : list (N * ReadResult)) (s : State) :
  (exists taken rest,
     lines_read reads = (taken ++ rest)%list /\
     output (read_stdout w file_path process reads s)
     = (output s ++ forwarded (stdout_record (create_file_logger file_path)) taken)%list /\
     current_processes (read_stdout w file_path process reads s) = current_processes s) /\
  (exists taken rest,
     lines_read reads = (taken ++ rest)%list /\
     output (read_stderr w file_path process reads s)
     = (output s ++ forwarded (stderr_record (create_file_logger file_path)) taken)%list /\
     current_processes (read_stderr w file_path process reads s) = current_processes s).
Proof.
  split.
  - destruct (pump_prefix w process _ _ (stdout_line_record (create_file_logger file_path))
                reads s) as (taken & rest & H1 & H2 & H3 & _).
    now exists taken, rest.
  - destruct (pump_prefix w process _ _ (stderr_line_record (create_file_logger file_path))
                reads s) as (taken & rest & H1 & H2 & H3 & _).
    now exists taken, rest.
Qed.

(** X8: while the process runs and no shutdown is requested the pumps lose
    nothing: when every read returns a line before the process ends and
    before a shutdown request, every line that is not empty is logged, in
    order. *)
Theorem pumps_forward_all (w : World) (file_path : Path) (process : Popen)
  (reads : list (N * ReadResult)) (s : State) :
  is_running process s = true ->
  shutdown_requested w (now s) = false ->
  Forall (in_time w process) reads ->
  output (read_stdout w file_path process reads s)
  = (output s ++ forwarded (stdout_record (create_file_logger file_path))
                   (lines_read reads))%list /\
  output (read_stderr w file_path process reads s)
  = (output s ++ forwarded (stderr_record (create_file_logger file_path))
                   (lines_read reads))%list.
Proof.
  intros Hrun Hsd Hall. split.
  - now apply (pump_complete w process _ _
                 (stdout_line_record (create_file_logger file_path))).
  - now apply (pump_complete w process _ _
                 (stderr_line_record (create_file_logger file_path))).
Qed.

(** X8 on three reads from a process that runs for 50 seconds. *)
Lemma pumps_forward_all_witness :
  output
    (read_stderr Scenario.clean Scenario.enze (mkPopen 7 0 50000 0)
       [(5%N, ReadLine "Polling started"); (6%N, ReadLine ""); (7%N, ReadLine "  KeyError ")]
       (fresh 0))
  = [Log (Bot "enze") INFO (MsgLine "Polling started");
     Log (Bot "enze") ERROR (MsgAlarm "KeyError")].
Proof.
  refine (proj2 (pumps_forward_all Scenario.clean Scenario.enze (mkPopen 7 0 50000 0)
                   [(5%N, ReadLine "Polling started"); (6%N, ReadLine "");
                    (7%N, ReadLine "  KeyError ")]
                   (fresh 0) _ _ _)); [reflexivity | reflexivity |].
  repeat constructor; discriminate.
Defined.

(** ** Classifying a line *)

Lemma lower_char_idempotent (c : ascii) :
  Text.lower_char (Text.lower_char c) = Text.lower_char c.
Proof. destruct c as [[] [] [] [] [] [] [] []]; reflexivity. Qed.

Lemma lower_idempotent (s : string) : Text.lower (Text.lower s) = Text.lower s.
Proof.
  induction s as [|c s IH]; cbn [Text.lower]; [reflexivity|].
  now rewrite lower_char_idempotent, IH.
Qed.

(** X9: the class of a line does not depend on letter case, on the white
    space around it, or on what surrounds an informational text: a line that
    contains an informational line is informational. *)
Theorem is_info_message_robust :
  (forall message, is_info_message (Text.lower message) = is_info_message message) /\
  (forall message, is_info_message (Text.strip message) = is_info_message message) /\
  (forall message line,
     Text.Substring message line ->
     is_info_message message = true -> is_info_message line = true).
Proof.
  split; [|split].
  - intros message. unfold is_info_message. now rewrite lower_idempotent.
  - apply is_info_message_strip.
  - intros message line Hsub H.
    apply is_info_message_iff in H as (k & Hk & H).
    apply is_info_message_iff. exists k. split; [exact Hk|].
    eapply TextFacts.Substring_trans; [exact H|].
    now apply TextFacts.lower_Substring.
Qed.

(** X10: the watchdog raises no false alarm.  When no sample taken from its
    start on is over the ceiling, it returns without having called
    [terminate()] and without a record in the log. *)
Theorem watchdog_no_false_alarm (self : MinimalBotRunner) (w : World) (file_path : Path)
  (process : Popen) (s : State) :
  (forall t rss, (now s <= t)%N -> memory_info_rss w (pid process) t = inr rss ->
     (rss <= MEMORY_LIMIT_MB self * 1024 * 1024)%Z) ->
  exists s' evs,
    memory_check self w file_path process s = Done tt s' /\
    output s' = (output s ++ evs)%list /\
    terminations evs = 0 /\
    forall l lv m, ~ In (Log l lv m) evs.
Proof.
  intros Hunder.
  destruct (memory_check_sampled self w file_path process s)
    as (s' & evs & Hrun & Hout & [(_ & _ & ->)|(_ & Hs)]).
  - exists s', []. repeat split; trivial. intros l lv m [].
  - exists s', evs. split; [exact Hrun|]. split; [exact Hout|].
    apply (sampled_quietly self w file_path process _ _ _ Hs).
    intros u rss Hu Hr. specialize (Hunder u rss Hu Hr).
    destruct (over_limit self rss) eqn:E; [|reflexivity].
    apply over_limit_bytes in E. lia.
Qed.

(** X10 on a process that holds 1 MB of memory for its 95 seconds. *)
Lemma watchdog_no_false_alarm_witness :
  exists s' evs,
    memory_check Scenario.runner Scenario.clean Scenario.enze (mkPopen 7 0 95000 0) (fresh 0)
    = Done tt s' /\
    output s' = evs /\ terminations evs = 0.
Proof.
  destruct (watchdog_no_false_alarm Scenario.runner Scenario.clean Scenario.enze
              (mkPopen 7 0 95000 0) (fresh 0)) as (s' & evs & H1 & H2 & H3 & _).
  - intros t rss _ [= <-]. cbn. lia.
  - exists s', evs. repeat split; assumption.
Defined.

(** X11: the watchdog thread does not linger.  It returns at the time it
    began, or less than 30 seconds after the end of the process, and less than
    30 seconds after a shutdown request when there is one. *)
Theorem watchdog_returns_soon (self : MinimalBotRunner) (w : World) (file_path : Path)
  (process : Popen) (s : State) :
  exists s',
    memory_check self w file_path process s = Done tt s' /\
    (now s <= now s')%N /\
    (now s' = now s \/
     (now s' < ends process + 30 * TICKS_PER_SECOND)%N /\
     forall T, shutdown_at w = Some T -> (now s' < T + 30 * TICKS_PER_SECOND)%N).
Proof.
  destruct (memory_check_sampled self w file_path process s)
    as (s' & evs & Hrun & Hout & [(_ & -> & _)|(_ & Hs)]).
  - exists s. split; [exact Hrun|]. split; [lia | now left].
  - exists s'. split; [exact Hrun|].
    exact (sampled_ends_soon self w file_path process _ _ _ Hs).
Qed.

(** X12: a leak is caught within one sampling period.  When the process can
    be looked up, no shutdown is requested, every sample returns, and from
    time [T] on every sample is over the ceiling, the watchdog returns less
    than 30 seconds after [T] (or after its own start, if that is later),
    having called [terminate()] or found the process ended. *)
Theorem watchdog_detects_within_period (self : MinimalBotRunner) (w : World)
  (file_path : Path) (process : Popen) (s : State) (T : N) :
  (exists u, psutil_Process w (pid process) (now s) = inr u) ->
  shutdown_at w = None ->
  (forall t, exists rss, memory_info_rss w (pid process) t = inr rss) ->
  (forall t rss, (T <= t)%N -> memory_info_rss w (pid process) t = inr rss ->
     (MEMORY_LIMIT_MB self * 1024 * 1024 < rss)%Z) ->
  exists s' evs,
    memory_check self w file_path process s = Done tt s' /\
    output s' = (output s ++ evs)%list /\
    (now s' < N.max (now s) T + 30 * TICKS_PER_SECOND)%N /\
    (terminations evs = 1 \/ (ends process <= now s')%N).
Proof.
  intros [u Hu] Hsig Hret Hover.
  destruct (memory_check_sampled self w file_path process s)
    as (s' & evs & Hrun & Hout & [([e He] & _)|(_ & Hs)]); [congruence|].
  exists s', evs. split; [exact Hrun|]. split; [exact Hout|].
  apply (sampled_detects self w file_path process T Hsig Hret); [|exact Hs].
  intros t rss Ht Hr. apply over_limit_bytes. exact (Hover t rss Ht Hr).
Qed.

(** X12 on the process of [Scenario.leaking], which holds 500 MB from the
    60th second on. *)
Lemma watchdog_detects_within_period_witness :
  exists s' evs,
    memory_check Scenario.runner Scenario.leaking Scenario.enze (mkPopen 7 0 600000 0)
      (fresh 0) = Done tt s' /\
    output s' = evs /\
    (now s' < 90000)%N /\
    (terminations evs = 1 \/ (600000 <= now s')%N).
Proof.
  destruct (watchdog_detects_within_period Scenario.runner Scenario.leaking Scenario.enze
              (mkPopen 7 0 600000 0) (fresh 0) 60000)
    as (s' & evs & H1 & H2 & H3 & H4).
  - now exists tt.
  - reflexivity.
  - intros t. eexists. reflexivity.
  - intros t rss Ht [= <-]. cbn.
    destruct (N.ltb_spec t 60000); [lia | reflexivity].
  - exists s', evs. repeat split; assumption.
Defined.

(** ** Stopping: the escalation, and what is left *)

Section StoppingMore.
Variable (w : World).

(** [stop_process] on a process it finds running. *)
Lemma stop_process_running (file_path : Path) (process : Popen) (s : State) :
  Dict.get (str file_path) (current_processes s) = Some process ->
  is_running process s = true ->
  stop_process w file_path s
  = Done tt (mkState (stopped_at w process (now s))
               (Dict.del (str file_path) (current_processes s))
               (output s ++ stop_events w process (now s))
               (restart_count s) (launches s)).
Proof.
  intros Hget Hrun. unfold stop_process, bind at 1, gets at 1. rewrite Hget.
  unfold bind at 1, gets at 1. rewrite Hrun.
  assert (Hlt : (now s < ends process)%N).
  { unfold is_running, poll in Hrun.
    destruct (N.ltb_spec (now s) (ends process)); [assumption | discriminate]. }
  unfold stop_events, stopped_at, escalates, try_finally, try_except, terminate,
    wait_timeout, kill, wait_, wait, bind, effect, gets, raise, ret, unregister.
  destruct (terminate_raises w (pid process)); cbn [orb].
  - destruct (kill_raises w (pid process)); cbn; rewrite <- !app_assoc; cbn;
      f_equal; f_equal; lia.
  - cbn [now emit at_time output current_processes restart_count launches fst snd].
    change (N.of_nat 10) with 10%N.
    destruct (N.leb_spec (ends process) (now s + 10 * TICKS_PER_SECOND)); cbn [negb].
    + cbn. rewrite <- !app_assoc. cbn. f_equal. f_equal. lia.
    + destruct (kill_raises w (pid process)); cbn; rewrite <- !app_assoc; cbn;
        f_equal; f_equal; unfold TICKS_PER_SECOND in *; lia.
Qed.

(** [stop_process] on a key that is not there or whose process has ended. *)
Lemma stop_process_idle (file_path : Path) (s : State) :
  (forall process, Dict.get (str file_path) (current_processes s) = Some process ->
                   is_running process s = false) ->
  stop_process w file_path s = Done tt s.
Proof.
  intros H. unfold stop_process, bind at 1, gets at 1.
  destruct (Dict.get (str file_path) (current_processes s)) as [process|]; [|reflexivity].
  unfold bind, gets. now rewrite (H process eq_refl).
Qed.

(** After [stop_process], the process under the key, if there is one, has
    ended. *)
Lemma stop_process_key (file_path : Path) (s : State) :
  exists s',
    stop_process w file_path s = Done tt s' /\
    only_stops s s' /\
    forall process, Dict.get (str file_path) (current_processes s') = Some process ->
                    (ends process <= now s')%N.
Proof.
  destruct (stop_process_stops w file_path s) as (s' & Hstop & Hs).
  exists s'. split; [exact Hstop|]. split; [exact Hs|].
  destruct (Dict.get (str file_path) (current_processes s)) as [p|] eqn:Hget.
  - destruct (is_running p s) eqn:Hrun.
    + rewrite (stop_process_running file_path p s Hget Hrun) in Hstop.
      injection Hstop as <-. cbn. intros process.
      rewrite DictFacts.get_del, String.eqb_refl. discriminate.
    + rewrite stop_process_idle in Hstop.
      * injection Hstop as <-. intros process Hp.
        rewrite Hget in Hp. injection Hp as <-. now apply is_running_false.
      * intros process Hp. rewrite Hget in Hp. now injection Hp as <-.
  - rewrite stop_process_idle in Hstop.
    + injection Hstop as <-. intros process Hp. congruence.
    + intros process Hp. congruence.
Qed.

Lemma for_stop_process_sweeps (keys : list string) :
  forall s,
    Forall normalised keys ->
    exists s',
      for_ keys (fun file_path => stop_process w (PathParse.Path_of_string file_path)) s
      = Done tt s' /\
      only_stops s s' /\
      forall k process,
        In k keys -> Dict.get k (current_processes s') = Some process ->
        (ends process <= now s')%N.
Proof.
  induction keys as [|k0 keys IH]; intros s Hnorm; cbn [for_].
  - exists s. split; [reflexivity|]. split; [apply only_stops_refl | intros k p []].
  - inversion Hnorm as [|x l Hk0 Hrest]; subst.
    destruct (stop_process_key (PathParse.Path_of_string k0) s) as (s1 & H1 & Hs1 & Hkey).
    rewrite Hk0 in Hkey.
    destruct (IH s1 Hrest) as (s' & H2 & Hs2 & Hkeys).
    exists s'. split; [rewrite (bind_Done _ _ _ _ _ H1); exact H2|].
    split; [exact (only_stops_trans _ _ _ Hs1 Hs2)|].
    intros k process [<-|Hin] Hget; [|exact (Hkeys k process Hin Hget)].
    destruct Hs2 as (Hnow & Hsub & _).
    specialize (Hkey process (Hsub _ _ Hget)). lia.
Qed.

Lemma get_Some_keys (k : string) (p : Popen) (d : list (string * Popen)) :
  Dict.get k d = Some p -> In k (Dict.keys d).
Proof.
  induction d as [|[k' v] d IH]; cbn; [discriminate|].
  destruct (String.eqb_spec k k') as [->|_]; [now left | right; now apply IH].
Qed.

Lemma stop_all_processes_sweeps (s : State) :
  Forall normalised (Dict.keys (current_processes s)) ->
  exists s',
    stop_all_processes w s = Done tt s' /\ only_stops s s' /\ all_exited s'.
Proof.
  intros Hnorm.
  destruct (for_stop_process_sweeps (Dict.keys (current_processes s)) s Hnorm)
    as (s' & Hrun & Hs & Hkeys).
  exists s'. split; [exact Hrun|]. split; [exact Hs|].
  intros k p Hget. apply (Hkeys k p); [|exact Hget].
  destruct Hs as (_ & Hsub & _). exact (get_Some_keys _ _ _ (Hsub _ _ Hget)).
Qed.

End StoppingMore.

(** X13: [stop_process] on a registered process that is still running.  It
    requests termination and, if the request did not raise, waits up to ten
    seconds; it goes on to kill the process exactly when the request raised or
    the process had not ended within the ten seconds, and waits for the end of
    the process exactly when it went on to the kill and the kill did not
    raise.  In every case it returns without an exception, with the handle
    taken out of the dictionary and every other entry as it was.  It returns
    once the process has ended, unless the kill raised: then it returns at
    once, with the process still running and no handle to it left. *)
Theorem stop_process_escalates (w : World) (file_path : Path) (process : Popen)
  (s : State) :
  Dict.get (str file_path) (current_processes s) = Some process ->
  is_running process s = true ->
  exists s',
    stop_process w file_path s = Done tt s' /\
    output s' = (output s ++ stop_events w process (now s))%list /\
    (In (Kill (pid process)) (stop_events w process (now s)) <->
     terminate_raises w (pid process) = true \/
     (now s + 10 * TICKS_PER_SECOND < ends process)%N) /\
    (In (Wait (pid process)) (stop_events w process (now s)) <->
     In (Kill (pid process)) (stop_events w process (now s)) /\
     kill_raises w (pid process) = false) /\
    (In (WaitTimeout (pid process) 10) (stop_events w process (now s)) <->
     terminate_raises w (pid process) = false) /\
    (In (Kill (pid process)) (stop_events w process (now s)) /\
     kill_raises w (pid process) = true ->
     is_running process s' = true /\
     now s' = if terminate_raises w (pid process) then now s
              else (now s + 10 * TICKS_PER_SECOND)%N) /\
    (~ (In (Kill (pid process)) (stop_events w process (now s)) /\
        kill_raises w (pid process) = true) ->
     now s' = ends process) /\
    Dict.get (str file_path) (current_processes s') = None /\
    forall k, k <> str file_path ->
      Dict.get k (current_processes s') = Dict.get k (current_processes s).
Proof.
  intros Hget Hrun. eexists. split; [exact (stop_process_running w _ _ _ Hget Hrun)|].
  assert (Hlt : (now s < ends process)%N).
  { unfold is_running, poll in Hrun.
    destruct (N.ltb_spec (now s) (ends process)); [assumption | discriminate]. }
  cbn [output now current_processes]. split; [reflexivity|].
  assert (Hkill : In (Kill (pid process)) (stop_events w process (now s)) <->
                  escalates w process (now s) = true).
  { unfold stop_events.
    destruct (terminate_raises w (pid process)), (escalates w process (now s));
      cbn; split; intros H; try reflexivity; try discriminate H; auto;
      repeat (destruct H as [H|H]; try discriminate H); contradiction. }
  assert (Hesc : escalates w process (now s) = true <->
                 terminate_raises w (pid process) = true \/
                 (now s + 10 * TICKS_PER_SECOND < ends process)%N).
  { unfold escalates. rewrite orb_true_iff, negb_true_iff, N.leb_gt. reflexivity. }
  split; [now rewrite Hkill, Hesc|].
  split; [|split; [|split; [|split; [|split]]]].
  - rewrite Hkill. unfold stop_events.
    destruct (terminate_raises w (pid process)), (escalates w process (now s)),
      (kill_raises w (pid process)); cbn; split; intros H;
      try (destruct H as [H1 H2]; try discriminate H1; try discriminate H2);
      auto; repeat (destruct H as [H|H]; try discriminate H); try contradiction.
  - unfold stop_events.
    destruct (terminate_raises w (pid process)), (escalates w process (now s)),
      (kill_raises w (pid process)); cbn; split; intros H; try reflexivity;
      try discriminate H; auto;
      repeat (destruct H as [H|H]; try discriminate H); try contradiction.
  - intros [Hk Hraises]. apply Hkill in Hk. unfold stopped_at. rewrite Hk, Hraises.
    cbn [andb]. apply Hesc in Hk.
    unfold is_running, poll. cbn [now].
    destruct (terminate_raises w (pid process)).
    + split; [|reflexivity]. now destruct (N.ltb_spec (now s) (ends process)); [|lia].
    + split; [|reflexivity]. destruct Hk as [Hk|Hk]; [discriminate|].
      now destruct (N.ltb_spec (now s + 10 * TICKS_PER_SECOND) (ends process)); [|lia].
  - intros Hnot. unfold stopped_at.
    destruct (escalates w process (now s)) eqn:Hk; [|reflexivity].
    destruct (kill_raises w (pid process)) eqn:Hraises; [|reflexivity].
    exfalso. apply Hnot. split; [now apply Hkill | reflexivity].
  - now rewrite DictFacts.get_del, String.eqb_refl.
  - intros k Hk. rewrite DictFacts.get_del.
    destruct (String.eqb_spec k (str file_path)); [contradiction | reflexivity].
Qed.

(** X13 on a process that would run for 50 seconds.  Where the signals go
    through, the ten seconds pass, the process is killed and waited for.
    Where sending a signal to it raises, [stop_process] returns at once,
    with the process running and its handle gone. *)
Lemma stop_process_escalates_witness :
  (exists s',
     stop_process Scenario.clean Scenario.enze
       (mkState 0 [("enze.py", mkPopen 100 0 50000 0)] [] 0 0) = Done tt s' /\
     output s' = [Terminate 100; WaitTimeout 100 10; Kill 100; Wait 100] /\
     now s' = 50000%N /\
     Dict.get "enze.py" (current_processes s') = None) /\
  (exists s',
     stop_process Scenario.untouchable Scenario.enze
       (mkState 0 [("enze.py", mkPopen 100 0 50000 0)] [] 0 0) = Done tt s' /\
     output s' = [Terminate 100; Kill 100] /\
     now s' = 0%N /\
     is_running (mkPopen 100 0 50000 0) s' = true /\
     Dict.get "enze.py" (current_processes s') = None).
Proof.
  split.
  - destruct (stop_process_escalates Scenario.clean Scenario.enze (mkPopen 100 0 50000 0)
                (mkState 0 [("enze.py", mkPopen 100 0 50000 0)] [] 0 0))
      as (s' & H1 & H2 & _ & _ & _ & _ & H3 & H4 & _); [reflexivity | reflexivity |].
    exists s'. split; [exact H1|]. split; [exact H2|]. split; [|exact H4].
    apply H3. intros [_ H]. discriminate H.
  - destruct (stop_process_escalates Scenario.untouchable Scenario.enze
                (mkPopen 100 0 50000 0)
                (mkState 0 [("enze.py", mkPopen 100 0 50000 0)] [] 0 0))
      as (s' & H1 & H2 & _ & _ & _ & H3 & _ & H4 & _); [reflexivity | reflexivity |].
    exists s'. split; [exact H1|]. split; [exact H2|].
    destruct H3 as [Hr Hn]; [split; [cbn; tauto | reflexivity]|].
    split; [exact Hn|]. split; [exact Hr | exact H4].
Defined.

(** X14: stopping twice is stopping once: [stop_process] returns, and
    called again in the state it leaves it does nothing.  It does nothing
    either for a file that has no handle or whose process has ended. *)
Theorem stop_process_idempotent (w : World) (file_path : Path) (s : State) :
  (exists s',
     stop_process w file_path s = Done tt s' /\
     stop_process w file_path s' = Done tt s') /\
  ((forall process, Dict.get (str file_path) (current_processes s) = Some process ->
                    (ends process <= now s)%N) ->
   stop_process w file_path s = Done tt s).
Proof.
  split.
  - destruct (stop_process_key w file_path s) as (s' & Hstop & _ & Hkey).
    exists s'. split; [exact Hstop|].
    apply stop_process_idle. intros process Hp. apply is_running_false. now apply Hkey.
  - intros H. apply stop_process_idle. intros process Hp.
    apply is_running_false. now apply H.
Qed.

(** X15: the signal handler.  With the keys of the dictionary as [Path]
    gives them back (as the workers write them), [signal_handler] returns
    without an exception, logs the shutdown first and then only stops
    processes; when it returns no registered process is running, and every
    handle left was there before. *)
Theorem signal_handler_stops_all (w : World) (s : State) :
  Forall normalised (Dict.keys (current_processes s)) ->
  exists s' evs,
    signal_handler w s = Done tt s' /\
    output s' = (output s ++ Log MinimalRunner INFO MsgShuttingDown :: evs)%list /\
    Forall stop_event evs /\
    all_exited s' /\
    (forall k process, Dict.get k (current_processes s') = Some process ->
                       Dict.get k (current_processes s) = Some process) /\
    (now s <= now s')%N.
Proof.
  intros Hnorm. unfold signal_handler, bind, effect.
  destruct (stop_all_processes_sweeps w (log MinimalRunner INFO MsgShuttingDown s) Hnorm)
    as (s' & Hstop & (Hnow & Hsub & evs & Hout & Hev) & Hall).
  exists s', evs. rewrite Hstop. split; [reflexivity|].
  split; [rewrite Hout; cbn; now rewrite <- app_assoc|].
  repeat split; assumption.
Qed.

(** X15 on two handles, the first of a process that has ended and the second
    of one that ends 0.1 second after the signal. *)
Lemma signal_handler_stops_all_witness :
  exists s',
    signal_handler Scenario.signalled
      (mkState 3000 [("enze.py", mkPopen 100 0 2500 0);
                     ("bots/echo.py", mkPopen 200 0 3100 (-15))] [] 0 0) = Done tt s' /\
    all_exited s'.
Proof.
  destruct (signal_handler_stops_all Scenario.signalled
              (mkState 3000 [("enze.py", mkPopen 100 0 2500 0);
                             ("bots/echo.py", mkPopen 200 0 3100 (-15))] [] 0 0))
    as (s' & evs & H1 & _ & _ & H2 & _).
  - repeat constructor.
  - exists s'. split; assumption.
Defined.

(** ** A run of the group, counted *)

Lemma launch_count_not_launch (evs : list Event) :
  Forall not_launch evs -> launch_count evs = 0.
Proof.
  intros H. unfold launch_count.
  assert (Hnone : forall a, slept_before_launches a evs = []).
  { induction H as [|e evs He _ IH]; intros a; [reflexivity|].
    destruct e; cbn in He |- *; try contradiction; apply IH. }
  now rewrite Hnone.
Qed.

Lemma stop_event_not_launch (evs : list Event) :
  Forall stop_event evs -> Forall not_launch evs.
Proof.
  apply Forall_impl. intros e. destruct e; cbn; trivial.
Qed.

Lemma validation_not_launch (w : World) (t : N) (files : list string) :
  Forall not_launch (map (validation_record w t) files).
Proof.
  apply Forall_forall. intros e He. apply in_map_iff in He as (f & <- & _).
  unfold validation_record. now destruct (found w t (PathParse.Path_of_string f)).
Qed.

Lemma submit_not_launch (l : list Path) : Forall not_launch (map Submit l).
Proof. apply Forall_forall. intros e He. now apply in_map_iff in He as (p & <- & _). Qed.

Section GroupTally.
Variables (self : MinimalBotRunner) (w : World).

(** The workers, one after the other: what they launch and where they
    register. *)
Lemma workers_tally (t0 : N) (l : list Path) :
  forall (i : nat) (s : State),
    exists s' evs,
      workers self w i t0 l s = Done tt s' /\
      output s' = (output s ++ evs)%list /\
      launch_count evs <= MAX_RESTARTS self * List.length l /\
      forall k, Dict.get k (current_processes s') <> None ->
        Dict.get k (current_processes s) <> None \/
        exists file_path, In file_path l /\ k = str file_path.
Proof.
  induction l as [|file_path l IH]; intros i s; cbn [workers].
  - exists s, []. rewrite app_nil_r. repeat split; [cbn; lia | now left].
  - destruct (worker_tally self w i file_path (at_time t0 s))
      as (s1 & Hends1 & evs1 & Hout1 & Hl1 & _ & Hmax1 & _ & Hreg1 & _).
    destruct (worker_joined self w i t0 file_path s) as (s1' & s2 & Hends & _ & Hjoin & Hs2).
    assert (Hsame : s1' = s1) by exact (worker_ends_unique w _ _ _ _ Hends Hends1).
    subst s1'.
    destruct (IH (S i) s2) as (s' & evs2 & Hws & Hout2 & Hl2 & Hreg2).
    assert (Hs2' : exists more,
              output s2 = (output s1 ++ more)%list /\ launch_count more = 0 /\
              current_processes s2 = current_processes s1).
    { destruct Hs2 as [->| ->].
      - exists []. cbn. now rewrite app_nil_r.
      - now exists [Log MinimalRunner ERROR MsgError]. }
    destruct Hs2' as (more & Hout2' & Hmore & Hcp).
    exists s', (evs1 ++ more ++ evs2)%list. split; [|split; [|split]].
    + unfold bind at 1. rewrite Hjoin. exact Hws.
    + rewrite Hout2, Hout2', Hout1. cbn [at_time output]. now rewrite <- !app_assoc.
    + rewrite !launch_count_app. cbn [List.length]. rewrite Nat.mul_succ_r. lia.
    + intros k Hk. destruct (Hreg2 k Hk) as [H|(p & Hp & ->)].
      * rewrite Hcp in H.
        destruct (String.eqb_spec k (str file_path)) as [->|Hne].
        -- right. exists file_path. split; [now left | reflexivity].
        -- left. now rewrite (Hreg1 k Hne) in H.
      * right. exists p. split; [now right | reflexivity].
Qed.

(** Workers that start when the shutdown flag is up return at once. *)
Lemma workers_shut (t0 : N) (l : list Path) :
  shutdown_requested w t0 = true ->
  forall (i : nat) (s : State),
    exists s',
      workers self w i t0 l s = Done tt s' /\
      output s' = output s /\
      current_processes s' = current_processes s.
Proof.
  intros Hsd. induction l as [|file_path l IH]; intros i s; cbn [workers].
  - now exists s.
  - assert (Hrun : run_single_bot self w i file_path (at_time t0 s)
                   = Done tt (worker_start (at_time t0 s))).
    { unfold run_single_bot. cbn [while_loop]. unfold loop_cond.
      cbn [worker_start at_time now]. now rewrite Hsd. }
    unfold bind at 1, try_except, future_result. rewrite Hrun.
    destruct (IH (S i) (at_time (N.max (now s) (now (worker_start (at_time t0 s))))
                          (worker_start (at_time t0 s)))) as (s' & Hws & Hout & Hreg).
    exists s'. split; [exact Hws|]. now rewrite Hout, Hreg.
Qed.

(** The handler, if it runs, launches nothing and registers nothing. *)
Lemma deliver_signal_tally (t0 : N) (s : State) :
  exists s' evs,
    deliver_signal w t0 s = Done tt s' /\
    output s' = (output s ++ evs)%list /\
    Forall not_launch evs /\
    forall k p, Dict.get k (current_processes s') = Some p ->
                Dict.get k (current_processes s) = Some p.
Proof.
  unfold deliver_signal, bind at 1, gets at 1.
  assert (Hnothing : exists s' evs,
            Done tt s = Done tt s' /\ output s' = (output s ++ evs)%list /\
            Forall not_launch evs /\
            forall k p, Dict.get k (current_processes s') = Some p ->
                        Dict.get k (current_processes s) = Some p).
  { exists s, []. rewrite app_nil_r. repeat split; auto. }
  destruct (shutdown_at w) as [T|]; [|exact Hnothing].
  destruct ((t0 <=? T)%N && (T <=? now s)%N); [|exact Hnothing].
  clear Hnothing.
  unfold bind at 1, effect at 1, signal_handler, bind at 1, bind at 1, effect at 1.
  destruct (stop_all_processes_stops w (log MinimalRunner INFO MsgShuttingDown (at_time T s)))
    as (s1 & Hstop & _ & Hreg & evs & Hout & Hev).
  rewrite Hstop. unfold effect.
  eexists. exists (Log MinimalRunner INFO MsgShuttingDown :: evs).
  split; [reflexivity|]. cbn in Hreg, Hout |- *. split; [|split].
  - now rewrite Hout, <- app_assoc.
  - constructor; [exact I | now apply stop_event_not_launch].
  - exact Hreg.
Qed.

(** A run of the group, counted. *)
Lemma run_tally (t : N) :
  exists o s',
    run self w (fresh t) = o /\
    run_ends self w t o s' /\
    launch_count (output s')
    <= MAX_RESTARTS self * List.length (valid_files w t (bot_files self)) /\
    (forall k, Dict.get k (current_processes s') <> None ->
       exists file_path, In file_path (valid_files w t (bot_files self)) /\ k = str file_path) /\
    (shutdown_requested w t = true ->
     launch_count (output s') = 0 /\
     forall k, Dict.get k (current_processes s') = None) /\
    all_exited s'.
Proof.
  destruct (run_returns self w t)
    as [(before & e & Hfe & Hrun)
       |[(Hfe & Hv & Hrun)|(Hfe & Hv & s2 & s3 & Hws & Hsig & Hall & _ & Hrun & _)]].
  - eexists. eexists. split; [exact Hrun|]. split; [right; now exists before, e|].
    assert (Hl : launch_count
                   (output (with_output (map (validation_record w t) before)
                      (log MinimalRunner INFO MsgStartingAll (fresh t)))) = 0).
    { apply launch_count_not_launch. cbn [output log emit with_output fresh app].
      constructor; [exact I | apply validation_not_launch]. }
    rewrite Hl. split; [lia|]. split; [intros k Hk; now cbn in Hk|].
    split; [intros _; split; reflexivity | intros k p H; discriminate H].
  - eexists. eexists. split; [exact Hrun|]. split; [now left|].
    assert (Hl : launch_count
                   (output (log MinimalRunner ERROR MsgNoValidFiles
                      (with_output (map (validation_record w t) (bot_files self))
                         (log MinimalRunner INFO MsgStartingAll (fresh t))))) = 0).
    { apply launch_count_not_launch. cbn [output log emit with_output fresh app].
      constructor; [exact I|].
      apply Forall_app. split; [apply validation_not_launch | now repeat constructor]. }
    rewrite Hl. split; [lia|]. split; [intros k Hk; now cbn in Hk|].
    split; [intros _; split; reflexivity | intros k p H; discriminate H].
  - set (s1 := with_output (map (validation_record w t) (bot_files self))
                 (log MinimalRunner INFO MsgStartingAll (fresh t))) in *.
    set (valid := valid_files w t (bot_files self)) in *.
    assert (Hs1 : Forall not_launch (output (with_output (map Submit valid) s1))).
    { subst s1. cbn [output log emit with_output fresh app].
      constructor; [exact I|].
      apply Forall_app. split; [apply validation_not_launch | apply submit_not_launch]. }
    destruct (deliver_signal_tally t s2) as (s3' & evs3 & Hsig' & Hout3 & Hev3 & Hreg3).
    rewrite Hsig in Hsig'. injection Hsig' as <-.
    eexists. eexists. split; [exact Hrun|]. split; [now left|].
    cbn [output emit current_processes].
    rewrite Hout3, !launch_count_app, (launch_count_not_launch evs3 Hev3).
    cbn [launch_count slept_before_launches List.length].
    split; [|split; [|split; [|exact Hall]]].
    + destruct (workers_tally t valid 0 (with_output (map Submit valid) s1))
        as (s2' & evs2 & Hws' & Hout2 & Hl2 & _).
      rewrite Hws in Hws'. injection Hws' as <-.
      rewrite Hout2, launch_count_app, (launch_count_not_launch _ Hs1). lia.
    + destruct (workers_tally t valid 0 (with_output (map Submit valid) s1))
        as (s2' & evs2 & Hws' & _ & _ & Hreg2).
      rewrite Hws in Hws'. injection Hws' as <-.
      intros k Hk.
      destruct (Dict.get k (current_processes s3)) as [p|] eqn:E; [|contradiction].
      apply Hreg3 in E.
      destruct (Hreg2 k) as [H|H]; [congruence | now cbn in H | exact H].
    + intros Hsd.
      destruct (workers_shut t valid Hsd 0 (with_output (map Submit valid) s1))
        as (s2' & Hws' & Hout2 & Hreg2).
      rewrite Hws in Hws'. injection Hws' as <-.
      rewrite Hout2, (launch_count_not_launch _ Hs1). split; [reflexivity|].
      intros k. destruct (Dict.get k (current_processes s3)) as [p|] eqn:E; [|reflexivity].
      apply Hreg3 in E. rewrite Hreg2 in E. discriminate E.
Qed.

End GroupTally.

(** X16: a run of the group calls [subprocess.Popen] at most [MAX_RESTARTS]
    times for each valid file, in any world and however it ends: at most 5
    times the number of configured files for the runner [__init__] builds. *)
Theorem run_launches_bounded (self : MinimalBotRunner) (w : World) (t : N) :
  exists o s',
    run self w (fresh t) = o /\
    run_ends self w t o s' /\
    launch_count (output s')
    <= MAX_RESTARTS self * List.length (valid_files w t (bot_files self)) /\
    (forall files, init files = Some self ->
                   launch_count (output s') <= 5 * List.length files).
Proof.
  destruct (run_tally self w t) as (o & s' & Hrun & Hends & Hl & _).
  exists o, s'. split; [exact Hrun|]. split; [exact Hends|]. split; [exact Hl|].
  intros [|f files]; [discriminate|]. intros [= <-]. cbn [MAX_RESTARTS bot_files] in Hl.
  assert (Hlen : List.length (valid_files w t (f :: files)) <= List.length (f :: files)).
  { unfold valid_files. rewrite <- (length_map PathParse.Path_of_string (f :: files)).
    apply filter_length_le. }
  lia.
Qed.

(** X17: when [run] ends, every handle in the dictionary is filed under
    the path of a valid configured file, written as [Path] gives it back: a
    key under which [stop_process] looks the handle up again. *)
Theorem run_registers_valid_files (self : MinimalBotRunner) (w : World) (t : N) :
  exists o s',
    run self w (fresh t) = o /\
    run_ends self w t o s' /\
    forall k process,
      Dict.get k (current_processes s') = Some process ->
      (exists file_str,
         In file_str (bot_files self) /\
         path_exists w (PathParse.Path_of_string file_str) t = inr true /\
         k = str (PathParse.Path_of_string file_str)) /\
      normalised k /\
      stop_process w (PathParse.Path_of_string k) s' = Done tt s'.
Proof.
  destruct (run_tally self w t) as (o & s' & Hrun & Hends & _ & Hkeys & _ & Hall).
  exists o, s'. split; [exact Hrun|]. split; [exact Hends|]. intros k process Hget.
  destruct (Hkeys k) as (file_path & Hin & ->); [congruence|].
  apply valid_files_In in Hin as [(file_str & Hf & ->) He].
  assert (Hnorm : normalised (str (PathParse.Path_of_string file_str)))
    by (unfold normalised; now rewrite PathFacts.Path_of_string_str).
  split; [now exists file_str|]. split; [exact Hnorm|].
  apply stop_process_exited. exact Hall.
Qed.

(** X18: a run that starts when the shutdown flag is already up launches
    nothing and registers nothing, however it ends: the files are validated
    and the workers submitted, and every worker returns at once. *)
Theorem run_after_signal_launches_nothing (self : MinimalBotRunner) (w : World) (t T : N) :
  shutdown_at w = Some T ->
  (T <= t)%N ->
  exists o s',
    run self w (fresh t) = o /\
    run_ends self w t o s' /\
    launch_count (output s') = 0 /\
    forall k, Dict.get k (current_processes s') = None.
Proof.
  intros HT Hle. destruct (run_tally self w t) as (o & s' & Hrun & Hends & _ & _ & Hshut & _).
  exists o, s'. split; [exact Hrun|]. split; [exact Hends|]. apply Hshut.
  unfold shutdown_requested. rewrite HT. now apply N.leb_le.
Qed.

(** X18 on the group of [Scenario.three_files], signalled one second before
    the run starts. *)
Lemma run_after_signal_launches_nothing_witness :
  exists s',
    run Scenario.three_files
      (Scenario.quiet_platform (fun _ n => PopenStarts (100 + n) 2500 137) (Some 4000%N))
      (fresh 5000) = Done tt s' /\
    launch_count (output s') = 0.
Proof.
  destruct (run_after_signal_launches_nothing Scenario.three_files
              (Scenario.quiet_platform (fun _ n => PopenStarts (100 + n) 2500 137)
                 (Some 4000%N)) 5000 4000)
    as (o & s' & H1 & Hends & H2 & _); [reflexivity | lia |].
  exists s'. split; [|exact H2].
  destruct Hends as [[Hd _]|(before & e & _ & Hfe)]; [now rewrite H1|].
  vm_compute in Hfe. discriminate Hfe.
Defined.

(** ** The logger cache *)

Module LoggingFacts.
Import Logging.

Lemma create_file_logger_sound (file_path : Path) (st : Loggers) :
  sound st -> sound (snd (create_file_logger file_path st)).
Proof.
  intros [Hcached Hfresh]. unfold create_file_logger.
  destruct (Dict.get ("Bot_" ++ stem file_path) (file_loggers st)) eqn:E;
    [now split|].
  cbn [snd manager file_loggers level handlers propagate]. rewrite (Hfresh _ E).
  unfold sound. cbn [manager file_loggers app]. split.
  - intros name l. rewrite !DictFacts.get_set.
    destruct (String.eqb_spec name ("Bot_" ++ stem file_path)) as [->|Hne].
    + intros [= <-]. split; [reflexivity|]. now exists (stem file_path).
    + apply Hcached.
  - intros name. rewrite DictFacts.get_set. unfold getLogger. rewrite DictFacts.get_set.
    destruct (String.eqb_spec name ("Bot_" ++ stem file_path)) as [->|Hne];
      [discriminate|].
    apply Hfresh.
Qed.

Lemma create_file_logger_caches (file_path : Path) (st : Loggers) :
  sound st ->
  Dict.get (logger_name file_path) (file_loggers (snd (create_file_logger file_path st)))
  = Some (logger_name file_path).
Proof.
  intros [Hcached _]. unfold create_file_logger, logger_name.
  destruct (Dict.get ("Bot_" ++ stem file_path) (file_loggers st)) as [l|] eqn:E.
  - cbn [snd]. rewrite E. now destruct (Hcached _ _ E) as [-> _].
  - cbn [snd file_loggers]. apply DictFacts.get_set_same.
Qed.

Lemma create_file_logger_keeps (file_path : Path) (st : Loggers) (name l : string) :
  sound st ->
  Dict.get name (file_loggers st) = Some l ->
  Dict.get name (file_loggers (snd (create_file_logger file_path st))) = Some l.
Proof.
  intros [Hcached _] Hget. unfold create_file_logger.
  destruct (Dict.get ("Bot_" ++ stem file_path) (file_loggers st)) as [l'|] eqn:E;
    [exact Hget|].
  cbn [snd file_loggers]. rewrite DictFacts.get_set.
  destruct (String.eqb_spec name ("Bot_" ++ stem file_path)) as [->|_]; [congruence | exact Hget].
Qed.

Lemma after_calls_sound (calls : list Path) :
  forall st, sound st -> sound (after_calls calls st).
Proof.
  induction calls as [|c calls IH]; intros st Hs; [exact Hs|].
  apply IH. now apply create_file_logger_sound.
Qed.

Lemma after_calls_keeps (calls : list Path) (name l : string) :
  forall st,
    sound st ->
    Dict.get name (file_loggers st) = Some l ->
    Dict.get name (file_loggers (after_calls calls st)) = Some l.
Proof.
  induction calls as [|c calls IH]; intros st Hs Hget; [exact Hget|].
  apply IH; [now apply create_file_logger_sound | now apply create_file_logger_keeps].
Qed.

Lemma after_calls_caches (calls : list Path) (file_path : Path) :
  forall st,
    sound st ->
    In file_path calls ->
    Dict.get (logger_name file_path) (file_loggers (after_calls calls st))
    = Some (logger_name file_path).
Proof.
  induction calls as [|c calls IH]; intros st Hs []; cbn [after_calls fold_left].
  - subst c. apply after_calls_keeps; [now apply create_file_logger_sound|].
    now apply create_file_logger_caches.
  - apply IH; [now apply create_file_logger_sound | assumption].
Qed.

End LoggingFacts.

(** X19: however often [create_file_logger] is called, and it is called
    four times for every launch, a file logger gets its handler once.  From a
    state in which nothing is cached and no logger has a handler of its own,
    after any sequence of calls the logger of every file it was called for is
    the one named after the stem of the file, the name the worker logs under;
    it has level INFO, does not propagate, and has exactly one handler, which
    formats with the stem; and one more call returns that logger and changes
    nothing. *)
Theorem file_logger_configured_once (st0 : Logging.Loggers) (calls : list Path)
  (file_path : Path) :
  Logging.file_loggers st0 = [] ->
  (forall name, Logging.handlers (Logging.getLogger name (Logging.manager st0)) = []) ->
  In file_path calls ->
  let st := Logging.after_calls calls st0 in
  Logging.create_file_logger file_path st
  = (Logging.name_of (create_file_logger file_path), st) /\
  Dict.get (Logging.name_of (create_file_logger file_path)) (Logging.manager st)
  = Some (Logging.mkLoggerObject (Some INFO)
            [Logging.mkHandler (Logging.formatter (stem file_path))] false).
Proof.
  intros Hempty Hfresh Hin st.
  assert (Hs0 : Logging.sound st0).
  { split; [rewrite Hempty; discriminate | intros name _; apply Hfresh]. }
  pose proof (LoggingFacts.after_calls_sound calls st0 Hs0) as Hs.
  pose proof (LoggingFacts.after_calls_caches calls file_path st0 Hs0 Hin) as Hc.
  fold st in Hs, Hc. unfold Logging.logger_name in Hc.
  change (Logging.name_of (create_file_logger file_path)) with ("Bot_" ++ stem file_path).
  split.
  - unfold Logging.create_file_logger. now rewrite Hc.
  - destruct Hs as [Hcached _].
    destruct (Hcached _ _ Hc) as (_ & file_name & Hname & Hobj).
    assert (Hstem : file_name = stem file_path) by (now injection Hname).
    now rewrite Hobj, Hstem.
Qed.

(** X19 on the fifth call for the file of [main()], in a process where
    [setup_logging] has made the logger of the runner. *)
Lemma file_logger_configured_once_witness :
  Logging.create_file_logger Scenario.enze
    (Logging.after_calls [Scenario.enze; Scenario.enze; Scenario.enze; Scenario.enze]
       (Logging.mkLoggers [("MinimalRunner", Logging.new_logger)] []))
  = ("Bot_enze",
     Logging.mkLoggers
       [("MinimalRunner", Logging.new_logger);
        ("Bot_enze",
         Logging.mkLoggerObject (Some INFO)
           [Logging.mkHandler "%(asctime)s - [enze] %(message)s"] false)]
       [("Bot_enze", "Bot_enze")]).
Proof.
  refine (proj1 (file_logger_configured_once
                   (Logging.mkLoggers [("MinimalRunner", Logging.new_logger)] [])
                   [Scenario.enze; Scenario.enze; Scenario.enze; Scenario.enze]
                   Scenario.enze _ _ _)).
  - reflexivity.
  - intros name. unfold Logging.getLogger. cbn.
    now destruct (String.eqb name "MinimalRunner").
  - now left.
Defined.
